(** * Jade: liquid transaction signing, network table and keychain restriction

    A shallow embedding of
      - [main/utils/network.c]         (module [Network]),
      - the network-type restriction of [main/keychain.c] (module [Keychain]),
      - [main/process/sign_liquid_tx.c] (modules [Commitments] and [SignLiquidTx]),
    followed by their properties: the network table ([NetworkFacts]), the
    restriction ([KeychainFacts]), the commitment verifier
    ([CommitmentsFacts], [VerifierClaims]) and whole signing sessions
    ([StageFacts], [SessionFacts], [SessionClaims]).

    Conventions.
      - A [const char*] is an [option string]: [None] is the NULL pointer.
        [strcmp(a, b) == 0] is string equality.
      - A byte buffer is a [list Z] of 8-bit values; a [uintN_t] is a [Z] whose
        wrap-around is written out where the code computes with it.
      - A function that starts with [JADE_ASSERT] returns an [option]:
        [None] is the fatal abort of a failed assertion.
      - Functions, macros and constants that live in other files (libwally,
        mbedtls, the wallet, the RPC decoder, the GUI) are fields of the
        classes [Tags], [WallyConstants], [Crypto] and [Externals]: every
        statement holds for all of them.
      - The signing process is a function in a small monad over the process
        context: the host's pending messages, the current message, and the
        trace of what the process has sent, loaded and displayed. *)

From Stdlib Require Import ZArith List String Bool Lia.
Import ListNotations.

Local Open Scope Z_scope.

(* ------------------------------------------------------------------ *)
(** * main/utils/network.c *)
(* ------------------------------------------------------------------ *)

Module Network.

(** The six network tags of [network.h]; their spelling is not part of the
    sources at hand, so every statement below is parametric in them. *)
Class Tags : Type := {
  TAG_MAINNET : string;
  TAG_LIQUID : string;
  TAG_TESTNET : string;
  TAG_TESTNETLIQUID : string;
  TAG_LOCALTEST : string;
  TAG_LOCALTESTLIQUID : string
}.

(** Constants of libwally ([wally_address.h], [wally_bip32.h]) that the table
    hands out. *)
Class WallyConstants : Type := {
  WALLY_NETWORK_BITCOIN_MAINNET : Z;
  WALLY_NETWORK_BITCOIN_TESTNET : Z;
  WALLY_NETWORK_LIQUID : Z;
  WALLY_NETWORK_LIQUID_TESTNET : Z;
  WALLY_NETWORK_LIQUID_REGTEST : Z;
  BIP32_VER_MAIN_PRIVATE : Z;
  BIP32_VER_TEST_PRIVATE : Z;
  WALLY_ADDRESS_VERSION_P2PKH_MAINNET : Z;
  WALLY_ADDRESS_VERSION_P2PKH_TESTNET : Z;
  WALLY_ADDRESS_VERSION_P2PKH_LIQUID : Z;
  WALLY_ADDRESS_VERSION_P2PKH_LIQUID_TESTNET : Z;
  WALLY_ADDRESS_VERSION_P2PKH_LIQUID_REGTEST : Z;
  WALLY_ADDRESS_VERSION_P2SH_MAINNET : Z;
  WALLY_ADDRESS_VERSION_P2SH_TESTNET : Z;
  WALLY_ADDRESS_VERSION_P2SH_LIQUID : Z;
  WALLY_ADDRESS_VERSION_P2SH_LIQUID_TESTNET : Z;
  WALLY_ADDRESS_VERSION_P2SH_LIQUID_REGTEST : Z;
  WALLY_CA_PREFIX_LIQUID : Z;
  WALLY_CA_PREFIX_LIQUID_TESTNET : Z;
  WALLY_CA_PREFIX_LIQUID_REGTEST : Z
}.

Definition SIZE_MAX : Z := 2 ^ 32 - 1.

(** Which arm of an [if / else if / ... / else] chain produced the returned
    value: [Mapped v] for one of the arms that test a tag, [Fallback v] for
    the closing [else]. *)
Inductive lookup (A : Type) : Type :=
| Mapped (v : A)
| Fallback (v : A).
Arguments Mapped {A} v.
Arguments Fallback {A} v.

Definition returned {A : Type} (r : lookup A) : A :=
  match r with Mapped v => v | Fallback v => v end.

Definition is_mapped {A : Type} (r : lookup A) : bool :=
  match r with Mapped _ => true | Fallback _ => false end.

Section Table.
Context {tags : Tags} {wally : WallyConstants}.

(** [!strcmp(tag, network)] for a non-NULL [network]. *)
Definition tag_is (tag network : string) : bool := String.eqb tag network.

Definition isValidNetwork (network : option string) : bool :=
  match network with
  | None => false
  | Some network =>
      tag_is TAG_MAINNET network || tag_is TAG_LIQUID network || tag_is TAG_TESTNET network
      || tag_is TAG_TESTNETLIQUID network || tag_is TAG_LOCALTEST network
      || tag_is TAG_LOCALTESTLIQUID network
  end.

(** [JADE_ASSERT(isValidNetwork(network)); body] *)
Definition assert_valid {A : Type} (network : option string) (body : string -> A) : option A :=
  match network with
  | Some n => if isValidNetwork network then Some (body n) else None
  | None => None
  end.

Definition isTestNetwork (network : option string) : option bool :=
  assert_valid network (fun network =>
    tag_is TAG_TESTNET network || tag_is TAG_TESTNETLIQUID network || tag_is TAG_LOCALTEST network
    || tag_is TAG_LOCALTESTLIQUID network).

Definition isLiquidNetwork (network : option string) : option bool :=
  assert_valid network (fun network =>
    tag_is TAG_LIQUID network || tag_is TAG_TESTNETLIQUID network || tag_is TAG_LOCALTESTLIQUID network).

(** [JADE_ASSERT(isLiquidNetwork(network)); body]: the assertion inside
    [isLiquidNetwork] fires first. *)
Definition assert_liquid {A : Type} (network : option string) (body : string -> A) : option A :=
  match network, isLiquidNetwork network with
  | Some n, Some true => Some (body n)
  | _, _ => None
  end.

Definition csvBlocksExpectedForNetwork (network : option string) (csvBlocks : Z)
  : option (lookup bool) :=
  assert_valid network (fun network =>
    if tag_is TAG_MAINNET network then
      Mapped ((csvBlocks =? 25920) || (csvBlocks =? 51840) || (csvBlocks =? 65535))
    else if tag_is TAG_LIQUID network then
      Mapped (csvBlocks =? 65535)
    else if tag_is TAG_TESTNET network || tag_is TAG_LOCALTEST network then
      Mapped ((csvBlocks =? 144) || (csvBlocks =? 4320) || (csvBlocks =? 51840))
    else if tag_is TAG_TESTNETLIQUID network || tag_is TAG_LOCALTESTLIQUID network then
      Mapped ((csvBlocks =? 1440) || (csvBlocks =? 65535))
    else Fallback false).

Definition networkToMinAllowedCsvBlocks (network : option string) : option (lookup Z) :=
  assert_valid network (fun network =>
    if tag_is TAG_MAINNET network then Mapped 25920
    else if tag_is TAG_LIQUID network then Mapped 65535
    else if tag_is TAG_TESTNET network || tag_is TAG_LOCALTEST network then Mapped 144
    else if tag_is TAG_TESTNETLIQUID network || tag_is TAG_LOCALTESTLIQUID network then Mapped 1440
    else Fallback SIZE_MAX).

Definition networkToId (network : option string) : option (lookup Z) :=
  assert_valid network (fun network =>
    if tag_is TAG_MAINNET network then Mapped WALLY_NETWORK_BITCOIN_MAINNET
    else if tag_is TAG_TESTNET network || tag_is TAG_LOCALTEST network then
      Mapped WALLY_NETWORK_BITCOIN_TESTNET
    else if tag_is TAG_LIQUID network then Mapped WALLY_NETWORK_LIQUID
    else if tag_is TAG_TESTNETLIQUID network then Mapped WALLY_NETWORK_LIQUID_TESTNET
    else if tag_is TAG_LOCALTESTLIQUID network then Mapped WALLY_NETWORK_LIQUID_REGTEST
    else Fallback 0).

Definition networkToVersion (network : option string) : option (lookup Z) :=
  assert_valid network (fun n =>
    if tag_is TAG_MAINNET n || tag_is TAG_LIQUID n then Mapped BIP32_VER_MAIN_PRIVATE
    else if match isTestNetwork network with Some b => b | None => false end then
      Mapped BIP32_VER_TEST_PRIVATE
    else Fallback 0).

Definition networkToP2PKHPrefix (network : option string) : option (lookup Z) :=
  assert_valid network (fun network =>
    if tag_is TAG_MAINNET network then Mapped WALLY_ADDRESS_VERSION_P2PKH_MAINNET
    else if tag_is TAG_TESTNET network || tag_is TAG_LOCALTEST network then
      Mapped WALLY_ADDRESS_VERSION_P2PKH_TESTNET
    else if tag_is TAG_LIQUID network then Mapped WALLY_ADDRESS_VERSION_P2PKH_LIQUID
    else if tag_is TAG_TESTNETLIQUID network then Mapped WALLY_ADDRESS_VERSION_P2PKH_LIQUID_TESTNET
    else if tag_is TAG_LOCALTESTLIQUID network then Mapped WALLY_ADDRESS_VERSION_P2PKH_LIQUID_REGTEST
    else Fallback 0).

Definition networkToP2SHPrefix (network : option string) : option (lookup Z) :=
  assert_valid network (fun network =>
    if tag_is TAG_MAINNET network then Mapped WALLY_ADDRESS_VERSION_P2SH_MAINNET
    else if tag_is TAG_TESTNET network || tag_is TAG_LOCALTEST network then
      Mapped WALLY_ADDRESS_VERSION_P2SH_TESTNET
    else if tag_is TAG_LIQUID network then Mapped WALLY_ADDRESS_VERSION_P2SH_LIQUID
    else if tag_is TAG_TESTNETLIQUID network then Mapped WALLY_ADDRESS_VERSION_P2SH_LIQUID_TESTNET
    else if tag_is TAG_LOCALTESTLIQUID network then Mapped WALLY_ADDRESS_VERSION_P2SH_LIQUID_REGTEST
    else Fallback 0).

(** The returned [const char*]: [Some] of a string literal, [None] for NULL. *)
Definition networkToBech32Hrp (network : option string) : option (lookup (option string)) :=
  assert_valid network (fun network =>
    if tag_is TAG_MAINNET network then Mapped (Some "bc"%string)
    else if tag_is TAG_TESTNET network then Mapped (Some "tb"%string)
    else if tag_is TAG_LOCALTEST network then Mapped (Some "bcrt"%string)
    else if tag_is TAG_LIQUID network then Mapped (Some "ex"%string)
    else if tag_is TAG_TESTNETLIQUID network then Mapped (Some "tex"%string)
    else if tag_is TAG_LOCALTESTLIQUID network then Mapped (Some "ert"%string)
    else Fallback None).

Definition networkToCAPrefix (network : option string) : option (lookup Z) :=
  assert_liquid network (fun network =>
    if tag_is TAG_LIQUID network then Mapped WALLY_CA_PREFIX_LIQUID
    else if tag_is TAG_TESTNETLIQUID network then Mapped WALLY_CA_PREFIX_LIQUID_TESTNET
    else if tag_is TAG_LOCALTESTLIQUID network then Mapped WALLY_CA_PREFIX_LIQUID_REGTEST
    else Fallback 0).

Definition networkToBlech32Hrp (network : option string) : option (lookup (option string)) :=
  assert_liquid network (fun network =>
    if tag_is TAG_LIQUID network then Mapped (Some "lq"%string)
    else if tag_is TAG_TESTNETLIQUID network then Mapped (Some "tlq"%string)
    else if tag_is TAG_LOCALTESTLIQUID network then Mapped (Some "el"%string)
    else Fallback None).

Definition networkUsesTestnetAssets (network : option string) : option bool :=
  assert_liquid network (fun network => tag_is TAG_TESTNETLIQUID network).

Definition networkGetPolicyAsset (network : option string) : option (lookup (option string)) :=
  assert_liquid network (fun network =>
    if tag_is TAG_LIQUID network then
      Mapped (Some "6f0279e9ed041c3d710a9f57d0c02928416460c4b722ae3457a11eec381c526d"%string)
    else if tag_is TAG_TESTNETLIQUID network then
      Mapped (Some "144c654344aa716d6f3abcc1ca90e5641e4e2a7f633bc09fe3baf64585819a49"%string)
    else if tag_is TAG_LOCALTESTLIQUID network then
      Mapped (Some "5ac9f65c0efcc4775e0baec4ec03abdde22473cd3cf33c0419ca290e0751b225"%string)
    else Fallback None).

(** A lookup ran to completion through one of its tag-testing arms. *)
Definition from_mapping {A : Type} (r : option (lookup A)) : Prop :=
  exists v, r = Some (Mapped v).

End Table.

(** The spelling of the tags in the upstream firmware, used to run the table
    on concrete identifiers. *)
Definition upstream_tags : Tags := {|
  TAG_MAINNET := "mainnet"%string;
  TAG_LIQUID := "liquid"%string;
  TAG_TESTNET := "testnet"%string;
  TAG_TESTNETLIQUID := "testnet-liquid"%string;
  TAG_LOCALTEST := "localtest"%string;
  TAG_LOCALTESTLIQUID := "localtest-liquid"%string
|}.

(** libwally's values of the constants. *)
Definition libwally_constants : WallyConstants := {|
  WALLY_NETWORK_BITCOIN_MAINNET := 1;
  WALLY_NETWORK_BITCOIN_TESTNET := 2;
  WALLY_NETWORK_LIQUID := 3;
  WALLY_NETWORK_LIQUID_TESTNET := 5;
  WALLY_NETWORK_LIQUID_REGTEST := 4;
  BIP32_VER_MAIN_PRIVATE := 76066276;
  BIP32_VER_TEST_PRIVATE := 70615956;
  WALLY_ADDRESS_VERSION_P2PKH_MAINNET := 0;
  WALLY_ADDRESS_VERSION_P2PKH_TESTNET := 111;
  WALLY_ADDRESS_VERSION_P2PKH_LIQUID := 57;
  WALLY_ADDRESS_VERSION_P2PKH_LIQUID_TESTNET := 36;
  WALLY_ADDRESS_VERSION_P2PKH_LIQUID_REGTEST := 235;
  WALLY_ADDRESS_VERSION_P2SH_MAINNET := 5;
  WALLY_ADDRESS_VERSION_P2SH_TESTNET := 196;
  WALLY_ADDRESS_VERSION_P2SH_LIQUID := 39;
  WALLY_ADDRESS_VERSION_P2SH_LIQUID_TESTNET := 19;
  WALLY_ADDRESS_VERSION_P2SH_LIQUID_REGTEST := 75;
  WALLY_CA_PREFIX_LIQUID := 12;
  WALLY_CA_PREFIX_LIQUID_TESTNET := 23;
  WALLY_CA_PREFIX_LIQUID_REGTEST := 4
|}.

(** The three policy assets hard-coded in [networkGetPolicyAsset]. *)
Definition policy_assets : list string :=
  [ "6f0279e9ed041c3d710a9f57d0c02928416460c4b722ae3457a11eec381c526d"%string;
    "144c654344aa716d6f3abcc1ca90e5641e4e2a7f633bc09fe3baf64585819a49"%string;
    "5ac9f65c0efcc4775e0baec4ec03abdde22473cd3cf33c0419ca290e0751b225"%string ].

End Network.

(* ------------------------------------------------------------------ *)
(** * main/keychain.c: the network-type restriction *)
(* ------------------------------------------------------------------ *)

Module Keychain.
Import Network.

Inductive network_type_t : Type :=
| NETWORK_TYPE_NONE
| NETWORK_TYPE_MAIN
| NETWORK_TYPE_TEST.

Definition network_type_eqb (a b : network_type_t) : bool :=
  match a, b with
  | NETWORK_TYPE_NONE, NETWORK_TYPE_NONE => true
  | NETWORK_TYPE_MAIN, NETWORK_TYPE_MAIN => true
  | NETWORK_TYPE_TEST, NETWORK_TYPE_TEST => true
  | _, _ => false
  end.

(** The key material itself plays no part in the restriction logic. *)
Record keychain_t : Type := { seed : list Z }.

(** The file-level [static] variables the restriction code reads or writes,
    and the one flash cell behind [storage_set_network_type_restriction]. *)
Record globals : Type := {
  keychain_data : option keychain_t;
  network_type_restriction : network_type_t;
  has_encrypted_blob : bool;
  keychain_temporary : bool;
  storage_network_type_restriction : network_type_t
}.

Definition set_network_type_restriction (v : network_type_t) (g : globals) : globals :=
  {| keychain_data := keychain_data g;
     network_type_restriction := v;
     has_encrypted_blob := has_encrypted_blob g;
     keychain_temporary := keychain_temporary g;
     storage_network_type_restriction := storage_network_type_restriction g |}.

Definition storage_set_network_type_restriction (v : network_type_t) (g : globals) : globals :=
  {| keychain_data := keychain_data g;
     network_type_restriction := network_type_restriction g;
     has_encrypted_blob := has_encrypted_blob g;
     keychain_temporary := keychain_temporary g;
     storage_network_type_restriction := v |}.

Definition is_loaded (g : globals) : bool :=
  match keychain_data g with Some _ => true | None => false end.

Definition keychain_has_pin (g : globals) : bool := has_encrypted_blob g.

(** [JADE_ASSERT(!keychain_temporary || keychain_data); return keychain_temporary;] *)
Definition keychain_has_temporary (g : globals) : option bool :=
  if negb (keychain_temporary g) || is_loaded g then Some (keychain_temporary g) else None.

Definition keychain_get_network_type_restriction (g : globals) : network_type_t :=
  network_type_restriction g.

Section Restriction.
Context {tags : Tags}.

(** [isTestNetwork(network) ? NETWORK_TYPE_TEST : NETWORK_TYPE_MAIN] *)
Definition network_type_of (is_test : bool) : network_type_t :=
  if is_test then NETWORK_TYPE_TEST else NETWORK_TYPE_MAIN.

Definition keychain_is_network_type_consistent (network : option string) (g : globals)
  : option bool :=
  if isValidNetwork network then
    match isTestNetwork network with
    | None => None
    | Some is_test =>
        let network_type := network_type_of is_test in
        Some (network_type_eqb (network_type_restriction g) NETWORK_TYPE_NONE
              || network_type_eqb network_type (network_type_restriction g))
    end
  else None.

Definition keychain_clear_network_type_restriction (g : globals) : option globals :=
  match keychain_has_temporary g with
  | None => None
  | Some temporary =>
      let g := if negb temporary
               then storage_set_network_type_restriction NETWORK_TYPE_NONE g else g in
      Some (set_network_type_restriction NETWORK_TYPE_NONE g)
  end.

Definition keychain_set_network_type_restriction (network : option string) (g : globals)
  : option globals :=
  match keychain_is_network_type_consistent network g with
  | Some true =>
      if network_type_eqb (network_type_restriction g) NETWORK_TYPE_NONE then
        match isTestNetwork network with
        | None => None
        | Some is_test =>
            let network_type := network_type_of is_test in
            (* keychain_has_pin() && !keychain_has_temporary() *)
            let persisted :=
              if keychain_has_pin g then
                match keychain_has_temporary g with
                | None => None
                | Some temporary =>
                    Some (if negb temporary
                          then storage_set_network_type_restriction network_type g else g)
                end
              else Some g in
            match persisted with
            | None => None
            | Some g =>
                Some (if is_loaded g then set_network_type_restriction network_type g else g)
            end
        end
      else Some g
  | _ => None
  end.

(** A run of restriction requests, one per signing session, stopping at the
    first failed assertion. *)
Fixpoint set_restrictions (networks : list (option string)) (g : globals) : option globals :=
  match networks with
  | [] => Some g
  | network :: rest =>
      match keychain_set_network_type_restriction network g with
      | None => None
      | Some g => set_restrictions rest g
      end
  end.

End Restriction.

(** A wallet that is loaded, persisted and not yet restricted. *)
Definition fresh_wallet : globals := {|
  keychain_data := Some {| seed := [1; 2; 3] |};
  network_type_restriction := NETWORK_TYPE_NONE;
  has_encrypted_blob := true;
  keychain_temporary := false;
  storage_network_type_restriction := NETWORK_TYPE_NONE
|}.

End Keychain.

(* ------------------------------------------------------------------ *)
(** * main/process/sign_liquid_tx.c: helpers and the commitment checks *)
(* ------------------------------------------------------------------ *)

Module Commitments.

Definition bytes : Type := list Z.

Fixpoint bytes_eqb (a b : bytes) : bool :=
  match a, b with
  | [], [] => true
  | x :: a, y :: b => (x =? y) && bytes_eqb a b
  | _, _ => false
  end.

(** Lengths fixed by libwally ([wally_crypto.h], [wally_elements.h],
    [wally_transaction.h]). *)
Definition SHA256_LEN : nat := 32.
Definition HMAC_SHA256_LEN : nat := 32.
Definition ASSET_TAG_LEN : nat := 32.
Definition ASSET_GENERATOR_LEN : nat := 33.
Definition ASSET_COMMITMENT_LEN : nat := 33.
Definition WALLY_TXHASH_LEN : nat := 32.
Definition WALLY_S2C_OPENING_LEN : nat := 33.
Definition WALLY_HOST_COMMITMENT_LEN : nat := 32.

(** [sodium_memcmp(b1, b2, len)]: 0 when the first [len] bytes agree, -1
    otherwise. *)
Definition sodium_memcmp (b1 b2 : bytes) (len : nat) : Z :=
  if bytes_eqb (firstn len b1) (firstn len b2) then 0 else -1.

(** [buffer[0] = val & 0xFF; buffer[1] = (val >> 8) & 0xFF; ...] *)
Definition value_to_le (val : Z) : bytes :=
  [ Z.land val 255;
    Z.land (Z.shiftr val 8) 255;
    Z.land (Z.shiftr val 16) 255;
    Z.land (Z.shiftr val 24) 255 ].

(** The object representation of a [uint64_t], as [memcpy(p, &value, 8)]
    reads it on the little-endian target. *)
Definition uint64_bytes (v : Z) : bytes :=
  map (fun i => Z.land (Z.shiftr v (8 * Z.of_nat i)) 255) (seq 0 8).

(** [commitment_t]: one host-supplied trusted-commitment record.  Each array
    field is the content of a fixed-size buffer of the length named beside
    it. *)
Record commitment_t : Type := {
  have_commitments : bool;
  asset_id : bytes;            (* ASSET_TAG_LEN *)
  value : Z;                   (* uint64_t *)
  blinding_key : bytes;
  asset_generator : bytes;     (* ASSET_GENERATOR_LEN *)
  value_commitment : bytes;    (* ASSET_COMMITMENT_LEN *)
  hmac : bytes                 (* HMAC_SHA256_LEN *)
}.

(** The fields of [struct wally_tx_output] that the signing process reads.
    [tx_asset] and [tx_value] are the buffers behind [asset] and [value]
    ([asset_len] and [value_len] are their lengths; the empty buffer is the
    NULL pointer); [script] is NULL for a fee output. *)
Record wally_tx_output : Type := {
  script : option bytes;
  tx_asset : bytes;
  tx_value : bytes
}.

Record wally_tx_input : Type := {
  txhash : bytes;              (* WALLY_TXHASH_LEN *)
  index : Z                    (* uint32_t *)
}.

Record wally_tx : Type := {
  inputs : list wally_tx_input;
  outputs : list wally_tx_output
}.

Definition num_inputs_of (tx : wally_tx) : Z := Z.of_nat (List.length (inputs tx)).
Definition num_outputs_of (tx : wally_tx) : Z := Z.of_nat (List.length (outputs tx)).

(** [output_info_t]: the display summary of one output. *)
Record output_info_t : Type := {
  is_confidential : bool;
  oi_asset_id : bytes;
  oi_value : Z;
  oi_blinding_key : bytes
}.

(** A [JADE_CALLOC]ed [output_info_t]. *)
Definition output_info_zero : output_info_t :=
  {| is_confidential := false; oi_asset_id := repeat 0 32; oi_value := 0;
     oi_blinding_key := repeat 0 33 |}.

Inductive blinding_factor_type : Type :=
| ASSET_BLINDING_FACTOR
| VALUE_BLINDING_FACTOR.

(** The cryptographic collaborators: the keychain-backed wallet functions
    and the libwally primitives.  A result of [None] is the failure return
    ([false], or a code other than [WALLY_OK]). *)
Class Crypto : Type := {
  wallet_get_blinding_factor :
    bytes (* hash_prevouts *) -> Z (* output index *) -> blinding_factor_type -> option bytes;
  wally_asset_generator_from_bytes :
    bytes (* asset *) -> bytes (* abf *) -> option bytes;
  wally_asset_value_commitment :
    Z (* value *) -> bytes (* vbf *) -> bytes (* generator *) -> option bytes;
  wallet_hmac_with_master_key : bytes -> option bytes;
  (** The function SHA-256, computed in one call by [wally_sha256] and
      incrementally by the [mbedtls_sha256_*] calls. *)
  SHA256 : bytes -> bytes
}.

(** [value[0]] of an output; [None] is the read through a NULL [value]. *)
Definition value_prefix (txoutput : wally_tx_output) : option Z :=
  match tx_value txoutput with
  | [] => None
  | b :: _ => Some b
  end.

(** What a [bool]-returning check hands back: the return value together with
    the message left in [*errmsg] on failure. *)
Inductive verdict : Type :=
| Passed
| Failed (errmsg : string).

Definition passed (v : verdict) : bool :=
  match v with Passed => true | Failed _ => false end.

(** [add_confidential_output_info]: returns the verdict with the output and
    the info record as the function leaves them.  [None] is a failed
    [JADE_ASSERT]. *)
Definition add_confidential_output_info (commitments : commitment_t)
    (txoutput : wally_tx_output) (outinfo : output_info_t)
  : option (verdict * wally_tx_output * output_info_t) :=
  match value_prefix txoutput with
  | None => None
  | Some v0 =>
    if v0 =? 1 then None else
    if negb (have_commitments commitments) then
      Some (Failed "Missing commitments data for blinded output"%string, txoutput, outinfo)
    else
    (* 1. Copy the 'trusted' commitments into the tx so we sign over them *)
    if negb (List.length (tx_asset txoutput) =? ASSET_GENERATOR_LEN)%nat then
      Some (Failed "Failed to update tx asset_generator from commitments data"%string,
            txoutput, outinfo)
    else
    let txoutput :=
      {| script := script txoutput;
         tx_asset := firstn ASSET_GENERATOR_LEN (asset_generator commitments);
         tx_value := tx_value txoutput |} in
    if negb (List.length (tx_value txoutput) =? ASSET_COMMITMENT_LEN)%nat then
      Some (Failed "Failed to update tx value_commitment from commitments data"%string,
            txoutput, outinfo)
    else
    let txoutput :=
      {| script := script txoutput;
         tx_asset := tx_asset txoutput;
         tx_value := firstn ASSET_COMMITMENT_LEN (value_commitment commitments) |} in
    (* 2. Fetch the asset_id, value, and blinding_key into the info struct *)
    let outinfo :=
      {| is_confidential := is_confidential outinfo;
         oi_asset_id := asset_id commitments;
         oi_value := value commitments;
         oi_blinding_key := blinding_key commitments |} in
    Some (Passed, txoutput, outinfo)
  end.

Section Verifier.
Context {crypto : Crypto}.

(** The blob the trusted-commitment HMAC is computed over. *)
Definition signed_blob (commitments : commitment_t) : bytes :=
  firstn ASSET_GENERATOR_LEN (asset_generator commitments)
  ++ firstn ASSET_COMMITMENT_LEN (value_commitment commitments)
  ++ firstn ASSET_TAG_LEN (asset_id commitments)
  ++ uint64_bytes (value commitments).

(** First block of [check_trusted_commitment_valid]: the generator
    recomputed from the asset blinding factor, when both primitives
    succeed. *)
Definition recompute_generator (hash_prevouts : bytes) (idx : Z) (commitments : commitment_t)
  : option bytes :=
  match wallet_get_blinding_factor hash_prevouts idx ASSET_BLINDING_FACTOR with
  | None => None
  | Some bf_tmp_buffer =>
      wally_asset_generator_from_bytes (asset_id commitments) bf_tmp_buffer
  end.

(** Second block: the value commitment recomputed from the value blinding
    factor and the generator just computed. *)
Definition recompute_commitment (hash_prevouts : bytes) (idx : Z) (commitments : commitment_t)
    (generator_tmp : bytes) : option bytes :=
  match wallet_get_blinding_factor hash_prevouts idx VALUE_BLINDING_FACTOR with
  | None => None
  | Some bf_tmp_buffer =>
      wally_asset_value_commitment (value commitments) bf_tmp_buffer generator_tmp
  end.

(** Last block: recompute and compare the HMAC. *)
Definition check_hmac (commitments : commitment_t) : verdict :=
  match wallet_hmac_with_master_key (signed_blob commitments) with
  | None => Failed "Failed to verify hmac from commitments data"%string
  | Some our_hmac =>
      if negb (sodium_memcmp our_hmac (hmac commitments) HMAC_SHA256_LEN =? 0)
      then Failed "Failed to verify hmac from commitments data"%string
      else Passed
  end.

(** [check_trusted_commitment_valid]: the verdict and the value left in
    [*found_odd_vbf].  [None] is a failed [JADE_ASSERT]. *)
Definition check_trusted_commitment_valid (hash_prevouts : bytes) (hash_prevouts_len : nat)
    (idx : Z) (txoutput : wally_tx_output) (commitments : commitment_t)
    (found_odd_vbf : bool) : option (verdict * bool) :=
  if negb (hash_prevouts_len =? SHA256_LEN)%nat then None else
  if idx <? 0 then None else
  match value_prefix txoutput with
  | None => None
  | Some v0 =>
    if v0 =? 1 then None else
    (* Check the abf: ALL abfs MUST be correct. *)
    match recompute_generator hash_prevouts idx commitments with
    | None =>
        Some (Failed "Failed to verify asset_generator from commitments data"%string, found_odd_vbf)
    | Some generator_tmp =>
      if negb (sodium_memcmp (asset_generator commitments) generator_tmp
                 ASSET_GENERATOR_LEN =? 0)
         || negb (sodium_memcmp (tx_asset txoutput) generator_tmp ASSET_GENERATOR_LEN =? 0)
      then
        Some (Failed "Failed to verify asset_generator from commitments data"%string, found_odd_vbf)
      else
      (* check the vbf. *)
      match recompute_commitment hash_prevouts idx commitments generator_tmp with
      | None =>
          Some (Failed "Failed to verify value_commitment from commitments data"%string,
                found_odd_vbf)
      | Some commitment_tmp =>
        (* here we allow AT MOST one vbf/value-commitment to be "unexpected" *)
        let mismatch :=
          negb (sodium_memcmp (value_commitment commitments) commitment_tmp
                  ASSET_COMMITMENT_LEN =? 0)
          || negb (sodium_memcmp (tx_value txoutput) commitment_tmp
                     ASSET_COMMITMENT_LEN =? 0) in
        (* re-compute and check hmac of the provided trusted commitment *)
        let rest (found_odd_vbf : bool) := Some (check_hmac commitments, found_odd_vbf) in
        if mismatch then
          if negb found_odd_vbf then
            (* Record seeing odd vbf *)
            rest true
          else
            (* Error on subsequent *)
            Some (Failed "Failed to verify value_commitment from commitments data"%string,
                  found_odd_vbf)
        else rest found_odd_vbf
      end
    end
  end.

End Verifier.

(** ** Vocabulary for the statements about the commitment checks *)

(** Little-endian bytes: the [n] low-order bytes of [v], least significant
    first, and the number a sequence of bytes stands for. *)
Fixpoint le_bytes (n : nat) (v : Z) : bytes :=
  match n with
  | O => []
  | S n => v mod 256 :: le_bytes n (v / 256)
  end.

Fixpoint le_decode (b : bytes) : Z :=
  match b with
  | [] => 0
  | x :: b => x + 256 * le_decode b
  end.

Section VerifierVocabulary.
Context {crypto : Crypto}.

(** The assertions at the top of [check_trusted_commitment_valid] hold. *)
Definition well_called (hash_prevouts_len : nat) (idx : Z) (txoutput : wally_tx_output)
  : Prop :=
  hash_prevouts_len = SHA256_LEN /\ 0 <= idx
  /\ exists v0, value_prefix txoutput = Some v0 /\ v0 <> 1.

(** The recomputed generator agrees with the trusted record and with the
    transaction output on their first [ASSET_GENERATOR_LEN] bytes. *)
Definition generator_agrees (generator_tmp : bytes) (txoutput : wally_tx_output)
    (commitments : commitment_t) : Prop :=
  firstn ASSET_GENERATOR_LEN (asset_generator commitments)
  = firstn ASSET_GENERATOR_LEN generator_tmp
  /\ firstn ASSET_GENERATOR_LEN (tx_asset txoutput)
     = firstn ASSET_GENERATOR_LEN generator_tmp.


(** An output has a value-commitment mismatch: a value commitment can be
    recomputed for it and differs from a stored one. *)
Definition value_commitment_mismatch (hash_prevouts : bytes) (idx : Z)
    (txoutput : wally_tx_output) (commitments : commitment_t) : bool :=
  match recompute_generator hash_prevouts idx commitments with
  | None => false
  | Some generator_tmp =>
      match recompute_commitment hash_prevouts idx commitments generator_tmp with
      | None => false
      | Some commitment_tmp =>
          negb (bytes_eqb (firstn ASSET_COMMITMENT_LEN (value_commitment commitments))
                          (firstn ASSET_COMMITMENT_LEN commitment_tmp))
          || negb (bytes_eqb (firstn ASSET_COMMITMENT_LEN (tx_value txoutput))
                             (firstn ASSET_COMMITMENT_LEN commitment_tmp))
      end
  end.

(** Everything [check_trusted_commitment_valid] checks apart from the
    equality of the value commitments passes for an output. *)
Definition other_checks_pass (hash_prevouts : bytes) (idx : Z)
    (txoutput : wally_tx_output) (commitments : commitment_t) : bool :=
  match recompute_generator hash_prevouts idx commitments with
  | None => false
  | Some generator_tmp =>
      bytes_eqb (firstn ASSET_GENERATOR_LEN (asset_generator commitments))
                (firstn ASSET_GENERATOR_LEN generator_tmp)
      && bytes_eqb (firstn ASSET_GENERATOR_LEN (tx_asset txoutput))
                   (firstn ASSET_GENERATOR_LEN generator_tmp)
      && match recompute_commitment hash_prevouts idx commitments generator_tmp with
         | None => false
         | Some _ => passed (check_hmac commitments)
         end
  end.

(** An output the verification loop does not skip. *)
Definition is_blinded (txoutput : wally_tx_output) : bool :=
  match value_prefix txoutput with
  | Some v0 => negb (v0 =? 1)
  | None => false
  end.

(** The number of blinded outputs with a value-commitment mismatch among
    [outs], which are the outputs [i], [i+1], ... of the transaction, each
    checked against the trusted record of the same index. *)
Fixpoint count_mismatches (hash_prevouts : bytes) (i : nat)
    (outs : list wally_tx_output) (commitments : list commitment_t) : nat :=
  match outs with
  | [] => O
  | txoutput :: outs =>
      (match nth_error commitments i with
       | Some commitment =>
           if is_blinded txoutput
              && value_commitment_mismatch hash_prevouts (Z.of_nat i) txoutput commitment
           then 1 else 0
       | None => 0
       end
       + count_mismatches hash_prevouts (S i) outs commitments)%nat
  end.

(** Every output has a non-NULL value, and every blinded one has a trusted
    record and passes the checks other than the equality of the value
    commitments. *)
Fixpoint others_pass (hash_prevouts : bytes) (i : nat)
    (outs : list wally_tx_output) (commitments : list commitment_t) : bool :=
  match outs with
  | [] => true
  | txoutput :: outs =>
      match value_prefix txoutput with
      | None => false
      | Some v0 =>
          ((v0 =? 1)
           || match nth_error commitments i with
              | Some commitment =>
                  other_checks_pass hash_prevouts (Z.of_nat i) txoutput commitment
              | None => false
              end)
          && others_pass hash_prevouts (S i) outs commitments
      end
  end.

End VerifierVocabulary.

End Commitments.

(* ------------------------------------------------------------------ *)
(** * main/process/sign_liquid_tx.c: [sign_liquid_tx_process] *)
(* ------------------------------------------------------------------ *)

Module SignLiquidTx.
Import Network Commitments.

(** Error codes of [cbor_rpc.h]; [CBOR_RPC_OTHER] stands for any code the
    macros of [process_utils.h] may use besides the four named in this
    file. *)
Inductive rpc_error : Type :=
| CBOR_RPC_BAD_PARAMETERS
| CBOR_RPC_INTERNAL_ERROR
| CBOR_RPC_USER_CANCELLED
| CBOR_RPC_PROTOCOL_ERROR
| CBOR_RPC_OTHER (code : Z).

(** [script_flavour_t] of [sign_tx.c]: this file names only the two ends. *)
Inductive script_flavour_t : Type :=
| SCRIPT_FLAVOUR_NONE
| SCRIPT_FLAVOUR_OF_KIND (kind : Z)
| SCRIPT_FLAVOUR_MIXED.

Definition is_mixed (f : script_flavour_t) : bool :=
  match f with SCRIPT_FLAVOUR_MIXED => true | _ => false end.

(** The decoded parameters of the opening message.  A field is [None] when
    the [rpc_get_*] call for it fails. *)
Record sign_request : Type := {
  req_method : string;
  req_id : string;
  req_source : Z;
  req_network : option string;
  req_txn : option bytes;
  req_num_inputs : option Z;
  req_trusted_commitments : list commitment_t;
  req_use_ae_signatures : option bool;
  req_change : option (list bytes)
}.

(** A later message from the host, with the parameters a ["tx_input"]
    message may carry.  [in_path] is [None] when [rpc_has_field_data] is
    false and [Some None] when the field is there but
    [rpc_get_bip32_path] fails. *)
Record in_message : Type := {
  in_method : string;
  in_id : string;
  in_is_witness : option bool;
  in_path : option (option (list Z));
  in_ae_host_commitment : option bytes;
  in_script : option bytes;
  in_value_commitment : option bytes
}.

(** [signing_data_t]; [path_len] is the length of [path]. *)
Record signing_data_t : Type := {
  id : string;
  path : list Z;
  signature_hash : bytes
}.

Definition signing_data_zero : signing_data_t :=
  {| id := EmptyString; path := []; signature_hash := repeat 0 SHA256_LEN |}.

(** What the two waits on the GUI deliver: the return value and the event
    id written to [ev_id]. *)
Record ui_events : Type := {
  outputs_ret : Z;
  outputs_ev_id : Z;
  fee_ret : bool;
  fee_ev_id : Z
}.

Definition ESP_OK : Z := 0.

(** Everything the process calls that is defined elsewhere. *)
Class Externals : Type := {
  (** The macro [CHECK_NETWORK_CONSISTENT]: [Some (code, message)] when it
      rejects the message and jumps to [cleanup]. *)
  CHECK_NETWORK_CONSISTENT : option string -> option (rpc_error * string);
  wally_tx_from_bytes : bytes -> option wally_tx;
  wally_tx_confidential_value_to_satoshi : bytes -> option Z;
  validate_change_paths :
    option string -> wally_tx -> list bytes -> list output_info_t
    -> verdict * list output_info_t;
  get_script_flavour : bytes -> script_flavour_t;
  update_aggregate_scripts_flavour : script_flavour_t -> script_flavour_t -> script_flavour_t;
  wallet_get_elements_tx_input_hash :
    wally_tx -> nat -> bool -> bytes -> option bytes -> option bytes;
  wallet_get_signer_commitment : bytes -> list Z -> bytes -> option bytes;
  (** Return codes of the [mbedtls_sha256_*_ret] calls, given the bytes
      absorbed so far. *)
  mbedtls_sha256_starts_ret : Z;
  mbedtls_sha256_update_ret : bytes -> bytes -> Z;
  mbedtls_sha256_finish_ret : bytes -> Z;
  SIGN_TX_ACCEPT_OUTPUTS : Z;
  BTN_ACCEPT_SIGNATURE : Z;
  WARN_MSG_MIXED_INPUTS : string
}.

(** What the process does that the host or the user can observe.  A reply
    or rejection carries the id of the message it answers (the current
    message of the process context). *)
Inductive action : Type :=
| Reject (on : string) (code : rpc_error) (message : string)
| ReplyOk (on : string)
| ReplyBytes (on : string) (data : bytes)
| LoadInMessage (m : in_message)
| DisplayOutputs (network : option string) (tx : wally_tx) (output_info : list output_info_t)
| DisplayFinalConfirmation (fees : Z) (warning_msg : option string)
| DisplayMessage (text : string)
| SendAeSignatureReplies (all_signing_data : list signing_data_t) (num_inputs : Z)
| SendEcSignatureReplies (source : Z) (all_signing_data : list signing_data_t) (num_inputs : Z).

(** The process context: the messages the host has sent and the process has
    not loaded yet, the id of the current message, and what was done so
    far. *)
Record pstate : Type := {
  inbox : list in_message;
  current : string;
  trace : list action
}.

(** How a piece of the process ends: it falls through with a value, jumps
    to [cleanup], waits for a message that never comes, or dies on a failed
    assertion or a read out of bounds. *)
Inductive result (A : Type) : Type :=
| Ret (a : A)
| Cleanup
| Blocked
| Abort.
Arguments Ret {A} a.
Arguments Cleanup {A}.
Arguments Blocked {A}.
Arguments Abort {A}.

Definition M (A : Type) : Type := pstate -> result A * pstate.

Definition ret {A : Type} (a : A) : M A := fun s => (Ret a, s).

Definition bind {A B : Type} (m : M A) (k : A -> M B) : M B :=
  fun s =>
    match m s with
    | (Ret a, s) => k a s
    | (Cleanup, s) => (Cleanup, s)
    | (Blocked, s) => (Blocked, s)
    | (Abort, s) => (Abort, s)
    end.

Notation "x <- m ;; k" := (bind m (fun x => k))
  (at level 61, m at next level, right associativity).
Notation "m ;;; k" := (bind m (fun _ => k))
  (at level 61, right associativity).

Definition emit (a : action) : M unit :=
  fun s => (Ret tt, {| inbox := inbox s; current := current s; trace := trace s ++ [a] |}).

Definition goto_cleanup {A : Type} : M A := fun s => (Cleanup, s).
Definition abort {A : Type} : M A := fun s => (Abort, s).

Definition JADE_ASSERT (b : bool) : M unit := if b then ret tt else abort.

Definition get_current : M string := fun s => (Ret (current s), s).

(** [jade_process_reject_message(process, code, message, NULL); goto cleanup;] *)
Definition reject {A : Type} (code : rpc_error) (message : string) : M A :=
  on <- get_current ;; emit (Reject on code message) ;;; goto_cleanup.

Definition jade_process_reply_to_message_ok : M unit :=
  on <- get_current ;; emit (ReplyOk on).

Definition jade_process_reply_to_message_bytes (data : bytes) : M unit :=
  on <- get_current ;; emit (ReplyBytes on data).

(** [jade_process_load_in_message(process, true)]: blocks until the next
    message of the host is there and makes it the current message. *)
Definition jade_process_load_in_message : M in_message :=
  fun s =>
    match inbox s with
    | [] => (Blocked, s)
    | m :: rest =>
        (Ret m, {| inbox := rest; current := in_id m; trace := trace s ++ [LoadInMessage m] |})
    end.

(** [a[i] = x] on an array held as a list. *)
Fixpoint store {A : Type} (i : nat) (x : A) (a : list A) : list A :=
  match a, i with
  | [], _ => []
  | _ :: a, O => x :: a
  | y :: a, S i => y :: store i x a
  end.

(** [a[i]]; reading out of bounds kills the process. *)
Definition load {A : Type} (a : list A) (i : nat) : M A :=
  match nth_error a i with
  | Some x => ret x
  | None => abort
  end.

Definition uint64_add (a b : Z) : Z := (a + b) mod 2 ^ 64.

Definition set_outputs (tx : wally_tx) (outs : list wally_tx_output) : wally_tx :=
  {| inputs := inputs tx; outputs := outs |}.

Definition BAD := CBOR_RPC_BAD_PARAMETERS.
Definition INTERNAL := CBOR_RPC_INTERNAL_ERROR.

(** The locals that live across iterations of the input loop. *)
Record input_state : Type := {
  hash_prevout_sha_ctx : bytes;   (* the bytes absorbed by the SHA-256 context *)
  all_signing_data : list signing_data_t;
  aggregate_inputs_scripts_flavour : script_flavour_t
}.

(** The locals an iteration fills in while it reads the path-only fields. *)
Record path_fields : Type := {
  sig_data : signing_data_t;
  script_ptr : option bytes;
  ae_host_commitment : option bytes;
  flavour : script_flavour_t
}.

Section Process.
Context {tags : Tags} {crypto : Crypto} {ext : Externals}.

(** The loop [for (i = 0; i < tx->num_outputs; ++i)] that fills
    [output_info], overwrites the confidential outputs of [tx] and adds up
    [fees]; [n] iterations are left and the next one is [i]. *)
Fixpoint populate_output_info (n i : nat) (tx : wally_tx) (commitments : list commitment_t)
    (output_info : list output_info_t) (fees : Z)
  : M (wally_tx * list output_info_t * Z) :=
  match n with
  | O => ret (tx, output_info, fees)
  | S n =>
    txoutput <- load (outputs tx) i ;;
    outinfo <- load output_info i ;;
    match value_prefix txoutput with
    | None => abort
    | Some v0 =>
      if v0 =? 1 then
        (* unconfidential, take directly from the tx *)
        let outinfo :=
          {| is_confidential := false;
             oi_asset_id := firstn 32 (skipn 1 (tx_asset txoutput));
             oi_value :=
               match wally_tx_confidential_value_to_satoshi (tx_value txoutput) with
               | Some satoshi => satoshi
               | None => oi_value outinfo
               end;
             oi_blinding_key := oi_blinding_key outinfo |} in
        (* fees can only be unconfidential *)
        let fees :=
          match script txoutput with
          | None => uint64_add fees (oi_value outinfo)
          | Some _ => fees
          end in
        populate_output_info n (S i) tx commitments (store i outinfo output_info) fees
      else
        (* confidential, use the trusted_commitments *)
        let outinfo :=
          {| is_confidential := true;
             oi_asset_id := oi_asset_id outinfo;
             oi_value := oi_value outinfo;
             oi_blinding_key := oi_blinding_key outinfo |} in
        commitment <- load commitments i ;;
        match add_confidential_output_info commitment txoutput outinfo with
        | None => abort
        | Some (Failed errmsg, _, _) => reject BAD errmsg
        | Some (Passed, txoutput, outinfo) =>
            populate_output_info n (S i)
              (set_outputs tx (store i txoutput (outputs tx))) commitments
              (store i outinfo output_info) fees
        end
    end
  end.

(** The block [if (has_path) { ... }] of one iteration. *)
Definition read_path_fields (m : in_message) (use_ae_signatures : bool)
    (sig_data : signing_data_t) (aggregate : script_flavour_t) : M path_fields :=
  match in_path m with
  | None =>
      ret {| sig_data := sig_data; script_ptr := None; ae_host_commitment := None;
             flavour := aggregate |}
  | Some None | Some (Some []) =>
      reject BAD "Failed to extract valid path from parameters"%string
  | Some (Some p) =>
      let sig_data :=
        {| id := id sig_data; path := p; signature_hash := signature_hash sig_data |} in
      (* If required, read anti-exfil host commitment data *)
      ae <- (if use_ae_signatures then
               match in_ae_host_commitment m with
               | None =>
                   reject BAD "Failed to extract valid host commitment from parameters"%string
               | Some c =>
                   if negb (List.length c =? WALLY_HOST_COMMITMENT_LEN)%nat then
                     reject BAD "Failed to extract valid host commitment from parameters"%string
                   else ret (Some c)
               end
             else ret None) ;;
      (* Get prevout script - required for signing inputs *)
      match in_script m with
      | None | Some [] => reject BAD "Failed to extract script from parameters"%string
      | Some script =>
          (* Track the types of the input prevout scripts *)
          ret {| sig_data := sig_data; script_ptr := Some script; ae_host_commitment := ae;
                 flavour := update_aggregate_scripts_flavour
                              (get_script_flavour script) aggregate |}
      end
  end.

(** What one iteration feeds to the prevout hash for the input it is at. *)
Definition prevout_bytes (input : wally_tx_input) : bytes :=
  firstn WALLY_TXHASH_LEN (txhash input) ++ value_to_le (index input).

(** [update hash_prevouts with the current output being spent] *)
Definition update_hash_prevouts (ctx : bytes) (input : wally_tx_input) : M bytes :=
  let index_little_endian := value_to_le (index input) in
  if negb (mbedtls_sha256_update_ret ctx (firstn WALLY_TXHASH_LEN (txhash input)) =? 0) then
    reject INTERNAL "Failed to build prevout hash"%string
  else
    let ctx := ctx ++ firstn WALLY_TXHASH_LEN (txhash input) in
    if negb (mbedtls_sha256_update_ret ctx index_little_endian =? 0) then
      reject INTERNAL "Failed to build prevout hash"%string
    else ret (ctx ++ index_little_endian).

(** The block [if (has_path && is_witness) { ... }]: the value commitment
    handed on, [None] for the NULL pointer. *)
Definition read_value_commitment (m : in_message) (has_path is_witness : bool)
  : M (option bytes) :=
  if has_path && is_witness then
    let value_len := match in_value_commitment m with Some c => List.length c | None => O end in
    if negb (value_len =? ASSET_COMMITMENT_LEN)%nat then
      reject BAD "Failed to extract value commitment from parameters"%string
    else ret (in_value_commitment m)
  else ret None.

(** The block [if (has_path) { ... } else { ... }] that makes the signature
    hash and, with anti-exfil signatures, the signer commitment.  Returns
    the record and the content of [ae_signer_commitment]. *)
Definition make_signature_hash (tx : wally_tx) (index : nat) (is_witness : bool)
    (use_ae_signatures : bool) (f : path_fields) (value_commitment : option bytes)
  : M (signing_data_t * bytes) :=
  match script_ptr f with
  | Some script =>
      JADE_ASSERT (negb (List.length script =? 0)%nat) ;;;
      JADE_ASSERT (negb (List.length (path (sig_data f)) =? 0)%nat) ;;;
      (* Generate hash of this input which we will sign later *)
      match wallet_get_elements_tx_input_hash tx index is_witness script value_commitment with
      | None => reject INTERNAL "Failed to make tx input hash"%string
      | Some hash =>
          let sig_data :=
            {| id := id (sig_data f); path := path (sig_data f); signature_hash := hash |} in
          if use_ae_signatures then
            match ae_host_commitment f with
            | None => abort
            | Some host_commitment =>
                JADE_ASSERT (List.length host_commitment =? WALLY_HOST_COMMITMENT_LEN)%nat ;;;
                match wallet_get_signer_commitment hash (path sig_data) host_commitment with
                | None => reject INTERNAL "Failed to make ae signer commitment"%string
                | Some ae_signer_commitment => ret (sig_data, ae_signer_commitment)
                end
            end
          else ret (sig_data, [])
      end
  | None =>
      (* Empty byte-string reply (no path given implies no sig needed or expected) *)
      JADE_ASSERT (List.length (path (sig_data f)) =? 0)%nat ;;;
      ret (sig_data f, [])
  end.

(** The body of the loop [for (index = 0; index < num_inputs; ++index)]
    once the message is known to be a ["tx_input"].  The record
    [all_signing_data[index]] is written back once, at the end: an iteration
    that rejects leaves nothing that is looked at again. *)
Definition handle_tx_input (tx : wally_tx) (use_ae_signatures : bool) (index : nat)
    (st : input_state) (m : in_message) : M input_state :=
  (* txn input as expected - get input parameters *)
  sig_data <- load (all_signing_data st) index ;;
  let sig_data :=
    {| id := in_id m; path := path sig_data; signature_hash := signature_hash sig_data |} in
  JADE_ASSERT (negb (in_id m =? "")%string) ;;;
  match in_is_witness m with
  | None => reject BAD "Failed to extract is_witness from parameters"%string
  | Some is_witness =>
      let has_path := match in_path m with Some _ => true | None => false end in
      f <- read_path_fields m use_ae_signatures sig_data
             (aggregate_inputs_scripts_flavour st) ;;
      input <- load (inputs tx) index ;;
      ctx <- update_hash_prevouts (hash_prevout_sha_ctx st) input ;;
      value_commitment <- read_value_commitment m has_path is_witness ;;
      signed <- make_signature_hash tx index is_witness use_ae_signatures f
                  value_commitment ;;
      let '(sig_data, ae_signer_commitment) := signed in
      (* If using ae-signatures, reply with the signer commitment *)
      (if use_ae_signatures then
         jade_process_reply_to_message_bytes
           (if has_path then firstn WALLY_S2C_OPENING_LEN ae_signer_commitment else [])
       else ret tt) ;;;
      ret {| hash_prevout_sha_ctx := ctx;
             all_signing_data := store index sig_data (all_signing_data st);
             aggregate_inputs_scripts_flavour := flavour f |}
  end.

(** One iteration of the loop. *)
Definition stream_input (tx : wally_tx) (use_ae_signatures : bool) (index : nat)
    (st : input_state) : M input_state :=
  m <- jade_process_load_in_message ;;
  if negb (in_method m =? "tx_input")%string then
    (* Protocol error *)
    reject CBOR_RPC_PROTOCOL_ERROR "Unexpected message, expecting 'tx_input'"%string
  else handle_tx_input tx use_ae_signatures index st m.

Fixpoint stream_inputs (n index : nat) (tx : wally_tx) (use_ae_signatures : bool)
    (st : input_state) : M input_state :=
  match n with
  | O => ret st
  | S n =>
      st <- stream_input tx use_ae_signatures index st ;;
      stream_inputs n (S index) tx use_ae_signatures st
  end.

(** The loop that runs [check_trusted_commitment_valid] over the blinded
    outputs; returns the final [found_odd_vbf]. *)
Fixpoint check_commitments (n i : nat) (tx : wally_tx) (commitments : list commitment_t)
    (hash_prevouts_double : bytes) (found_odd_vbf : bool) : M bool :=
  match n with
  | O => ret found_odd_vbf
  | S n =>
    txoutput <- load (outputs tx) i ;;
    match value_prefix txoutput with
    | None => abort
    | Some v0 =>
      if v0 =? 1 then
        (* unblinded prefix, continue *)
        check_commitments n (S i) tx commitments hash_prevouts_double found_odd_vbf
      else
        commitment <- load commitments i ;;
        match check_trusted_commitment_valid hash_prevouts_double SHA256_LEN (Z.of_nat i)
                txoutput commitment found_odd_vbf with
        | None => abort
        | Some (Failed errmsg, _) => reject BAD errmsg
        | Some (Passed, found_odd_vbf) =>
            check_commitments n (S i) tx commitments hash_prevouts_double found_odd_vbf
        end
    end
  end.

(** What the parsing stage hands on. *)
Record parsed : Type := {
  network : option string;
  tx : wally_tx;
  num_inputs : Z;
  commitments : list commitment_t;
  output_info : list output_info_t;
  use_ae_signatures : bool
}.

(** From the top of the function to the start of the prevout hash. *)
Definition parse_request (req : sign_request) : M parsed :=
  (* We expect a current message to be present *)
  JADE_ASSERT (req_method req =? "sign_liquid_tx")%string ;;;
  (* Check network is valid and consistent with prior usage *)
  let network := req_network req in
  match CHECK_NETWORK_CONSISTENT network with
  | Some (code, message) => reject code message
  | None =>
  match isLiquidNetwork network with
  | None => abort
  | Some false =>
      reject BAD "sign_liquid_tx call only appropriate for liquid network"%string
  | Some true =>
  match req_txn req with
  | None | Some [] => reject BAD "Failed to extract txn from parameters"%string
  | Some txbytes =>
  match wally_tx_from_bytes txbytes with
  | None => reject BAD "Failed to extract tx from passed bytes"%string
  | Some tx =>
  (* copy the amount *)
  match req_num_inputs req with
  | None => reject BAD "Failed to extract valid number of inputs from parameters"%string
  | Some num_inputs =>
  if num_inputs =? 0 then
    reject BAD "Failed to extract valid number of inputs from parameters"%string
  else
  (* Check the number of inputs the client wants to send is what we
     would expect for the given transaction.  Fail if not. *)
  if negb (num_inputs =? num_inputs_of tx) then
    reject BAD "Unexpected number of inputs for transaction"%string
  else
  let commitments := req_trusted_commitments req in
  let num_commitments := Z.of_nat (List.length commitments) in
  if num_commitments =? 0 then
    reject BAD "Failed to extract trusted commitments from parameters"%string
  else
  (* Check the trusted commitments: expect one element in the array for each output. *)
  if negb (num_commitments =? num_outputs_of tx) then
    reject BAD "Unexpected number of trusted commitments for transaction"%string
  else
  let output_info := repeat output_info_zero (List.length (outputs tx)) in
  (* Optional flag, defaults to false *)
  let use_ae_signatures :=
    match req_use_ae_signatures req with Some b => b | None => false end in
  (* Can optionally be passed paths for change outputs, which we verify internally *)
  output_info <-
    match req_change req with
    | None => ret output_info
    | Some change =>
        match validate_change_paths network tx change output_info with
        | (Failed errmsg, _) => reject BAD errmsg
        | (Passed, output_info) => ret output_info
        end
    end ;;
  (* Prepare a hash to compute hash_prevout *)
  if negb (mbedtls_sha256_starts_ret =? 0) then
    reject INTERNAL "Failed to initialise prevout hash"%string
  else
    ret {| network := network; tx := tx; num_inputs := num_inputs;
           commitments := commitments; output_info := output_info;
           use_ae_signatures := use_ae_signatures |}
  end end end end end.

(** The finalized prevout hash: [mbedtls_sha256_finish_ret], then the second
    round by [wally_sha256]. *)
Definition finalize_hash_prevouts (ctx : bytes) : M bytes :=
  if negb (mbedtls_sha256_finish_ret ctx =? 0) then
    reject INTERNAL "Failed to compute prevout hash"%string
  else
    let hash_prevouts_single := SHA256 ctx in
    (* BIP143 says to do a double sha *)
    ret (SHA256 hash_prevouts_single).

(** The first checkpoint: the wait on the outputs screen, and the
    acknowledgement that lets the host start sending inputs. *)
Definition confirm_outputs (ui : ui_events) : M unit :=
  (* Check to see whether user accepted or declined *)
  if negb (outputs_ret ui =? ESP_OK) || negb (outputs_ev_id ui =? SIGN_TX_ACCEPT_OUTPUTS) then
    reject CBOR_RPC_USER_CANCELLED "User declined to sign transaction"%string
  else
    emit (DisplayMessage "Processing..."%string) ;;;
    (* Send ok - client should send inputs *)
    jade_process_reply_to_message_ok.

(** The second checkpoint: the wait on the final confirmation screen. *)
Definition confirm_fee (ui : ui_events) (use_ae_signatures : bool) : M unit :=
  (* If user cancels we'll send the 'cancelled' error response for the last input message only *)
  if negb (fee_ret ui) || negb (fee_ev_id ui =? BTN_ACCEPT_SIGNATURE) then
    (* If using ae-signatures, we need to load the message to send the error back on *)
    (if use_ae_signatures then jade_process_load_in_message ;;; ret tt else ret tt) ;;;
    reject CBOR_RPC_USER_CANCELLED "User declined to sign transaction"%string
  else
    emit (DisplayMessage "Processing..."%string).

(** Send signature replies. *)
Definition send_signature_replies (req : sign_request) (p : parsed) (st : input_state)
  : M unit :=
  if use_ae_signatures p then
    (* Generate and send Anti-Exfil signature replies *)
    emit (SendAeSignatureReplies (all_signing_data st) (num_inputs p))
  else
    (* Generate and send standard EC signature replies *)
    emit (SendEcSignatureReplies (req_source req) (all_signing_data st) (num_inputs p)).

Definition initial_input_state (num_inputs : Z) : input_state :=
  {| hash_prevout_sha_ctx := [];
     all_signing_data := repeat signing_data_zero (Z.to_nat num_inputs);
     aggregate_inputs_scripts_flavour := SCRIPT_FLAVOUR_NONE |}.

Definition warning_for (aggregate : script_flavour_t) : option string :=
  if is_mixed aggregate then Some WARN_MSG_MIXED_INPUTS else None.

Definition sign_liquid_tx_process (req : sign_request) (ui : ui_events) : M unit :=
  p <- parse_request req ;;
  (* save fees for the final confirmation screen *)
  populated <- populate_output_info (List.length (outputs (tx p))) 0 (tx p) (commitments p)
                 (output_info p) 0 ;;
  let '(tx, output_info, fees) := populated in
  emit (DisplayOutputs (network p) tx output_info) ;;;
  confirm_outputs ui ;;;
  (* Run through each input message and generate a signature for each one *)
  st <- stream_inputs (Z.to_nat (num_inputs p)) 0 tx (use_ae_signatures p)
          (initial_input_state (num_inputs p)) ;;
  (* Finalize the hash_prevout hash *)
  hash_prevouts_double <- finalize_hash_prevouts (hash_prevout_sha_ctx st) ;;
  (* Allow at most one unexpected vbf/value_commitment *)
  check_commitments (List.length (outputs tx)) 0 tx (commitments p) hash_prevouts_double
    false ;;;
  emit (DisplayFinalConfirmation fees
          (warning_for (aggregate_inputs_scripts_flavour st))) ;;;
  confirm_fee ui (use_ae_signatures p) ;;;
  send_signature_replies req p st.

(** The context at the start of a session: the opening message is the
    current message, nothing has been done yet, and [host] is what the host
    sends afterwards. *)
Definition initial_pstate (req : sign_request) (host : list in_message) : pstate :=
  {| inbox := host; current := req_id req; trace := [] |}.

Definition session (req : sign_request) (ui : ui_events) (host : list in_message)
  : result unit * pstate :=
  sign_liquid_tx_process req ui (initial_pstate req host).

End Process.

(** ** Vocabulary for the statements about the process *)

Definition is_signature_reply (a : action) : bool :=
  match a with
  | SendAeSignatureReplies _ _ | SendEcSignatureReplies _ _ _ => true
  | _ => false
  end.

Definition is_final_confirmation (a : action) : bool :=
  match a with DisplayFinalConfirmation _ _ => true | _ => false end.

(** Neither the final confirmation screen nor a signature reply. *)
Definition quiet (a : action) : bool :=
  negb (is_signature_reply a) && negb (is_final_confirmation a).

Definition is_protocol_error (a : action) : bool :=
  match a with Reject _ CBOR_RPC_PROTOCOL_ERROR _ => true | _ => false end.

Definition not_protocol_error (a : action) : bool := negb (is_protocol_error a).

(** What was done after the final confirmation screen was put up. *)
Fixpoint after_final_confirmation (t : list action) : list action :=
  match t with
  | [] => []
  | a :: t => if is_final_confirmation a then t else after_final_confirmation t
  end.

(** The messages a stretch of the trace loaded, in order. *)
Definition loaded (t : list action) : list in_message :=
  flat_map (fun a => match a with LoadInMessage m => [m] | _ => [] end) t.

Definition add_trace (s : pstate) (t : list action) : pstate :=
  {| inbox := inbox s; current := current s; trace := trace s ++ t |}.

(** The context right after [m] was loaded from an inbox [m :: rest]. *)
Definition after_load (s : pstate) (m : in_message) (rest : list in_message) : pstate :=
  {| inbox := rest; current := in_id m; trace := trace s ++ [LoadInMessage m] |}.

(** What the second checkpoint does when the user declines: with
    anti-exfil signatures it loads the next message of the host and rejects
    that one; otherwise it rejects the current message. *)
Definition declined_fee (use_ae_signatures : bool) (s : pstate) : result unit * pstate :=
  if use_ae_signatures then
    match inbox s with
    | [] => (Blocked, s)
    | m :: rest =>
        (Cleanup,
         add_trace (after_load s m rest)
           [Reject (in_id m) CBOR_RPC_USER_CANCELLED
              "User declined to sign transaction"%string])
    end
  else
    (Cleanup,
     add_trace s [Reject (current s) CBOR_RPC_USER_CANCELLED
                    "User declined to sign transaction"%string]).

(** A reply of any kind: an acknowledgement, a payload or a rejection. *)
Definition is_reply (a : action) : bool :=
  match a with
  | ReplyOk _ | ReplyBytes _ _ | Reject _ _ _ => true
  | _ => false
  end.

(** A piece of the process that neither loads a message nor sends anything
    but the rejection that goes with a jump to [cleanup]. *)
Definition silent {A : Type} (m : M A) : Prop :=
  forall s,
    match m s with
    | (Ret _, s') => s' = s
    | (Cleanup, s') => exists code message, s' = add_trace s [Reject (current s) code message]
    | (Blocked, _) => False
    | (Abort, s') => s' = s
    end.

(** A piece of the process whose actions all satisfy [P]. *)
Definition emits_only (P : action -> bool) {A : Type} (m : M A) : Prop :=
  forall s, exists t consumed,
    trace (snd (m s)) = trace s ++ t /\ forallb P t = true
    /\ inbox s = consumed ++ inbox (snd (m s)).


(** ** The fee total, as the specification words it *)

Section FeeVocabulary.
Context {ext : Externals}.

(** A plaintext output: its value starts with the prefix byte 0x01. *)
Definition is_plaintext (txoutput : wally_tx_output) : bool :=
  match value_prefix txoutput with
  | Some v0 => v0 =? 1
  | None => false
  end.

Definition has_script (txoutput : wally_tx_output) : bool :=
  match script txoutput with Some _ => true | None => false end.

(** The satoshi value of a plaintext output, as the output-info loop
    records it: what [wally_tx_confidential_value_to_satoshi] decodes, the
    record being left as it was when the decoding fails. *)
Definition satoshi_value (txoutput : wally_tx_output) (before : output_info_t) : Z :=
  match wally_tx_confidential_value_to_satoshi (tx_value txoutput) with
  | Some satoshi => satoshi
  | None => oi_value before
  end.

(** An output that counts towards the fee: plaintext and without a
    script. *)
Definition is_fee_output (txoutput : wally_tx_output) : bool :=
  is_plaintext txoutput && negb (has_script txoutput).

(** The sum of the satoshi values of exactly the outputs that are plaintext
    and have no script; [before] holds the info records as they are when the
    output-info loop starts. *)
Definition fee_sum (outs : list wally_tx_output) (before : list output_info_t) : Z :=
  fold_right Z.add 0
    (map (fun ob => satoshi_value (fst ob) (snd ob))
       (filter (fun ob => is_fee_output (fst ob)) (combine outs before))).

(** The info records as the output-info loop finds them: zeroed, then
    possibly touched by [validate_change_paths]. *)
Definition output_info_before (req : sign_request) (tx : wally_tx) : list output_info_t :=
  let zeroed := repeat output_info_zero (List.length (outputs tx)) in
  match req_change req with
  | None => zeroed
  | Some change => snd (validate_change_paths (req_network req) tx change zeroed)
  end.

(** The user accepted at the second checkpoint. *)
Definition fee_accepted (ui : ui_events) : Prop :=
  fee_ret ui = true /\ fee_ev_id ui = BTN_ACCEPT_SIGNATURE.

(** The user accepted at the first checkpoint. *)
Definition outputs_accepted (ui : ui_events) : Prop :=
  outputs_ret ui = ESP_OK /\ outputs_ev_id ui = SIGN_TX_ACCEPT_OUTPUTS.

(** One of the two count checks of the parsing stage fails for the parsed
    transaction [tx]. *)
Definition counts_violated (req : sign_request) (tx : wally_tx) : Prop :=
  match req_num_inputs req with
  | None => True
  | Some n => n = 0 \/ n <> num_inputs_of tx
  end
  \/ Z.of_nat (List.length (req_trusted_commitments req)) <> num_outputs_of tx.

End FeeVocabulary.

End SignLiquidTx.

(* ------------------------------------------------------------------ *)
(** * Stand-ins to run the model on *)
(* ------------------------------------------------------------------ *)

(** The statements below hold for every choice of the collaborators.  To
    run the model on concrete sessions, this module fixes one: arithmetic
    stand-ins for the primitives, small enough to compute with. *)
Module Sample.
Import Network Commitments SignLiquidTx.

Definition sum_bytes (b : bytes) : Z := fold_right Z.add 0 b.

Definition mix (a b : bytes) (k : Z) : bytes :=
  map (fun xy => (fst xy + snd xy + k) mod 256) (combine a b).

Definition model_crypto : Crypto := {|
  wallet_get_blinding_factor h idx ty :=
    Some (repeat ((hd 0 h + idx
                   + match ty with ASSET_BLINDING_FACTOR => 1 | VALUE_BLINDING_FACTOR => 2 end)
                  mod 256) 32);
  wally_asset_generator_from_bytes asset abf := Some (10 :: mix asset abf 0);
  wally_asset_value_commitment value vbf generator := Some (8 :: mix vbf (tl generator) value);
  wallet_hmac_with_master_key blob := Some (repeat (sum_bytes blob mod 256) 32);
  SHA256 data := repeat ((sum_bytes data + Z.of_nat (List.length data)) mod 256) 32
|}.

(** The trusted record an honest host holds for output [idx]. *)
Definition honest_commitment (hash_prevouts : bytes) (idx : Z) (asset : bytes) (v : Z)
  : commitment_t :=
  let abf := repeat ((hd 0 hash_prevouts + idx + 1) mod 256) 32 in
  let vbf := repeat ((hd 0 hash_prevouts + idx + 2) mod 256) 32 in
  let generator := 10 :: mix asset abf 0 in
  let commitment := 8 :: mix vbf (tl generator) v in
  {| have_commitments := true;
     asset_id := asset;
     value := v;
     blinding_key := 2 :: repeat 1 32;
     asset_generator := generator;
     value_commitment := commitment;
     hmac := repeat (sum_bytes (generator ++ commitment ++ asset ++ uint64_bytes v) mod 256) 32
  |}.

(** The same record with another value commitment, its HMAC made over the
    record as it then stands: what the host holds for the output whose
    blinding factor balances the transaction. *)
Definition balancing_commitment (hash_prevouts : bytes) (idx : Z) (asset : bytes) (v : Z)
  : commitment_t :=
  let c := honest_commitment hash_prevouts idx asset v in
  let commitment := 9 :: repeat 5 32 in
  {| have_commitments := true;
     asset_id := asset_id c;
     value := value c;
     blinding_key := blinding_key c;
     asset_generator := asset_generator c;
     value_commitment := commitment;
     hmac := repeat (sum_bytes (asset_generator c ++ commitment ++ asset
                                ++ uint64_bytes v) mod 256) 32
  |}.

(** The record for a plaintext output: all zeros, nothing supplied. *)
Definition no_commitment : commitment_t :=
  {| have_commitments := false; asset_id := repeat 0 32; value := 0;
     blinding_key := repeat 0 33; asset_generator := repeat 0 33;
     value_commitment := repeat 0 33; hmac := repeat 0 32 |}.

Definition lbtc : bytes := repeat 37 32.

(** A blinded output as parsed, a fee output, and a plaintext payment. *)
Definition blinded_output : wally_tx_output :=
  {| script := Some [118; 169]; tx_asset := 11 :: repeat 3 32; tx_value := 9 :: repeat 4 32 |}.
Definition fee_output (satoshi : Z) : wally_tx_output :=
  {| script := None; tx_asset := 1 :: lbtc; tx_value := [1; 0; 0; 0; 0; 0; 0; 0; satoshi] |}.
Definition payment_output (satoshi : Z) : wally_tx_output :=
  {| script := Some [118; 169]; tx_asset := 1 :: lbtc;
     tx_value := [1; 0; 0; 0; 0; 0; 0; 0; satoshi] |}.

Definition input_a : wally_tx_input := {| txhash := repeat 7 32; index := 1 |}.
Definition input_b : wally_tx_input := {| txhash := repeat 9 32; index := 258 |}.

(** One input; a blinded output, a fee of 250 and a plaintext payment. *)
Definition tx_one : wally_tx :=
  {| inputs := [input_a];
     outputs := [blinded_output; fee_output 250; payment_output 99] |}.

(** Two inputs; two blinded outputs and a fee. *)
Definition tx_two : wally_tx :=
  {| inputs := [input_a; input_b];
     outputs := [blinded_output; blinded_output; fee_output 100] |}.

Definition hash_of (tx : wally_tx) : bytes :=
  @SHA256 model_crypto (@SHA256 model_crypto (List.concat (map prevout_bytes (inputs tx)))).

(** Big-endian decoding of the eight bytes after the prefix 0x01, as
    libwally does it. *)
Definition to_satoshi (v : bytes) : option Z :=
  match v with
  | 1 :: rest =>
      if (List.length rest =? 8)%nat
      then Some (fold_left (fun acc b => acc * 256 + b) rest 0)
      else None
  | _ => None
  end.

Definition model_externals : Externals := {|
  CHECK_NETWORK_CONSISTENT network :=
    if @isValidNetwork upstream_tags network then None
    else Some (CBOR_RPC_BAD_PARAMETERS,
               "Failed to extract valid network from parameters"%string);
  wally_tx_from_bytes txbytes :=
    match txbytes with
    | [1] => Some tx_one
    | [2] => Some tx_two
    | _ => None
    end;
  wally_tx_confidential_value_to_satoshi := to_satoshi;
  validate_change_paths _ _ _ output_info := (Passed, output_info);
  get_script_flavour script := SCRIPT_FLAVOUR_OF_KIND (Z.of_nat (List.length script));
  update_aggregate_scripts_flavour new_flavour aggregate :=
    match aggregate, new_flavour with
    | SCRIPT_FLAVOUR_NONE, f => f
    | SCRIPT_FLAVOUR_OF_KIND a, SCRIPT_FLAVOUR_OF_KIND b =>
        if a =? b then aggregate else SCRIPT_FLAVOUR_MIXED
    | _, _ => SCRIPT_FLAVOUR_MIXED
    end;
  wallet_get_elements_tx_input_hash _ index _ script _ :=
    Some (repeat ((sum_bytes script + Z.of_nat index) mod 256) 32);
  wallet_get_signer_commitment hash _ host_commitment := Some (2 :: host_commitment);
  mbedtls_sha256_starts_ret := 0;
  mbedtls_sha256_update_ret _ _ := 0;
  mbedtls_sha256_finish_ret _ := 0;
  SIGN_TX_ACCEPT_OUTPUTS := 7;
  BTN_ACCEPT_SIGNATURE := 3;
  WARN_MSG_MIXED_INPUTS := "Warning: Multiple input types."%string
|}.

Definition commitments_one : list commitment_t :=
  [honest_commitment (hash_of tx_one) 0 lbtc 5000; no_commitment; no_commitment].

(** Both blinded outputs of [tx_two] carry a balancing record. *)
Definition commitments_two_odd : list commitment_t :=
  [balancing_commitment (hash_of tx_two) 0 lbtc 5000;
   balancing_commitment (hash_of tx_two) 1 lbtc 700; no_commitment].

(** One balancing record, one honest one. *)
Definition commitments_one_odd : list commitment_t :=
  [honest_commitment (hash_of tx_two) 0 lbtc 5000;
   balancing_commitment (hash_of tx_two) 1 lbtc 700; no_commitment].

Definition request (txbytes : bytes) (n : Z) (cs : list commitment_t) (ae : bool)
  : sign_request :=
  {| req_method := "sign_liquid_tx"; req_id := "1"; req_source := 0;
     req_network := Some "liquid"%string; req_txn := Some txbytes;
     req_num_inputs := Some n; req_trusted_commitments := cs;
     req_use_ae_signatures := Some ae; req_change := None |}.

Definition accept_both : ui_events :=
  {| outputs_ret := 0; outputs_ev_id := 7; fee_ret := true; fee_ev_id := 3 |}.
Definition decline_fee : ui_events :=
  {| outputs_ret := 0; outputs_ev_id := 7; fee_ret := true; fee_ev_id := 4 |}.

(** A ["tx_input"] message for an input to sign, and one for an input that
    is not ours. *)
Definition signed_input (i : string) : in_message :=
  {| in_method := "tx_input"; in_id := i; in_is_witness := Some true;
     in_path := Some (Some [2147483648; 1]);
     in_ae_host_commitment := Some (repeat 6 32);
     in_script := Some [0; 20; 1; 2];
     in_value_commitment := Some (8 :: repeat 1 32) |}.
Definition unsigned_input (i : string) : in_message :=
  {| in_method := "tx_input"; in_id := i; in_is_witness := Some false;
     in_path := None; in_ae_host_commitment := None; in_script := None;
     in_value_commitment := None |}.
Definition get_signature (i : string) : in_message :=
  {| in_method := "get_signature"; in_id := i; in_is_witness := None;
     in_path := None; in_ae_host_commitment := Some (repeat 1 32); in_script := None;
     in_value_commitment := None |}.

(** A transaction as it stands once the output-info loop has copied the
    trusted commitments into its blinded outputs. *)
Definition trusted (txoutput : wally_tx_output) (c : commitment_t) : wally_tx_output :=
  if have_commitments c then
    {| script := script txoutput; tx_asset := asset_generator c;
       tx_value := value_commitment c |}
  else txoutput.

Definition with_trusted (tx : wally_tx) (cs : list commitment_t) : wally_tx :=
  {| inputs := inputs tx;
     outputs := map (fun oc => trusted (fst oc) (snd oc)) (combine (outputs tx) cs) |}.

Definition run (req : sign_request) (ui : ui_events) (host : list in_message)
  : result unit * pstate :=
  @session upstream_tags model_crypto model_externals req ui host.

End Sample.

(* ------------------------------------------------------------------ *)
(** * Further vocabulary for the network table *)
(* ------------------------------------------------------------------ *)

Module NetworkVocabulary.
Import Network.

(** The six tags are six different strings. *)
Definition distinct_tags {tags : Tags} : Prop :=
  NoDup [TAG_MAINNET; TAG_LIQUID; TAG_TESTNET; TAG_TESTNETLIQUID; TAG_LOCALTEST;
         TAG_LOCALTESTLIQUID].

End NetworkVocabulary.

(* ------------------------------------------------------------------ *)
(** * main/keychain.c: the loaded keychain and its flags *)
(* ------------------------------------------------------------------ *)

Module KeychainState.
Import Network Keychain Commitments.

(** Lengths fixed by libwally ([wally_bip39.h], [wally_crypto.h]). *)
Definition BIP39_ENTROPY_LEN_128 : nat := 16.
Definition BIP39_ENTROPY_LEN_256 : nat := 32.
Definition EC_PRIVATE_KEY_LEN : nat := 32.

Definition uint8 (v : Z) : Z := v mod 256.

(** The file-level [static] variables of [keychain.c] (those of
    [Keychain.globals] and the rest), with the flash cells behind the
    [storage_*] calls this part of the file makes. *)
Record state : Type := {
  base : globals;
  keychain_userdata : Z;                     (* uint8_t *)
  mnemonic_entropy : bytes;                  (* BIP39_ENTROPY_LEN_256 *)
  mnemonic_entropy_len : nat;
  keychain_user_to_enter_passphrase : bool;
  storage_key_flags : Z;                     (* uint8_t *)
  storage_counter : Z;                       (* uint8_t *)
  storage_pin_privatekey : option bytes;
  storage_encrypted_blob : option bytes
}.

Definition set_base (g : globals) (st : state) : state :=
  {| base := g;
     keychain_userdata := keychain_userdata st;
     mnemonic_entropy := mnemonic_entropy st;
     mnemonic_entropy_len := mnemonic_entropy_len st;
     keychain_user_to_enter_passphrase := keychain_user_to_enter_passphrase st;
     storage_key_flags := storage_key_flags st;
     storage_counter := storage_counter st;
     storage_pin_privatekey := storage_pin_privatekey st;
     storage_encrypted_blob := storage_encrypted_blob st |}.

Definition set_keychain_data (k : option keychain_t) (g : globals) : globals :=
  {| keychain_data := k;
     network_type_restriction := network_type_restriction g;
     has_encrypted_blob := has_encrypted_blob g;
     keychain_temporary := keychain_temporary g;
     storage_network_type_restriction := storage_network_type_restriction g |}.

Definition set_keychain_temporary (b : bool) (g : globals) : globals :=
  {| keychain_data := keychain_data g;
     network_type_restriction := network_type_restriction g;
     has_encrypted_blob := has_encrypted_blob g;
     keychain_temporary := b;
     storage_network_type_restriction := storage_network_type_restriction g |}.

Definition set_has_encrypted_blob (b : bool) (g : globals) : globals :=
  {| keychain_data := keychain_data g;
     network_type_restriction := network_type_restriction g;
     has_encrypted_blob := b;
     keychain_temporary := keychain_temporary g;
     storage_network_type_restriction := storage_network_type_restriction g |}.

(** The tail shared by [keychain_set] and [keychain_clear]: the cached
    entropy is wiped, the flags are set. *)
Definition reset_flags (userdata : Z) (temporary : bool) (st : state) : state :=
  {| base := set_keychain_temporary temporary (base st);
     keychain_userdata := userdata;
     mnemonic_entropy := repeat 0 BIP39_ENTROPY_LEN_256;
     mnemonic_entropy_len := 0;
     keychain_user_to_enter_passphrase := false;
     storage_key_flags := storage_key_flags st;
     storage_counter := storage_counter st;
     storage_pin_privatekey := storage_pin_privatekey st;
     storage_encrypted_blob := storage_encrypted_blob st |}.

Definition keychain_clear (st : state) : state :=
  reset_flags 0 false (set_base (set_keychain_data None (base st)) st).

(** The [src] argument of [keychain_set]: NULL, the pointer [keychain_get]
    hands out (the loaded keychain itself), or some other keychain. *)
Inductive keychain_src : Type :=
| src_null
| src_loaded
| src_other (k : keychain_t).

Definition keychain_set (src : keychain_src) (userdata : Z) (temporary : bool) (st : state)
  : option state :=
  match src with
  | src_null => None
  | src_loaded =>
      (* Copy-from-self is no-op for keys *)
      match keychain_data (base st) with
      | None => None
      | Some _ => Some (reset_flags userdata temporary st)
      end
  | src_other k =>
      let st := keychain_clear st in
      let st := set_base (set_keychain_data (Some k) (base st)) st in
      Some (reset_flags userdata temporary st)
  end.

Definition keychain_get (st : state) : option keychain_t := keychain_data (base st).

Definition keychain_requires_passphrase (st : state) : bool :=
  negb (is_loaded (base st)) && negb (mnemonic_entropy_len st =? 0)%nat.

Definition keychain_get_userdata (st : state) : Z := keychain_userdata st.

(** Flag bits of [storage.h] and the libwally calls of this part. *)
Class KeychainExternals : Type := {
  KEY_FLAGS_USER_TO_ENTER_PASSPHRASE : Z;
  KEY_FLAGS_AUTO_DEFAULT_PASSPHRASE : Z;
  bip39_mnemonic_to_bytes : string -> option bytes;
  wally_ec_private_key_verify : bytes -> bool;
  (** [storage_set_pin_privatekey]: whether the write succeeds. *)
  storage_set_pin_privatekey : bytes -> bool
}.

Definition set_user_flag (b : bool) (st : state) : state :=
  {| base := base st;
     keychain_userdata := keychain_userdata st;
     mnemonic_entropy := mnemonic_entropy st;
     mnemonic_entropy_len := mnemonic_entropy_len st;
     keychain_user_to_enter_passphrase := b;
     storage_key_flags := storage_key_flags st;
     storage_counter := storage_counter st;
     storage_pin_privatekey := storage_pin_privatekey st;
     storage_encrypted_blob := storage_encrypted_blob st |}.

Definition storage_set_key_flags (key_flags : Z) (st : state) : state :=
  {| base := base st;
     keychain_userdata := keychain_userdata st;
     mnemonic_entropy := mnemonic_entropy st;
     mnemonic_entropy_len := mnemonic_entropy_len st;
     keychain_user_to_enter_passphrase := keychain_user_to_enter_passphrase st;
     storage_key_flags := key_flags;
     storage_counter := storage_counter st;
     storage_pin_privatekey := storage_pin_privatekey st;
     storage_encrypted_blob := storage_encrypted_blob st |}.

Definition set_entropy (entropy : bytes) (len : nat) (st : state) : state :=
  {| base := base st;
     keychain_userdata := keychain_userdata st;
     mnemonic_entropy := entropy;
     mnemonic_entropy_len := len;
     keychain_user_to_enter_passphrase := keychain_user_to_enter_passphrase st;
     storage_key_flags := storage_key_flags st;
     storage_counter := storage_counter st;
     storage_pin_privatekey := storage_pin_privatekey st;
     storage_encrypted_blob := storage_encrypted_blob st |}.

Definition set_flash_keys (key : option bytes) (blob : option bytes) (st : state) : state :=
  {| base := base st;
     keychain_userdata := keychain_userdata st;
     mnemonic_entropy := mnemonic_entropy st;
     mnemonic_entropy_len := mnemonic_entropy_len st;
     keychain_user_to_enter_passphrase := keychain_user_to_enter_passphrase st;
     storage_key_flags := storage_key_flags st;
     storage_counter := storage_counter st;
     storage_pin_privatekey := key;
     storage_encrypted_blob := blob |}.

Section WithExternals.
Context {tags : Tags} {kx : KeychainExternals}.

Definition keychain_set_user_to_enter_passphrase (use_passphrase : bool) (st : state)
  : state :=
  set_user_flag use_passphrase st.

(** [key_flags &= ~A; key_flags |= B;] on a [uint8_t]. *)
Definition keychain_set_user_to_enter_passphrase_by_default (use_passphrase : bool)
    (st : state) : state :=
  let key_flags := storage_key_flags st in
  let key_flags :=
    if use_passphrase then
      let key_flags := uint8 (Z.land key_flags (Z.lnot KEY_FLAGS_AUTO_DEFAULT_PASSPHRASE)) in
      uint8 (Z.lor key_flags KEY_FLAGS_USER_TO_ENTER_PASSPHRASE)
    else
      let key_flags := uint8 (Z.land key_flags (Z.lnot KEY_FLAGS_USER_TO_ENTER_PASSPHRASE)) in
      uint8 (Z.lor key_flags KEY_FLAGS_AUTO_DEFAULT_PASSPHRASE) in
  storage_set_key_flags key_flags st.

Definition keychain_get_user_to_enter_passphrase (st : state) : bool :=
  keychain_user_to_enter_passphrase st
  || negb (Z.land (storage_key_flags st) KEY_FLAGS_USER_TO_ENTER_PASSPHRASE =? 0).

(** [keychain_cache_mnemonic_entropy]; [None] is a failed assertion or
    [JADE_WALLY_VERIFY]. *)
Definition keychain_cache_mnemonic_entropy (mnemonic : option string) (st : state)
  : option state :=
  match mnemonic with
  | None => None
  | Some mnemonic =>
      if keychain_temporary (base st) then None else
      if negb (mnemonic_entropy_len st =? 0)%nat then None else
      match bip39_mnemonic_to_bytes mnemonic with
      | None => None
      | Some entropy =>
          let written := List.length entropy in
          if (BIP39_ENTROPY_LEN_256 <? written)%nat then None else
          (* Only 12 or 24 word mnemonics are supported *)
          if (written =? BIP39_ENTROPY_LEN_128)%nat || (written =? BIP39_ENTROPY_LEN_256)%nat
          then
            Some (set_entropy
                    (entropy ++ skipn written (mnemonic_entropy st)) written st)
          else None
      end
  end.

(** The loop of [keychain_get_new_privatekey]: [attempts] tries are left,
    [random] is what [get_random] delivers call after call and [drawn] the
    number of calls made so far.  Returns the verdict, the buffer and the
    number of calls made. *)
Fixpoint try_new_privatekey (attempts : nat) (random : nat -> bytes) (drawn : nat)
    (privatekey : bytes) : bool * bytes * nat :=
  match attempts with
  | O => (false, privatekey, drawn)
  | S attempts =>
      let privatekey := random drawn in
      if wally_ec_private_key_verify privatekey then (true, privatekey, S drawn)
      else try_new_privatekey attempts random (S drawn) privatekey
  end.

(** [keychain_get_new_privatekey]: [privatekey] is the content of the
    caller's buffer, [None] for a NULL pointer. *)
Definition keychain_get_new_privatekey (privatekey : option bytes) (size : nat)
    (random : nat -> bytes) (drawn : nat) : bool * option bytes * nat :=
  match privatekey with
  | None => (false, None, drawn)
  | Some buffer =>
      if negb (size =? EC_PRIVATE_KEY_LEN)%nat then (false, Some buffer, drawn)
      else
        let '(ok, buffer, drawn) := try_new_privatekey 4 random drawn buffer in
        (ok, Some buffer, drawn)
  end.

Definition keychain_pin_attempts_remaining (st : state) : Z := storage_counter st.

(** [keychain_erase_encrypted]; [None] is the assertion inside
    [keychain_has_temporary]. *)
Definition keychain_erase_encrypted (st : state) : option state :=
  let st := set_flash_keys (storage_pin_privatekey st) None st in
  match keychain_clear_network_type_restriction (base st) with
  | None => None
  | Some g => Some (set_base (set_has_encrypted_blob false g) st)
  end.

(** [keychain_init]: the return value, the state, and the number of
    [get_random] calls made. *)
Definition keychain_init (random : nat -> bytes) (drawn : nat) (st : state)
  : bool * state * nat :=
  let cache (st : state) : state :=
    (* Cache whether we are restricted to main/test networks and whether we
       have an encrypted blob *)
    let g := set_network_type_restriction (storage_network_type_restriction (base st))
               (base st) in
    set_base (set_has_encrypted_blob (0 <? keychain_pin_attempts_remaining st) g) st in
  match storage_pin_privatekey st with
  | Some _ => (true, cache st, drawn)
  | None =>
      match keychain_get_new_privatekey (Some (repeat 0 EC_PRIVATE_KEY_LEN))
              EC_PRIVATE_KEY_LEN random drawn with
      | (false, _, drawn) => (false, st, drawn)
      | (true, privatekey, drawn) =>
          let privatekey := match privatekey with Some k => k | None => [] end in
          let res := storage_set_pin_privatekey privatekey in
          let st := if res
                    then set_flash_keys (Some privatekey) (storage_encrypted_blob st) st
                    else st in
          (res, cache st, drawn)
      end
  end.

End WithExternals.

(** A flash and a set of statics to run the functions on. *)
Definition sample_externals : KeychainExternals := {|
  KEY_FLAGS_USER_TO_ENTER_PASSPHRASE := 1;
  KEY_FLAGS_AUTO_DEFAULT_PASSPHRASE := 2;
  bip39_mnemonic_to_bytes mnemonic := Some (repeat 5 16);
  wally_ec_private_key_verify key := negb (hd 0 key =? 0);
  storage_set_pin_privatekey _ := true
|}.

Definition sample_state : state := {|
  base := fresh_wallet;
  keychain_userdata := 3;
  mnemonic_entropy := repeat 0 32;
  mnemonic_entropy_len := 0;
  keychain_user_to_enter_passphrase := false;
  storage_key_flags := 128 + 2;
  storage_counter := 3;
  storage_pin_privatekey := None;
  storage_encrypted_blob := Some [1; 2; 3]
|}.

(** A source of randomness whose first two deliveries are not valid keys. *)
Definition sample_random (n : nat) : bytes :=
  repeat (if (n <? 2)%nat then 0 else Z.of_nat n) 32.

End KeychainState.

(* ------------------------------------------------------------------ *)
(** * main/keychain.c: runs of keychain calls *)
(* ------------------------------------------------------------------ *)

Module KeychainCalls.
Import Network Keychain Commitments KeychainState.

(** The calls of [keychain.c] that write the file's statics, as far as they
    are modelled. *)
Inductive call : Type :=
| call_set (src : keychain_src) (userdata : Z) (temporary : bool)
| call_clear
| call_cache_mnemonic_entropy (mnemonic : option string)
| call_set_user_to_enter_passphrase (use_passphrase : bool)
| call_set_user_to_enter_passphrase_by_default (use_passphrase : bool)
| call_set_network_type_restriction (network : option string)
| call_clear_network_type_restriction
| call_erase_encrypted
| call_init (random : nat -> bytes) (drawn : nat).

Section Calls.
Context {tags : Tags} {kx : KeychainExternals}.

Definition run_call (c : call) (st : state) : option state :=
  match c with
  | call_set src userdata temporary => keychain_set src userdata temporary st
  | call_clear => Some (keychain_clear st)
  | call_cache_mnemonic_entropy mnemonic => keychain_cache_mnemonic_entropy mnemonic st
  | call_set_user_to_enter_passphrase b => Some (keychain_set_user_to_enter_passphrase b st)
  | call_set_user_to_enter_passphrase_by_default b =>
      Some (keychain_set_user_to_enter_passphrase_by_default b st)
  | call_set_network_type_restriction network =>
      match keychain_set_network_type_restriction network (base st) with
      | None => None
      | Some g => Some (set_base g st)
      end
  | call_clear_network_type_restriction =>
      match keychain_clear_network_type_restriction (base st) with
      | None => None
      | Some g => Some (set_base g st)
      end
  | call_erase_encrypted => keychain_erase_encrypted st
  | call_init random drawn => Some (snd (fst (keychain_init random drawn st)))
  end.

Fixpoint run_calls (calls : list call) (st : state) : option state :=
  match calls with
  | [] => Some st
  | c :: calls =>
      match run_call c st with
      | None => None
      | Some st => run_calls calls st
      end
  end.

(** The statics as their initialisers leave them, over any flash. *)
Definition powered_up (st : state) : Prop :=
  keychain_data (base st) = None
  /\ network_type_restriction (base st) = NETWORK_TYPE_NONE
  /\ has_encrypted_blob (base st) = false
  /\ keychain_temporary (base st) = false
  /\ keychain_userdata st = 0
  /\ mnemonic_entropy st = repeat 0 BIP39_ENTROPY_LEN_256
  /\ mnemonic_entropy_len st = 0%nat
  /\ keychain_user_to_enter_passphrase st = false.

Definition statics_ok (st : state) : Prop :=
  (keychain_temporary (base st) = true -> is_loaded (base st) = true)
  /\ (mnemonic_entropy_len st = 0%nat \/ mnemonic_entropy_len st = BIP39_ENTROPY_LEN_128
      \/ mnemonic_entropy_len st = BIP39_ENTROPY_LEN_256)
  /\ List.length (mnemonic_entropy st) = BIP39_ENTROPY_LEN_256.

End Calls.

(** A unit as it powers up, with a wallet in flash. *)
Definition sample_boot : state := {|
  base := {| keychain_data := None;
             network_type_restriction := NETWORK_TYPE_NONE;
             has_encrypted_blob := false;
             keychain_temporary := false;
             storage_network_type_restriction := NETWORK_TYPE_NONE |};
  keychain_userdata := 0;
  mnemonic_entropy := repeat 0 32;
  mnemonic_entropy_len := 0;
  keychain_user_to_enter_passphrase := false;
  storage_key_flags := 128 + 2;
  storage_counter := 3;
  storage_pin_privatekey := None;
  storage_encrypted_blob := Some [1; 2; 3]
|}.

(** A unit that boots, loads a temporary keychain, pins it to test networks
    and has its stored wallet erased. *)
Definition sample_calls : list call :=
  [call_init sample_random 0;
   call_set (src_other {| seed := [9] |}) 1 true;
   call_set_network_type_restriction (Some "testnet"%string);
   call_erase_encrypted].

End KeychainCalls.

(* ------------------------------------------------------------------ *)
(** * main/keychain.c: what is written to flash *)
(* ------------------------------------------------------------------ *)

Module KeychainCodec.
Import Commitments.

(** Lengths fixed by libwally ([wally_bip32.h], [wally_crypto.h]). *)
Definition BIP32_SERIALIZED_LEN : nat := 78.
Definition HMAC_SHA512_LEN : nat := 64.

(** Size of keydata_t elements - ext-key, ga-path, master-blinding-key *)
Definition SERIALIZED_KEY_LEN : nat :=
  BIP32_SERIALIZED_LEN + HMAC_SHA512_LEN + HMAC_SHA512_LEN.

(** The collaborators of [aes.h] and libwally.  [None] is the failure
    return.  [aes_encrypt_bytes] draws a fresh iv; [iv] is that draw. *)
Class CodecExternals : Type := {
  ext_key : Type;
  bip32_key_serialize : ext_key -> option bytes;
  bip32_key_unserialize : bytes -> option ext_key;
  AES_ENCRYPTED_LEN : nat -> nat;
  aes_encrypt_bytes : bytes (* key *) -> bytes (* iv *) -> bytes -> option bytes;
  aes_decrypt_bytes : bytes (* key *) -> bytes -> option bytes;
  wally_hmac_sha256 : bytes (* key *) -> bytes -> option bytes
}.

Section Codec.
Context {cx : CodecExternals}.

(** [keychain_t] with the fields this part of the file reads and writes. *)
Record keychain_t : Type := {
  xpriv : ext_key;
  service_path : bytes;             (* HMAC_SHA512_LEN *)
  master_unblinding_key : bytes;    (* HMAC_SHA512_LEN *)
  seed : bytes;
  seed_len : nat
}.

Definition ENCRYPTED_DATA_LEN (len : nat) : nat := AES_ENCRYPTED_LEN len + HMAC_SHA256_LEN.

(** [serialize]: the content of [serialized]; [None] is a failed assertion
    or [JADE_WALLY_VERIFY]. *)
Definition serialize (serialized_len : nat) (keydata : option keychain_t) : option bytes :=
  if negb (serialized_len =? SERIALIZED_KEY_LEN)%nat then None else
  match keydata with
  | None => None
  | Some keydata =>
      (* ext-key, ga-path, master-blinding-key *)
      match bip32_key_serialize (xpriv keydata) with
      | None => None
      | Some key =>
          Some (firstn BIP32_SERIALIZED_LEN key
                ++ firstn HMAC_SHA512_LEN (service_path keydata)
                ++ firstn HMAC_SHA512_LEN (master_unblinding_key keydata))
      end
  end.

(** [unserialize] into [keydata]; [None] as above. *)
Definition unserialize (decrypted : bytes) (decrypted_len : nat) (keydata : keychain_t)
  : option keychain_t :=
  if negb (decrypted_len =? SERIALIZED_KEY_LEN)%nat then None else
  match bip32_key_unserialize (firstn BIP32_SERIALIZED_LEN decrypted) with
  | None => None
  | Some key =>
      Some {| xpriv := key;
              service_path := firstn HMAC_SHA512_LEN (skipn BIP32_SERIALIZED_LEN decrypted);
              master_unblinding_key :=
                firstn HMAC_SHA512_LEN
                  (skipn (BIP32_SERIALIZED_LEN + HMAC_SHA512_LEN) decrypted);
              seed := seed keydata;
              seed_len := seed_len keydata |}
  end.

(** [crypto_verify_32]: 0 when the two 32-byte strings agree, -1 otherwise. *)
Definition crypto_verify_32 (x y : bytes) : Z :=
  if bytes_eqb (firstn 32 x) (firstn 32 y) then 0 else -1.

(** [get_encrypted_blob]: [None] is a failed assertion or
    [JADE_WALLY_VERIFY], [Some None] the return value [false], and
    [Some (Some output)] the return value [true] with the buffer filled. *)
Definition get_encrypted_blob (aeskey : bytes) (iv : bytes) (bytes_in : bytes)
    (output_len : nat) : option (option bytes) :=
  let aes_len := List.length aeskey in
  let bytes_len := List.length bytes_in in
  if (aes_len =? 0)%nat then None else
  if (bytes_len =? 0)%nat then None else
  if negb (output_len =? AES_ENCRYPTED_LEN bytes_len + HMAC_SHA256_LEN)%nat then None else
  (* 1. Encrypt the passed data into the start of the buffer *)
  match aes_encrypt_bytes aeskey iv bytes_in with
  | None => Some None
  | Some encrypted =>
      let encrypted := firstn (output_len - HMAC_SHA256_LEN) encrypted in
      (* 2. Write the hmac into the buffer after the encrypted data *)
      match wally_hmac_sha256 aeskey encrypted with
      | None => None
      | Some hmac => Some (Some (encrypted ++ firstn HMAC_SHA256_LEN hmac))
      end
  end.

(** [get_decrypted_payload], with the same reading of the result; the
    payload's length is [*written]. *)
Definition get_decrypted_payload (aeskey : bytes) (bytes_in : bytes) (output_len : nat)
  : option (option bytes) :=
  let aes_len := List.length aeskey in
  let bytes_len := List.length bytes_in in
  if (aes_len =? 0)%nat then None else
  if negb (HMAC_SHA256_LEN <? bytes_len)%nat then None else
  if (output_len =? 0)%nat then None else
  (* 1. Verify HMAC at the tail of the input buffer *)
  match wally_hmac_sha256 aeskey (firstn (bytes_len - HMAC_SHA256_LEN) bytes_in) with
  | None => None
  | Some hmac_calculated =>
      if negb (crypto_verify_32 hmac_calculated
                 (skipn (bytes_len - HMAC_SHA256_LEN) bytes_in) =? 0)
      then Some None
      else
        (* 2. Decrypt bytes at front of buffer *)
        match aes_decrypt_bytes aeskey (firstn (bytes_len - HMAC_SHA256_LEN) bytes_in) with
        | None => Some None
        | Some payload => Some (Some payload)
        end
  end.

End Codec.

(** Stand-ins: a key is its serialisation, the cipher adds the key byte to
    every byte behind a one-byte iv, the MAC repeats the sum of key and
    message. *)
Definition sample_codec : CodecExternals := {|
  ext_key := bytes;
  bip32_key_serialize key := Some key;
  bip32_key_unserialize b := Some b;
  AES_ENCRYPTED_LEN len := S len;
  aes_encrypt_bytes key iv b :=
    Some (hd 0 iv :: map (fun x => (x + hd 0 key) mod 256) b);
  aes_decrypt_bytes key b :=
    Some (map (fun x => (x - hd 0 key) mod 256) (tl b));
  wally_hmac_sha256 key b :=
    Some (repeat (fold_right Z.add (hd 0 key) b mod 256) 32)
|}.

Definition sample_keydata : @keychain_t sample_codec :=
  @Build_keychain_t sample_codec (repeat 4 78) (repeat 5 64) (repeat 6 64) (repeat 7 64) 64.

(** [keychain_t keydata = { 0 }] *)
Definition zero_keydata : @keychain_t sample_codec :=
  @Build_keychain_t sample_codec (repeat 0 78) (repeat 0 64) (repeat 0 64) (repeat 0 64) 0.

End KeychainCodec.

(* ------------------------------------------------------------------ *)
(** * Further vocabulary for the signing process *)
(* ------------------------------------------------------------------ *)

Module SignVocabulary.
Import Network Commitments SignLiquidTx.

(** An input as libwally holds it: a 32-byte txid and a [uint32_t] index. *)
Definition well_formed_input (input : wally_tx_input) : Prop :=
  List.length (txhash input) = WALLY_TXHASH_LEN /\ 0 <= index input < 2 ^ 32.

(** A blinded output once the trusted record [c] was copied over it. *)
Definition trusted_output (txoutput : wally_tx_output) (c : commitment_t) : wally_tx_output :=
  {| script := script txoutput;
     tx_asset := firstn ASSET_GENERATOR_LEN (asset_generator c);
     tx_value := firstn ASSET_COMMITMENT_LEN (value_commitment c) |}.

(** The display summary taken from the trusted record [c]. *)
Definition trusted_info (c : commitment_t) : output_info_t :=
  {| is_confidential := true;
     oi_asset_id := asset_id c;
     oi_value := value c;
     oi_blinding_key := blinding_key c |}.

(** The display summary of a plaintext output, read off the output. *)
Definition plain_info {ext : Externals} (txoutput : wally_tx_output) (before : output_info_t)
  : output_info_t :=
  {| is_confidential := false;
     oi_asset_id := firstn 32 (skipn 1 (tx_asset txoutput));
     oi_value := satoshi_value txoutput before;
     oi_blinding_key := oi_blinding_key before |}.

Section Populated.
Context {ext : Externals}.

(** What the output-info loop has done to output [i] and its summary. *)
Definition populated_at (cs : list commitment_t) (i : nat) (o : wally_tx_output)
    (before : option output_info_t) (o' : option wally_tx_output)
    (after : option output_info_t) : Prop :=
  match value_prefix o with
  | None => False
  | Some v0 =>
      if v0 =? 1 then
        o' = Some o
        /\ exists info, before = Some info /\ after = Some (plain_info o info)
      else
        exists c,
          nth_error cs i = Some c /\ have_commitments c = true
          /\ List.length (tx_asset o) = ASSET_GENERATOR_LEN
          /\ List.length (tx_value o) = ASSET_COMMITMENT_LEN
          /\ o' = Some (trusted_output o c)
          /\ after = Some (trusted_info c)
  end.

End Populated.

(** The first byte of a value commitment is the prefix of a plaintext
    value. *)
Definition plain_prefixed (c : commitment_t) : Prop :=
  hd_error (firstn ASSET_COMMITMENT_LEN (value_commitment c)) = Some 1.

Definition is_reject (a : action) : bool :=
  match a with Reject _ _ _ => true | _ => false end.

(** What loading one input message adds to the trace: the load and, with
    anti-exfil signatures, the reply that carries [data]. *)
Definition input_exchange (use_ae_signatures : bool) (md : in_message * bytes)
  : list action :=
  LoadInMessage (fst md)
  :: (if use_ae_signatures then [ReplyBytes (in_id (fst md)) (snd md)] else []).

(** A trusted record nobody vouched for (its HMAC is all zeros) whose value
    commitment begins with the plaintext prefix, and the records of a
    request for [Sample.tx_one] that carries it. *)
Definition plain_prefixed_record : commitment_t :=
  {| have_commitments := true; asset_id := Sample.lbtc; value := 21;
     blinding_key := 2 :: repeat 1 32; asset_generator := 10 :: repeat 0 32;
     value_commitment := 1 :: repeat 0 32; hmac := repeat 0 32 |}.

Definition commitments_plain_prefixed : list commitment_t :=
  [plain_prefixed_record; Sample.no_commitment; Sample.no_commitment].

End SignVocabulary.

(* ------------------------------------------------------------------ *)
(** * Vocabulary for the replies of a session *)
(* ------------------------------------------------------------------ *)

Module ReplyVocabulary.
Import Network Commitments SignLiquidTx SignVocabulary.

Definition no_reject (t : list action) : bool :=
  forallb (fun a => negb (is_reject a)) t.

(** An acknowledgement or a payload: a reply that is not a rejection. *)
Definition is_positive_reply (a : action) : bool :=
  match a with ReplyOk _ | ReplyBytes _ _ => true | _ => false end.

(** A piece of the process that jumps to [cleanup] only right after one
    rejection, addressed to the message that is current then, and rejects
    nothing otherwise. *)
Definition rejects_last {A : Type} (m : M A) : Prop :=
  forall s,
    exists t,
      trace (snd (m s)) = trace s ++ t
      /\ match fst (m s) with
         | Cleanup =>
             exists t0 code message,
               t = t0 ++ [Reject (current (snd (m s))) code message]
               /\ no_reject t0 = true
         | _ => no_reject t = true
         end.

End ReplyVocabulary.

(* ------------------------------------------------------------------ *)
(** * Vocabulary for the input messages of a session *)
(* ------------------------------------------------------------------ *)

Module InputVocabulary.
Import Network Commitments SignLiquidTx SignVocabulary.

Section Accepted.
Context {ext : Externals}.

(** What accepting the message [m] for input [index] of [tx] means: [old]
    is the signing record before and [d] after, [aggregate] the script
    flavour seen so far and [aggregate'] the one handed on, [reply] the
    payload of the anti-exfil reply. *)
Definition accepted_input (tx : wally_tx) (use_ae_signatures : bool) (index : nat)
    (m : in_message) (old d : signing_data_t) (aggregate aggregate' : script_flavour_t)
    (reply : bytes) : Prop :=
  in_id m <> EmptyString
  /\ exists is_witness,
       in_is_witness m = Some is_witness
       /\ match in_path m with
          | None =>
              (* no path given implies no sig needed or expected *)
              path old = []
              /\ d = {| id := in_id m; path := path old;
                        signature_hash := signature_hash old |}
              /\ aggregate' = aggregate
              /\ reply = []
          | Some requested =>
              exists p script hash,
                requested = Some p /\ p <> []
                /\ in_script m = Some script /\ script <> []
                /\ (is_witness = true ->
                    exists c, in_value_commitment m = Some c
                              /\ List.length c = ASSET_COMMITMENT_LEN)
                /\ wallet_get_elements_tx_input_hash tx index is_witness script
                     (if is_witness then in_value_commitment m else None) = Some hash
                /\ d = {| id := in_id m; path := p; signature_hash := hash |}
                /\ aggregate'
                   = update_aggregate_scripts_flavour (get_script_flavour script) aggregate
                /\ if use_ae_signatures then
                     exists host_commitment signer_commitment,
                       in_ae_host_commitment m = Some host_commitment
                       /\ List.length host_commitment = WALLY_HOST_COMMITMENT_LEN
                       /\ wallet_get_signer_commitment hash p host_commitment
                          = Some signer_commitment
                       /\ reply = firstn WALLY_S2C_OPENING_LEN signer_commitment
                   else reply = []
          end.

End Accepted.

(** The signing record [d] was made for the message [m]: it carries its id,
    and a path exactly when the message gave one. *)
Definition recorded_for (m : in_message) (d : signing_data_t) : Prop :=
  id d = in_id m /\ (path d = [] <-> in_path m = None).

End InputVocabulary.

(* ------------------------------------------------------------------ *)
(** * main/keychain.c: storing and unlocking the wallet *)
(* ------------------------------------------------------------------ *)

Module KeychainPersist.
Import Commitments Keychain KeychainState KeychainCodec.

Definition AES_KEY_LEN_256 : nat := 32.

(** The calls into [storage.c] and [aes.h] of this part of the file, as
    functions of the flash cells they work on.  [storage_decrement_counter]
    and [storage_set_encrypted_blob] hand back their return value with the
    PIN counter as they leave it. *)
Class PersistExternals {cx : CodecExternals} : Type := {
  AES_PADDED_LEN : nat -> nat;
  storage_decrement_counter : Z -> bool * Z;
  storage_restore_counter : Z -> Z;
  storage_get_encrypted_blob : option bytes -> nat -> option bytes;
  storage_set_encrypted_blob : bytes -> Z -> bool * Z;
  (** The [struct ext_key] of a [keychain_t keydata = { 0 }]. *)
  ext_key_zero : ext_key
}.

Section Persist.
Context {tags : Network.Tags} {cx : CodecExternals} {px : PersistExternals}.

(** The statics as [KeychainState] has them, with the whole of the loaded
    [keychain_t] beside the part [Keychain.keychain_t] keeps. *)
Record state : Type := {
  statics : KeychainState.state;
  loaded_keys : option KeychainCodec.keychain_t
}.

Definition forget (keydata : KeychainCodec.keychain_t) : Keychain.keychain_t :=
  {| Keychain.seed := firstn (seed_len keydata) (KeychainCodec.seed keydata) |}.

Definition with_statics (s : KeychainState.state) (st : state) : state :=
  {| statics := s; loaded_keys := loaded_keys st |}.

Definition set_counter (counter : Z) (s : KeychainState.state) : KeychainState.state :=
  {| base := base s;
     keychain_userdata := keychain_userdata s;
     mnemonic_entropy := mnemonic_entropy s;
     mnemonic_entropy_len := mnemonic_entropy_len s;
     keychain_user_to_enter_passphrase := keychain_user_to_enter_passphrase s;
     storage_key_flags := storage_key_flags s;
     storage_counter := counter;
     storage_pin_privatekey := storage_pin_privatekey s;
     storage_encrypted_blob := storage_encrypted_blob s |}.

(** [keychain_t keydata = { 0 }] *)
Definition keydata_zero : KeychainCodec.keychain_t :=
  {| xpriv := ext_key_zero;
     service_path := repeat 0 HMAC_SHA512_LEN;
     master_unblinding_key := repeat 0 HMAC_SHA512_LEN;
     KeychainCodec.seed := repeat 0 64;
     seed_len := 0 |}.

(** [keychain_set(&keydata, userdata, temporary)] for a [keydata] on the
    caller's stack. *)
Definition keychain_set_keydata (keydata : KeychainCodec.keychain_t) (userdata : Z)
    (temporary : bool) (st : state) : option state :=
  match keychain_set (src_other (forget keydata)) userdata temporary (statics st) with
  | None => None
  | Some s => Some {| statics := s; loaded_keys := Some keydata |}
  end.

(** [keychain_store_encrypted]; [iv] is the draw [aes_encrypt_bytes] makes.
    [None] is a failed assertion or [JADE_WALLY_VERIFY]. *)
Definition keychain_store_encrypted (aeskey : option bytes) (iv : bytes) (st : state)
  : option (bool * state) :=
  let s := statics st in
  match aeskey with
  | None => Some (false, st)
  | Some aeskey =>
    if negb (List.length aeskey =? AES_KEY_LEN_256)%nat then Some (false, st) else
    if negb (is_loaded (base s)) && (mnemonic_entropy_len s =? 0)%nat then
      (* No keychain data to store *)
      Some (false, st)
    else
    (* 1. Get serialised data to encrypt/persist *)
    let serialized_data :=
      if negb (mnemonic_entropy_len s =? 0)%nat then
        (* Use mnemonic entropy *)
        if ((mnemonic_entropy_len s =? BIP39_ENTROPY_LEN_128)%nat
            || (mnemonic_entropy_len s =? BIP39_ENTROPY_LEN_256)%nat)
           && (mnemonic_entropy_len s <=? BIP39_ENTROPY_LEN_256)%nat
           && (mnemonic_entropy_len s <? SERIALIZED_KEY_LEN)%nat
        then Some (firstn (mnemonic_entropy_len s) (mnemonic_entropy s))
        else None
      else
        (* Use serialised keychain *)
        serialize SERIALIZED_KEY_LEN (loaded_keys st) in
    match serialized_data with
    | None => None
    | Some serialized_data =>
      (* 2. Get as encrypted blob *)
      let encrypted_data_len := ENCRYPTED_DATA_LEN (List.length serialized_data) in
      match get_encrypted_blob aeskey iv serialized_data encrypted_data_len with
      | None => None
      | Some None => Some (false, st)
      | Some (Some encrypted) =>
        (* 3. Push into flash storage *)
        let '(stored, counter) := storage_set_encrypted_blob encrypted (storage_counter s) in
        if negb stored then Some (false, st) else
        let s := set_counter counter
                   (set_flash_keys (storage_pin_privatekey s) (Some encrypted) s) in
        (* 4. Clear main/test network restriction and cache that we have
           encrypted keys *)
        match keychain_clear_network_type_restriction (base s) with
        | None => None
        | Some g => Some (true, with_statics (set_base (set_has_encrypted_blob true g) s) st)
        end
      end
    end
  end.

(** [keychain_load_cleartext], read as above. *)
Definition keychain_load_cleartext (aeskey : option bytes) (st : state)
  : option (bool * state) :=
  let s := statics st in
  match aeskey with
  | None => Some (false, st)
  | Some aeskey =>
    if negb (List.length aeskey =? AES_KEY_LEN_256)%nat then Some (false, st) else
    if is_loaded (base s) || negb (mnemonic_entropy_len s =? 0)%nat then
      (* We already have loaded keychain data - do not overwrite *)
      Some (false, st)
    else
    if negb (keychain_has_pin (base s)) then Some (false, st) else
    let '(decremented, counter) := storage_decrement_counter (storage_counter s) in
    let s := set_counter counter s in
    if negb decremented then
      (* No valid keychain data in storage to load *)
      Some (false, with_statics s st)
    else
    (* 1. Load from flash storage *)
    match storage_get_encrypted_blob (storage_encrypted_blob s)
            (ENCRYPTED_DATA_LEN SERIALIZED_KEY_LEN) with
    | None =>
        (* ensuring fully erased *)
        let s := set_flash_keys (storage_pin_privatekey s) None s in
        Some (false, with_statics (set_base (set_has_encrypted_blob false (base s)) s) st)
    | Some encrypted =>
      (* 2. Get decrypted payload from the encrypted blob *)
      match get_decrypted_payload aeskey encrypted (AES_PADDED_LEN SERIALIZED_KEY_LEN) with
      | None => None
      | Some None =>
          if keychain_pin_attempts_remaining s =? 0 then
            (* Multiple failures to decrypt key data - erasing encrypted keys *)
            match keychain_erase_encrypted s with
            | None => None
            | Some s => Some (false, with_statics s st)
            end
          else Some (false, with_statics s st)
      | Some (Some serialized) =>
        (* 3. Decrypt succeed so pin ok - reset counter *)
        let s := set_counter (storage_restore_counter (storage_counter s)) s in
        (* 4. Cache mnemonic entropy or deserialise keychain *)
        let serialized_data_len := List.length serialized in
        if (serialized_data_len =? BIP39_ENTROPY_LEN_128)%nat
           || (serialized_data_len =? BIP39_ENTROPY_LEN_256)%nat then
          (* Write mnemonic entropy *)
          Some (true,
                with_statics
                  (set_entropy
                     (serialized ++ skipn serialized_data_len (mnemonic_entropy s))
                     serialized_data_len s) st)
        else if (serialized_data_len =? SERIALIZED_KEY_LEN)%nat then
          (* Deserialise keychain *)
          match unserialize serialized serialized_data_len keydata_zero with
          | None => None
          | Some keydata =>
              match keychain_set_keydata keydata 0 false (with_statics s st) with
              | None => None
              | Some st => Some (true, st)
              end
          end
        else Some (false, with_statics s st)
      end
    end
  end.

(** The two views of the loaded keychain agree. *)
Definition coupled (st : state) : Prop :=
  keychain_data (base (statics st)) = option_map forget (loaded_keys st).

End Persist.

(** A flash that counts three attempts down and accepts every write. *)
Definition sample_persist : @PersistExternals sample_codec :=
  @Build_PersistExternals sample_codec
    (fun len => S len)
    (fun counter => if 0 <? counter then (true, counter - 1) else (false, counter))
    (fun _ => 3)
    (fun blob size =>
       match blob with
       | Some b => if (List.length b <=? size)%nat then Some b else None
       | None => None
       end)
    (fun _ _ => (true, 3))
    (repeat 0 78).

(** A unit with the sample keys loaded and no wallet stored yet. *)
Definition sample_unlocked : @state sample_codec := {|
  statics :=
    {| base := {| keychain_data := Some (@forget sample_codec sample_keydata);
                  network_type_restriction := NETWORK_TYPE_TEST;
                  has_encrypted_blob := false;
                  keychain_temporary := false;
                  storage_network_type_restriction := NETWORK_TYPE_NONE |};
       keychain_userdata := 0;
       mnemonic_entropy := repeat 0 32;
       mnemonic_entropy_len := 0;
       keychain_user_to_enter_passphrase := false;
       storage_key_flags := 0;
       storage_counter := 0;
       storage_pin_privatekey := Some (repeat 7 32);
       storage_encrypted_blob := None |};
  loaded_keys := Some sample_keydata
|}.

End KeychainPersist.

(* ------------------------------------------------------------------ *)
(** * Vocabulary for storing and unlocking *)
(* ------------------------------------------------------------------ *)

Module KeychainPersistVocabulary.
Import Commitments Keychain KeychainState KeychainCodec KeychainPersist.

Section Vocabulary.
Context {cx : CodecExternals} {px : PersistExternals}.




End Vocabulary.

(** The sample keys as they are serialised, encrypted under [sample_aeskey]
    and authenticated, and a unit that holds them in flash with nothing
    loaded. *)
Definition sample_aeskey : bytes := repeat 3 32.

Definition sample_serialized : bytes := repeat 4 78 ++ repeat 5 64 ++ repeat 6 64.

Definition sample_encrypted : bytes :=
  9 :: map (fun x => (x + 3) mod 256) sample_serialized.

Definition sample_hmac : bytes :=
  repeat (fold_right Z.add 3 sample_encrypted mod 256) 32.

Definition sample_locked : @state sample_codec := {|
  statics :=
    {| base := {| keychain_data := None;
                  network_type_restriction := NETWORK_TYPE_MAIN;
                  has_encrypted_blob := true;
                  keychain_temporary := false;
                  storage_network_type_restriction := NETWORK_TYPE_MAIN |};
       keychain_userdata := 0;
       mnemonic_entropy := repeat 0 32;
       mnemonic_entropy_len := 0;
       keychain_user_to_enter_passphrase := false;
       storage_key_flags := 0;
       storage_counter := 3;
       storage_pin_privatekey := Some (repeat 7 32);
       storage_encrypted_blob := Some (sample_encrypted ++ sample_hmac) |};
  loaded_keys := None
|}.

End KeychainPersistVocabulary.

(* ------------------------------------------------------------------ *)
(** * Requests on which the code and the specification part ways *)
(* ------------------------------------------------------------------ *)

Module SampleDivergence.
Import Network Commitments SignLiquidTx Sample.

(** The record an honest host holds for output [idx], but with a value
    commitment that is not the recomputed one and begins with the plaintext
    prefix 0x01; its HMAC is made over the record as it then stands. *)
Definition skipped_commitment (hash_prevouts : bytes) (idx : Z) (asset : bytes) (v : Z)
  : commitment_t :=
  let c := honest_commitment hash_prevouts idx asset v in
  let commitment := 1 :: repeat 5 32 in
  {| have_commitments := true;
     asset_id := asset_id c;
     value := value c;
     blinding_key := blinding_key c;
     asset_generator := asset_generator c;
     value_commitment := commitment;
     hmac := repeat (sum_bytes (asset_generator c ++ commitment ++ asset
                                ++ uint64_bytes v) mod 256) 32
  |}.

(** Both blinded outputs of [tx_two] carry such a record. *)
Definition commitments_two_skipped : list commitment_t :=
  [skipped_commitment (hash_of tx_two) 0 lbtc 5000;
   skipped_commitment (hash_of tx_two) 1 lbtc 700; no_commitment].

(** A record whose asset generator is not the recomputed one (which begins
    with 10 here) and whose value commitment begins with 0x01. *)
Definition wrong_generator_commitment : commitment_t :=
  {| have_commitments := true; asset_id := lbtc; value := 5000;
     blinding_key := 2 :: repeat 1 32; asset_generator := 11 :: repeat 3 32;
     value_commitment := 1 :: repeat 0 32; hmac := repeat 0 32 |}.

Definition commitments_wrong_generator : list commitment_t :=
  [wrong_generator_commitment; no_commitment; no_commitment].

(** One input and two scriptless plaintext outputs, of 2^64 - 1 and of 2. *)
Definition fee_output_max : wally_tx_output :=
  {| script := None; tx_asset := 1 :: lbtc;
     tx_value := [1; 255; 255; 255; 255; 255; 255; 255; 255] |}.

Definition tx_overflow : wally_tx :=
  {| inputs := [input_a]; outputs := [fee_output_max; fee_output 2] |}.

(** [model_externals] with a parser that knows [tx_overflow]. *)
Definition overflow_externals : Externals := {|
  CHECK_NETWORK_CONSISTENT := @CHECK_NETWORK_CONSISTENT model_externals;
  wally_tx_from_bytes txbytes :=
    match txbytes with
    | [3] => Some tx_overflow
    | _ => None
    end;
  wally_tx_confidential_value_to_satoshi :=
    @wally_tx_confidential_value_to_satoshi model_externals;
  validate_change_paths := @validate_change_paths model_externals;
  get_script_flavour := @get_script_flavour model_externals;
  update_aggregate_scripts_flavour := @update_aggregate_scripts_flavour model_externals;
  wallet_get_elements_tx_input_hash := @wallet_get_elements_tx_input_hash model_externals;
  wallet_get_signer_commitment := @wallet_get_signer_commitment model_externals;
  mbedtls_sha256_starts_ret := @mbedtls_sha256_starts_ret model_externals;
  mbedtls_sha256_update_ret := @mbedtls_sha256_update_ret model_externals;
  mbedtls_sha256_finish_ret := @mbedtls_sha256_finish_ret model_externals;
  SIGN_TX_ACCEPT_OUTPUTS := @SIGN_TX_ACCEPT_OUTPUTS model_externals;
  BTN_ACCEPT_SIGNATURE := @BTN_ACCEPT_SIGNATURE model_externals;
  WARN_MSG_MIXED_INPUTS := @WARN_MSG_MIXED_INPUTS model_externals
|}.

Definition request_overflow : sign_request :=
  request [3] 1 [no_commitment; no_commitment] false.

End SampleDivergence.

(* ================================================================== *)
(** * Properties *)
(* ================================================================== *)

(* ------------------------------------------------------------------ *)
(** ** The network table *)
(* ------------------------------------------------------------------ *)

Module NetworkFacts.
Import Network.

Section Facts.
Context {tags : Tags} {wally : WallyConstants}.

Lemma valid_is_some (network : option string) :
  isValidNetwork network = true -> exists n, network = Some n.
Proof.
  destruct network as [n|]; [eauto | discriminate].
Qed.

Lemma assert_valid_runs {A : Type} (n : string) (body : string -> A) :
  isValidNetwork (Some n) = true -> assert_valid (Some n) body = Some (body n).
Proof.
  intros H. unfold assert_valid. rewrite H. reflexivity.
Qed.

Lemma liquid_is_valid (network : option string) :
  isLiquidNetwork network = Some true -> isValidNetwork network = true.
Proof.
  unfold isLiquidNetwork, assert_valid.
  destruct network as [n|]; [|discriminate].
  destruct (isValidNetwork (Some n)); [reflexivity | discriminate].
Qed.

Lemma assert_liquid_runs {A : Type} (n : string) (body : string -> A) :
  isLiquidNetwork (Some n) = Some true -> assert_liquid (Some n) body = Some (body n).
Proof.
  intros H. unfold assert_liquid. rewrite H. reflexivity.
Qed.

End Facts.

(** Case analysis on the six comparisons of a network name with the tags. *)
Ltac split_tags n :=
  destruct (tag_is TAG_MAINNET n) eqn:?, (tag_is TAG_LIQUID n) eqn:?,
           (tag_is TAG_TESTNET n) eqn:?, (tag_is TAG_TESTNETLIQUID n) eqn:?,
           (tag_is TAG_LOCALTEST n) eqn:?, (tag_is TAG_LOCALTESTLIQUID n) eqn:?.

(** C8. For a network that passes [isValidNetwork], every lookup of the
    table passes its assertion and returns through one of the arms that test
    a tag, never through the closing [else] (0, NULL or SIZE_MAX); and for a
    network that passes [isLiquidNetwork], the liquid-only lookups do the
    same, [networkGetPolicyAsset] returning one of the three hard-coded
    (non-NULL) policy-asset ids. *)
Theorem lookups_never_fall_back {tags : Tags} {wally : WallyConstants}
    (network : option string) :
  isValidNetwork network = true ->
  (exists b, isTestNetwork network = Some b)
  /\ (exists b, isLiquidNetwork network = Some b)
  /\ (forall csvBlocks, from_mapping (csvBlocksExpectedForNetwork network csvBlocks))
  /\ from_mapping (networkToMinAllowedCsvBlocks network)
  /\ from_mapping (networkToId network)
  /\ from_mapping (networkToVersion network)
  /\ from_mapping (networkToP2PKHPrefix network)
  /\ from_mapping (networkToP2SHPrefix network)
  /\ (exists hrp, networkToBech32Hrp network = Some (Mapped (Some hrp)))
  /\ (isLiquidNetwork network = Some true ->
        from_mapping (networkToCAPrefix network)
        /\ (exists hrp, networkToBlech32Hrp network = Some (Mapped (Some hrp)))
        /\ (exists b, networkUsesTestnetAssets network = Some b)
        /\ (exists asset, networkGetPolicyAsset network = Some (Mapped (Some asset))
                          /\ In asset policy_assets)).
Proof.
  intros Hvalid.
  destruct (valid_is_some network Hvalid) as [n ->].
  pose proof Hvalid as Hv. cbn [isValidNetwork] in Hv.
  assert (Hliquid_part :
    isLiquidNetwork (Some n) = Some true ->
    from_mapping (networkToCAPrefix (Some n))
    /\ (exists hrp, networkToBlech32Hrp (Some n) = Some (Mapped (Some hrp)))
    /\ (exists b, networkUsesTestnetAssets (Some n) = Some b)
    /\ (exists asset, networkGetPolicyAsset (Some n) = Some (Mapped (Some asset))
                      /\ In asset policy_assets)).
  { intros Hliquid.
    unfold from_mapping, networkToCAPrefix, networkToBlech32Hrp, networkUsesTestnetAssets,
      networkGetPolicyAsset, policy_assets.
    rewrite !assert_liquid_runs by exact Hliquid.
    unfold isLiquidNetwork in Hliquid. rewrite assert_valid_runs in Hliquid by exact Hvalid.
    injection Hliquid as Hliquid.
    split_tags n; cbn in Hliquid |- *; try discriminate;
      repeat match goal with |- _ /\ _ => split end; eauto 8. }
  repeat match goal with |- _ /\ _ => split end; try exact Hliquid_part.
  all: intros;
    unfold from_mapping, csvBlocksExpectedForNetwork, networkToMinAllowedCsvBlocks,
      networkToId, networkToVersion, networkToP2PKHPrefix, networkToP2SHPrefix,
      networkToBech32Hrp, isTestNetwork, isLiquidNetwork, assert_valid, isValidNetwork;
    cbn beta.
  all: split_tags n; cbn in Hv |- *; try discriminate; eauto.
Qed.

(** C8 on the network ["testnet-liquid"], with the tags spelled as in the
    upstream firmware. *)
Lemma lookups_never_fall_back_witness :
  @isValidNetwork upstream_tags (Some "testnet-liquid"%string) = true
  /\ @networkToId upstream_tags libwally_constants (Some "testnet-liquid"%string)
     = Some (Mapped 5)
  /\ exists asset,
       @networkGetPolicyAsset upstream_tags (Some "testnet-liquid"%string)
       = Some (Mapped (Some asset)).
Proof.
  pose proof (@lookups_never_fall_back upstream_tags libwally_constants
                (Some "testnet-liquid"%string) eq_refl) as H.
  split; [reflexivity|]. split; [reflexivity|].
  destruct H as (_ & _ & _ & _ & _ & _ & _ & _ & _ & Hliquid).
  destruct (Hliquid eq_refl) as (_ & _ & _ & asset & Hasset & _).
  exists asset. exact Hasset.
Defined.

End NetworkFacts.

(* ------------------------------------------------------------------ *)
(** ** The keychain's network-type restriction *)
(* ------------------------------------------------------------------ *)

Module KeychainFacts.
Import Network Keychain NetworkFacts.

Lemma network_type_eqb_eq (a b : network_type_t) :
  network_type_eqb a b = true <-> a = b.
Proof.
  destruct a, b; cbn; split; intros H; try reflexivity; discriminate.
Qed.

Section Facts.
Context {tags : Tags}.

Lemma test_network_is_valid (network : option string) (is_test : bool) :
  isTestNetwork network = Some is_test -> isValidNetwork network = true.
Proof.
  unfold isTestNetwork, assert_valid.
  destruct network as [n|]; [|discriminate].
  destruct (isValidNetwork (Some n)); [reflexivity | discriminate].
Qed.

Lemma consistent_unfold (network : option string) (is_test : bool) (g : globals) :
  isTestNetwork network = Some is_test ->
  keychain_is_network_type_consistent network g
  = Some (network_type_eqb (network_type_restriction g) NETWORK_TYPE_NONE
          || network_type_eqb (network_type_of is_test) (network_type_restriction g)).
Proof.
  intros H. unfold keychain_is_network_type_consistent.
  rewrite (test_network_is_valid _ _ H), H. reflexivity.
Qed.

Lemma consistent_iff (network : option string) (is_test : bool) (g : globals) :
  isTestNetwork network = Some is_test ->
  keychain_is_network_type_consistent network g = Some true
  <-> network_type_restriction g = NETWORK_TYPE_NONE
      \/ network_type_restriction g = network_type_of is_test.
Proof.
  intros H. rewrite (consistent_unfold _ _ _ H).
  split.
  - intros E. injection E as E. apply orb_true_iff in E.
    destruct E as [E|E]; apply network_type_eqb_eq in E; [left | right]; congruence.
  - intros [E|E]; f_equal; apply orb_true_iff; [left | right];
      apply network_type_eqb_eq; congruence.
Qed.

Lemma set_keeps_pinned (network : option string) (g g' : globals) :
  network_type_restriction g <> NETWORK_TYPE_NONE ->
  keychain_set_network_type_restriction network g = Some g' -> g' = g.
Proof.
  intros Hpinned. unfold keychain_set_network_type_restriction.
  destruct (keychain_is_network_type_consistent network g) as [[|]|]; try discriminate.
  destruct (network_type_eqb (network_type_restriction g) NETWORK_TYPE_NONE) eqn:E.
  - apply network_type_eqb_eq in E. contradiction.
  - intros H. injection H as <-. reflexivity.
Qed.

Lemma set_restrictions_keeps_pinned (later : list (option string)) (g g' : globals) :
  network_type_restriction g <> NETWORK_TYPE_NONE ->
  set_restrictions later g = Some g' -> g' = g.
Proof.
  intros Hpinned. revert g'. induction later as [|network rest IH]; cbn; intros g' H.
  - congruence.
  - destruct (keychain_set_network_type_restriction network g) as [g1|] eqn:E;
      [|discriminate].
    apply (set_keeps_pinned _ _ _ Hpinned) in E. subst g1. auto.
Qed.

Lemma set_when_unrestricted (network : option string) (is_test : bool) (g g' : globals) :
  isTestNetwork network = Some is_test ->
  network_type_restriction g = NETWORK_TYPE_NONE ->
  keychain_set_network_type_restriction network g = Some g' ->
  network_type_restriction g'
  = if is_loaded g then network_type_of is_test else NETWORK_TYPE_NONE.
Proof.
  intros Htest Hnone. unfold keychain_set_network_type_restriction.
  rewrite (consistent_unfold _ _ _ Htest), Hnone, Htest. cbn.
  destruct (keychain_has_pin g).
  - destruct (keychain_has_temporary g) as [[|]|]; cbn; try discriminate;
      intros H; injection H as <-; cbn; destruct (is_loaded g) eqn:L;
      unfold is_loaded in *; cbn in *; try rewrite L; cbn; congruence.
  - intros H; injection H as <-. destruct (is_loaded g); cbn; congruence.
Qed.

End Facts.

(** C10. [keychain_set_network_type_restriction] changes the restriction
    only when it is NONE, setting it (for a loaded wallet) to TEST or MAIN
    according to the passed network, and leaves a restriction that is not
    NONE as it is; [keychain_is_network_type_consistent] holds exactly when
    the restriction is NONE or equals the class of the passed network; so
    once the restriction is TEST or MAIN it stays through every later
    request to set it, and a network of the other class is inconsistent.
    [keychain_clear_network_type_restriction] is what ends this: it leaves
    the keychain loaded and the restriction NONE, so that the passed network
    is consistent again. *)
Theorem network_type_restriction_monotone {tags : Tags}
    (network : option string) (is_test : bool) (g : globals) :
  isTestNetwork network = Some is_test ->
  (keychain_is_network_type_consistent network g = Some true
   <-> network_type_restriction g = NETWORK_TYPE_NONE
       \/ network_type_restriction g = network_type_of is_test)
  /\ (forall g', keychain_set_network_type_restriction network g = Some g' ->
        (network_type_restriction g <> NETWORK_TYPE_NONE -> g' = g)
        /\ (network_type_restriction g = NETWORK_TYPE_NONE ->
              network_type_restriction g'
              = if is_loaded g then network_type_of is_test else NETWORK_TYPE_NONE))
  /\ (network_type_restriction g <> NETWORK_TYPE_NONE ->
      forall later g', set_restrictions later g = Some g' ->
        network_type_restriction g' = network_type_restriction g
        /\ (network_type_restriction g <> network_type_of is_test ->
              keychain_is_network_type_consistent network g' = Some false
              /\ keychain_set_network_type_restriction network g' = None))
  /\ (forall g', keychain_clear_network_type_restriction g = Some g' ->
        keychain_data g' = keychain_data g
        /\ network_type_restriction g' = NETWORK_TYPE_NONE
        /\ keychain_is_network_type_consistent network g' = Some true).
Proof.
  intros Htest. split; [exact (consistent_iff _ _ _ Htest)|]. split; [|split].
  - intros g' Hset. split.
    + intros Hpinned. exact (set_keeps_pinned _ _ _ Hpinned Hset).
    + intros Hnone. exact (set_when_unrestricted _ _ _ _ Htest Hnone Hset).
  - intros Hpinned later g' Hlater.
    apply (set_restrictions_keeps_pinned _ _ _ Hpinned) in Hlater. subst g'.
    split; [reflexivity|]. intros Hother.
    assert (Hno : keychain_is_network_type_consistent network g = Some false).
    { rewrite (consistent_unfold _ _ _ Htest). f_equal.
      apply orb_false_iff. split.
      - destruct (network_type_eqb _ NETWORK_TYPE_NONE) eqn:E; [|reflexivity].
        apply network_type_eqb_eq in E. contradiction.
      - destruct (network_type_eqb (network_type_of is_test) _) eqn:E; [|reflexivity].
        apply network_type_eqb_eq in E. congruence. }
    split; [exact Hno|].
    unfold keychain_set_network_type_restriction. rewrite Hno. reflexivity.
  - intros g' Hclear.
    assert (Hshape : keychain_data g' = keychain_data g
                     /\ network_type_restriction g' = NETWORK_TYPE_NONE).
    { unfold keychain_clear_network_type_restriction in Hclear.
      destruct (keychain_has_temporary g) as [temporary|]; [|discriminate].
      injection Hclear as <-. destruct (negb temporary); cbn; auto. }
    destruct Hshape as [Hdata Hnone].
    split; [exact Hdata|]. split; [exact Hnone|].
    apply (consistent_iff _ _ _ Htest). left. exact Hnone.
Qed.

(** C10 on a fresh wallet that a ["testnet"] session pins: the restriction
    becomes TEST, later requests keep it, and ["mainnet"] is inconsistent. *)
Lemma network_type_restriction_monotone_witness :
  exists pinned,
    @keychain_set_network_type_restriction upstream_tags (Some "testnet"%string) fresh_wallet
    = Some pinned
    /\ network_type_restriction pinned = NETWORK_TYPE_TEST
    /\ @keychain_is_network_type_consistent upstream_tags (Some "mainnet"%string) pinned
       = Some false.
Proof.
  pose proof (@network_type_restriction_monotone upstream_tags
                (Some "testnet"%string) true fresh_wallet eq_refl) as (_ & Hset & _).
  destruct (@keychain_set_network_type_restriction upstream_tags
              (Some "testnet"%string) fresh_wallet) as [pinned|] eqn:E; [|discriminate].
  exists pinned. split; [reflexivity|].
  destruct (Hset pinned eq_refl) as (_ & Hnone).
  specialize (Hnone eq_refl). cbn in Hnone. split; [exact Hnone|].
  assert (Hpinned : network_type_restriction pinned <> NETWORK_TYPE_NONE)
    by (rewrite Hnone; discriminate).
  pose proof (@network_type_restriction_monotone upstream_tags
                (Some "mainnet"%string) false pinned eq_refl) as (_ & _ & Hlater & _).
  destruct (Hlater Hpinned [] pinned eq_refl) as (_ & Hother).
  apply Hother. rewrite Hnone. discriminate.
Defined.

End KeychainFacts.

(* ------------------------------------------------------------------ *)
(** ** The commitment checks *)
(* ------------------------------------------------------------------ *)

Module CommitmentsFacts.
Import Commitments.

Lemma bytes_eqb_eq (a b : bytes) : bytes_eqb a b = true <-> a = b.
Proof.
  revert b. induction a as [|x a IH]; intros [|y b]; cbn; split; intros H;
    try reflexivity; try discriminate.
  - apply andb_true_iff in H. destruct H as [Hx Hab].
    apply Z.eqb_eq in Hx. apply IH in Hab. congruence.
  - injection H as -> ->. apply andb_true_iff. split; [apply Z.eqb_refl | now apply IH].
Qed.


Lemma sodium_memcmp_zero (a b : bytes) (len : nat) :
  (sodium_memcmp a b len =? 0) = bytes_eqb (firstn len a) (firstn len b).
Proof.
  unfold sodium_memcmp. destruct (bytes_eqb _ _); reflexivity.
Qed.

Section Facts.
Context {crypto : Crypto}.

(** The function, with its assertions discharged, as a cascade of the three
    blocks. *)
Lemma check_trusted_commitment_valid_unfold
    (hash_prevouts : bytes) (len : nat) (idx : Z) (txoutput : wally_tx_output)
    (commitments : commitment_t) (found_odd_vbf : bool) :
  well_called len idx txoutput ->
  check_trusted_commitment_valid hash_prevouts len idx txoutput commitments found_odd_vbf
  = Some
      match recompute_generator hash_prevouts idx commitments with
      | None =>
          (Failed "Failed to verify asset_generator from commitments data", found_odd_vbf)
      | Some generator_tmp =>
          if bytes_eqb (firstn ASSET_GENERATOR_LEN (asset_generator commitments))
                       (firstn ASSET_GENERATOR_LEN generator_tmp)
             && bytes_eqb (firstn ASSET_GENERATOR_LEN (tx_asset txoutput))
                          (firstn ASSET_GENERATOR_LEN generator_tmp)
          then
            match recompute_commitment hash_prevouts idx commitments generator_tmp with
            | None =>
                (Failed "Failed to verify value_commitment from commitments data",
                 found_odd_vbf)
            | Some commitment_tmp =>
                if negb (bytes_eqb (firstn ASSET_COMMITMENT_LEN (value_commitment commitments))
                                   (firstn ASSET_COMMITMENT_LEN commitment_tmp))
                   || negb (bytes_eqb (firstn ASSET_COMMITMENT_LEN (tx_value txoutput))
                                      (firstn ASSET_COMMITMENT_LEN commitment_tmp))
                then
                  if found_odd_vbf then
                    (Failed "Failed to verify value_commitment from commitments data", true)
                  else (check_hmac commitments, true)
                else (check_hmac commitments, found_odd_vbf)
            end
          else
            (Failed "Failed to verify asset_generator from commitments data", found_odd_vbf)
      end.
Proof.
  intros (Hlen & Hidx & v0 & Hv0 & Hne).
  unfold check_trusted_commitment_valid.
  rewrite Hlen, Nat.eqb_refl. cbn [negb].
  destruct (idx <? 0) eqn:E; [apply Z.ltb_lt in E; lia|].
  rewrite Hv0. destruct (v0 =? 1) eqn:E1; [apply Z.eqb_eq in E1; contradiction|].
  destruct (recompute_generator hash_prevouts idx commitments) as [g|]; [|reflexivity].
  rewrite !sodium_memcmp_zero.
  destruct (bytes_eqb (firstn ASSET_GENERATOR_LEN (asset_generator commitments)) _);
    destruct (bytes_eqb (firstn ASSET_GENERATOR_LEN (tx_asset txoutput)) _);
    cbn [negb orb andb]; try reflexivity.
  destruct (recompute_commitment hash_prevouts idx commitments g) as [c|]; [|reflexivity].
  rewrite !sodium_memcmp_zero.
  destruct (negb _ || negb _); [|reflexivity].
  destruct found_odd_vbf; reflexivity.
Qed.

Lemma generator_agrees_eqb (g : bytes) (txoutput : wally_tx_output) (c : commitment_t) :
  bytes_eqb (firstn ASSET_GENERATOR_LEN (asset_generator c)) (firstn ASSET_GENERATOR_LEN g)
  && bytes_eqb (firstn ASSET_GENERATOR_LEN (tx_asset txoutput)) (firstn ASSET_GENERATOR_LEN g)
  = true
  <-> generator_agrees g txoutput c.
Proof.
  unfold generator_agrees. rewrite andb_true_iff, !bytes_eqb_eq. reflexivity.
Qed.


(** What a passing call tells about the output. *)
Lemma check_passed_inv (h : bytes) (len : nat) (idx : Z) (txoutput : wally_tx_output)
    (c : commitment_t) (flag flag' : bool) :
  well_called len idx txoutput ->
  check_trusted_commitment_valid h len idx txoutput c flag = Some (Passed, flag') ->
  other_checks_pass h idx txoutput c = true
  /\ (value_commitment_mismatch h idx txoutput c && flag = false)
  /\ flag' = flag || value_commitment_mismatch h idx txoutput c.
Proof.
  intros Hcall. rewrite (check_trusted_commitment_valid_unfold _ _ _ _ _ _ Hcall).
  unfold other_checks_pass, value_commitment_mismatch.
  destruct (recompute_generator h idx c) as [g|]; [|discriminate].
  destruct (bytes_eqb _ _ && bytes_eqb _ _); [|discriminate].
  destruct (recompute_commitment h idx c g) as [t|]; [|discriminate].
  destruct (negb _ || negb _); destruct flag; intros E; injection E as E <-;
    try discriminate; rewrite E; auto.
Qed.

(** When a call passes. *)
Lemma check_passes (h : bytes) (len : nat) (idx : Z) (txoutput : wally_tx_output)
    (c : commitment_t) (flag : bool) :
  well_called len idx txoutput ->
  other_checks_pass h idx txoutput c = true ->
  value_commitment_mismatch h idx txoutput c && flag = false ->
  check_trusted_commitment_valid h len idx txoutput c flag
  = Some (Passed, flag || value_commitment_mismatch h idx txoutput c).
Proof.
  intros Hcall. rewrite (check_trusted_commitment_valid_unfold _ _ _ _ _ _ Hcall).
  unfold other_checks_pass, value_commitment_mismatch.
  destruct (recompute_generator h idx c) as [g|]; [|discriminate].
  destruct (bytes_eqb _ _ && bytes_eqb _ _); [|discriminate].
  destruct (recompute_commitment h idx c g) as [t|]; [|discriminate].
  cbn [andb]. intros Hhmac.
  destruct (check_hmac c); [|discriminate].
  destruct (negb _ || negb _); destruct flag; cbn; intros E;
    try discriminate; reflexivity.
Qed.

(** A second mismatch fails, whatever else holds. *)
Lemma check_second_mismatch (h : bytes) (len : nat) (idx : Z) (txoutput : wally_tx_output)
    (c : commitment_t) (r : verdict) (flag' : bool) :
  value_commitment_mismatch h idx txoutput c = true ->
  check_trusted_commitment_valid h len idx txoutput c true = Some (r, flag') ->
  passed r = false.
Proof.
  intros Hmis Hcheck.
  destruct r; [|reflexivity]. exfalso.
  assert (Hcall : well_called len idx txoutput).
  { unfold check_trusted_commitment_valid in Hcheck. unfold well_called.
    destruct (len =? SHA256_LEN)%nat eqn:E1; [|discriminate].
    apply Nat.eqb_eq in E1. cbn [negb] in Hcheck.
    destruct (idx <? 0) eqn:E2; [discriminate|]. apply Z.ltb_ge in E2.
    destruct (value_prefix txoutput) as [v0|]; [|discriminate].
    destruct (v0 =? 1) eqn:E3; [discriminate|]. apply Z.eqb_neq in E3.
    eauto. }
  destruct (check_passed_inv _ _ _ _ _ _ _ Hcall Hcheck) as (_ & Hflag & _).
  rewrite Hmis in Hflag. discriminate.
Qed.

(** A second mismatch on an output that passes every other check fails
    with the value-commitment message. *)
Lemma check_fails_on_second (h : bytes) (len : nat) (idx : Z) (txoutput : wally_tx_output)
    (c : commitment_t) :
  well_called len idx txoutput ->
  other_checks_pass h idx txoutput c = true ->
  value_commitment_mismatch h idx txoutput c = true ->
  check_trusted_commitment_valid h len idx txoutput c true
  = Some (Failed "Failed to verify value_commitment from commitments data", true).
Proof.
  intros Hcall. rewrite (check_trusted_commitment_valid_unfold _ _ _ _ _ _ Hcall).
  unfold other_checks_pass, value_commitment_mismatch.
  destruct (recompute_generator h idx c) as [g|]; [|discriminate].
  destruct (bytes_eqb _ _ && bytes_eqb _ _); [|discriminate].
  destruct (recompute_commitment h idx c g) as [t|]; [|discriminate].
  intros _ ->. reflexivity.
Qed.

End Facts.

End CommitmentsFacts.

(* ------------------------------------------------------------------ *)
(** ** The process monad *)
(* ------------------------------------------------------------------ *)

Module MonadFacts.
Import Commitments SignLiquidTx.

Lemma add_trace_nil (s : pstate) : add_trace s [] = s.
Proof.
  destruct s. unfold add_trace. cbn. rewrite app_nil_r. reflexivity.
Qed.

Lemma bind_ret_inv {A B : Type} (m : M A) (k : A -> M B) (s s' : pstate) (b : B) :
  bind m k s = (Ret b, s') ->
  exists a s1, m s = (Ret a, s1) /\ k a s1 = (Ret b, s').
Proof.
  unfold bind. destruct (m s) as [[a| | |] s1]; intros H; try discriminate. eauto.
Qed.

Lemma bind_ret {A B : Type} (m : M A) (k : A -> M B) (s s1 : pstate) (a : A) :
  m s = (Ret a, s1) -> bind m k s = k a s1.
Proof.
  intros H. unfold bind. rewrite H. reflexivity.
Qed.

(** *** [silent] *)

Lemma silent_ret {A : Type} (a : A) : silent (ret a).
Proof. intros s. reflexivity. Qed.

Lemma silent_abort {A : Type} : silent (@abort A).
Proof. intros s. reflexivity. Qed.

Lemma silent_reject {A : Type} (code : rpc_error) (message : string) :
  silent (@reject A code message).
Proof. intros s. cbv. do 2 eexists. reflexivity. Qed.

Lemma silent_assert (b : bool) : silent (JADE_ASSERT b).
Proof. destruct b; [apply silent_ret | apply silent_abort]. Qed.

Lemma silent_load {A : Type} (a : list A) (i : nat) : silent (load a i).
Proof.
  unfold load. destruct (nth_error a i); [apply silent_ret | apply silent_abort].
Qed.

Lemma silent_bind {A B : Type} (m : M A) (k : A -> M B) :
  silent m -> (forall a, silent (k a)) -> silent (bind m k).
Proof.
  intros Hm Hk s. unfold bind. specialize (Hm s).
  destruct (m s) as [[a| | |] s1]; try assumption.
  subst s1. apply Hk.
Qed.

Lemma silent_ret_inv {A : Type} (m : M A) (s s' : pstate) (a : A) :
  silent m -> m s = (Ret a, s') -> s' = s.
Proof.
  intros H E. specialize (H s). rewrite E in H. exact H.
Qed.

(** *** [emits_only] *)

Section EmitsOnly.
Variable P : action -> bool.

Lemma emits_only_ret {A : Type} (a : A) : emits_only P (ret a).
Proof. intros s. exists [], []. cbn. rewrite app_nil_r. auto. Qed.

Lemma emits_only_abort {A : Type} : emits_only P (@abort A).
Proof. intros s. exists [], []. cbn. rewrite app_nil_r. auto. Qed.

Lemma emits_only_assert (b : bool) : emits_only P (JADE_ASSERT b).
Proof. destruct b; [apply emits_only_ret | apply emits_only_abort]. Qed.

Lemma emits_only_list_load {A : Type} (a : list A) (i : nat) : emits_only P (load a i).
Proof.
  unfold load. destruct (nth_error a i); [apply emits_only_ret | apply emits_only_abort].
Qed.

Lemma emits_only_emit (a : action) : P a = true -> emits_only P (emit a).
Proof. intros H s. exists [a], []. cbn. rewrite H. auto. Qed.

Lemma emits_only_reject {A : Type} (code : rpc_error) (message : string) :
  (forall on, P (Reject on code message) = true) -> emits_only P (@reject A code message).
Proof.
  intros H s. exists [Reject (current s) code message], []. cbn. rewrite H. auto.
Qed.

Lemma emits_only_reply_ok :
  (forall on, P (ReplyOk on) = true) -> emits_only P jade_process_reply_to_message_ok.
Proof. intros H s. exists [ReplyOk (current s)], []. cbn. rewrite H. auto. Qed.

Lemma emits_only_reply_bytes (data : bytes) :
  (forall on, P (ReplyBytes on data) = true) ->
  emits_only P (jade_process_reply_to_message_bytes data).
Proof. intros H s. exists [ReplyBytes (current s) data], []. cbn. rewrite H. auto. Qed.

Lemma emits_only_bind {A B : Type} (m : M A) (k : A -> M B) :
  emits_only P m -> (forall a, emits_only P (k a)) -> emits_only P (bind m k).
Proof.
  intros Hm Hk s. unfold bind. destruct (Hm s) as (t & c & Ht & HP & Hc).
  destruct (m s) as [[a| | |] s1]; cbn in *; eauto.
  destruct (Hk a s1) as (t' & c' & Ht' & HP' & Hc').
  exists (t ++ t'), (c ++ c').
  rewrite Ht', Ht, Hc, Hc', !app_assoc, forallb_app, HP, HP'. auto.
Qed.

Lemma emits_only_silent {A : Type} (m : M A) :
  (forall on code message, P (Reject on code message) = true) ->
  silent m -> emits_only P m.
Proof.
  intros HP Hm s. specialize (Hm s).
  destruct (m s) as [[a| | |] s1]; cbn.
  - subst. exists [], []. rewrite app_nil_r. auto.
  - destruct Hm as (code & message & ->).
    exists [Reject (current s) code message], []. cbn. rewrite HP. auto.
  - contradiction.
  - subst. exists [], []. rewrite app_nil_r. auto.
Qed.

Lemma emits_only_load :
  (forall m, P (LoadInMessage m) = true) -> emits_only P jade_process_load_in_message.
Proof.
  intros HP s. unfold jade_process_load_in_message.
  destruct (inbox s) as [|m rest] eqn:E; cbn.
  - exists [], []. rewrite app_nil_r, E. auto.
  - exists [LoadInMessage m], [m]. cbn. rewrite HP. auto.
Qed.

End EmitsOnly.

End MonadFacts.

(* ------------------------------------------------------------------ *)
(** ** The stages of [sign_liquid_tx_process] *)
(* ------------------------------------------------------------------ *)

Module StageFacts.
Import Network Commitments SignLiquidTx MonadFacts CommitmentsFacts.

(** Decides [silent] goals by following the shape of the code. *)
Ltac silent_step :=
  first
    [ apply silent_ret | apply silent_abort | apply silent_reject | apply silent_assert
    | apply silent_load | apply silent_bind; [|intros]
    | match goal with
      | |- silent (match ?x with _ => _ end) => destruct x
      | |- silent (if ?b then _ else _) => destruct b
      end ].
Ltac silent_tac := repeat silent_step.

(** Splits a run that fell through into the runs of its parts. *)
Ltac bind_inv H :=
  let a := fresh "a" in
  let s := fresh "s" in
  let E := fresh "E" in
  apply bind_ret_inv in H; destruct H as (a & s & E & H).
Ltac bind_inv_as H a E :=
  let s := fresh "s" in
  apply bind_ret_inv in H; destruct H as (a & s & E & H).

Lemma nth_error_skipn {A : Type} (l : list A) (i : nat) (x : A) :
  nth_error l i = Some x -> skipn i l = x :: skipn (S i) l.
Proof.
  revert i. induction l as [|y l IH]; intros [|i]; cbn; intros H; try discriminate.
  - congruence.
  - rewrite (IH i H). destruct l; reflexivity.
Qed.

Lemma skipn_store {A : Type} (l : list A) (i : nat) (x : A) :
  skipn (S i) (store i x l) = skipn (S i) l.
Proof.
  revert i. induction l as [|y l IH]; intros [|i]; try reflexivity.
  cbn [store]. change (skipn (S (S i)) (y :: ?t)) with (skipn (S i) t). apply IH.
Qed.

Lemma length_store {A : Type} (l : list A) (i : nat) (x : A) :
  List.length (store i x l) = List.length l.
Proof.
  revert i. induction l as [|y l IH]; intros [|i]; cbn; auto.
Qed.

Lemma load_ret_inv {A : Type} (l : list A) (i : nat) (x : A) (s s' : pstate) :
  load l i s = (Ret x, s') -> nth_error l i = Some x /\ s' = s.
Proof.
  unfold load. destruct (nth_error l i); cbv; intros H; inversion H; auto.
Qed.

Section Facts.
Context {tags : Tags} {crypto : Crypto} {ext : Externals}.

Lemma silent_parse_request (req : sign_request) : silent (parse_request req).
Proof. unfold parse_request. silent_tac. Qed.

Lemma silent_populate_output_info (n i : nat) (tx : wally_tx) (cs : list commitment_t)
    (oi : list output_info_t) (fees : Z) :
  silent (populate_output_info n i tx cs oi fees).
Proof.
  revert i tx oi fees. induction n as [|n IH]; intros; cbn [populate_output_info].
  - apply silent_ret.
  - silent_tac; apply IH.
Qed.

Lemma silent_check_commitments (n i : nat) (tx : wally_tx) (cs : list commitment_t)
    (h : bytes) (flag : bool) :
  silent (check_commitments n i tx cs h flag).
Proof.
  revert i flag. induction n as [|n IH]; intros; cbn [check_commitments].
  - apply silent_ret.
  - silent_tac; apply IH.
Qed.

Lemma silent_finalize_hash_prevouts (ctx : bytes) : silent (finalize_hash_prevouts ctx).
Proof. unfold finalize_hash_prevouts. silent_tac. Qed.

Lemma silent_read_path_fields (m : in_message) (ae : bool) (d : signing_data_t)
    (f : script_flavour_t) :
  silent (read_path_fields m ae d f).
Proof. unfold read_path_fields. silent_tac. Qed.

Lemma silent_update_hash_prevouts (ctx : bytes) (input : wally_tx_input) :
  silent (update_hash_prevouts ctx input).
Proof. unfold update_hash_prevouts. silent_tac. Qed.

Lemma silent_read_value_commitment (m : in_message) (has_path is_witness : bool) :
  silent (read_value_commitment m has_path is_witness).
Proof. unfold read_value_commitment. silent_tac. Qed.

Lemma silent_make_signature_hash (tx : wally_tx) (index : nat) (w ae : bool)
    (f : path_fields) (vc : option bytes) :
  silent (make_signature_hash tx index w ae f vc).
Proof. unfold make_signature_hash. silent_tac. Qed.

Lemma reject_not_ret {A : Type} (code : rpc_error) (message : string) (s s' : pstate)
    (a : A) :
  reject code message s = (Ret a, s') -> False.
Proof. cbv. discriminate. Qed.

Lemma abort_not_ret {A : Type} (s s' : pstate) (a : A) : abort s = (Ret a, s') -> False.
Proof. cbv. discriminate. Qed.

Lemma ret_inv {A : Type} (a b : A) (s s' : pstate) : ret a s = (Ret b, s') -> a = b /\ s = s'.
Proof. cbv. intros H. inversion H. auto. Qed.

Lemma assert_ret_inv (b : bool) (s s' : pstate) (u : unit) :
  JADE_ASSERT b s = (Ret u, s') -> b = true /\ s' = s.
Proof. destruct b; cbv; intros H; inversion H; auto. Qed.

(** What holds once the parsing stage has fallen through. *)
Lemma parse_request_ret (req : sign_request) (p : parsed) (s s' : pstate) :
  parse_request req s = (Ret p, s') ->
  s' = s
  /\ CHECK_NETWORK_CONSISTENT (req_network req) = None
  /\ isLiquidNetwork (req_network req) = Some true
  /\ (exists txbytes, req_txn req = Some txbytes /\ wally_tx_from_bytes txbytes = Some (tx p))
  /\ req_num_inputs req = Some (num_inputs p)
  /\ num_inputs p <> 0
  /\ num_inputs p = num_inputs_of (tx p)
  /\ commitments p = req_trusted_commitments req
  /\ Z.of_nat (List.length (commitments p)) = num_outputs_of (tx p)
  /\ network p = req_network req
  /\ use_ae_signatures p
     = match req_use_ae_signatures req with Some b => b | None => false end
  /\ output_info p = output_info_before req (tx p).
Proof.
  intros H. pose proof (silent_ret_inv _ _ _ _ (silent_parse_request req) H) as ->.
  split; [reflexivity|].
  unfold parse_request in H. bind_inv H. apply assert_ret_inv in E. destruct E as [_ ->].
  destruct (CHECK_NETWORK_CONSISTENT (req_network req)) as [[code message]|] eqn:Hnet;
    [apply reject_not_ret in H; contradiction|].
  destruct (isLiquidNetwork (req_network req)) as [[|]|] eqn:Hliquid;
    [| apply reject_not_ret in H; contradiction | apply abort_not_ret in H; contradiction].
  destruct (req_txn req) as [[|b txbytes]|] eqn:Htxn;
    try (apply reject_not_ret in H; contradiction).
  destruct (wally_tx_from_bytes (b :: txbytes)) as [tx0|] eqn:Htx;
    [|apply reject_not_ret in H; contradiction].
  destruct (req_num_inputs req) as [n|] eqn:Hn;
    [|apply reject_not_ret in H; contradiction].
  destruct (n =? 0) eqn:Hn0; [apply reject_not_ret in H; contradiction|].
  destruct (n =? num_inputs_of tx0) eqn:Hneq; cbn [negb] in H;
    [|apply reject_not_ret in H; contradiction].
  destruct (Z.of_nat (List.length (req_trusted_commitments req)) =? 0) eqn:Hc0;
    [apply reject_not_ret in H; contradiction|].
  destruct (Z.of_nat (List.length (req_trusted_commitments req)) =? num_outputs_of tx0)
    eqn:Hceq; cbn [negb] in H; [|apply reject_not_ret in H; contradiction].
  bind_inv H.
  destruct (mbedtls_sha256_starts_ret =? 0); cbn [negb] in H;
    [|apply reject_not_ret in H; contradiction].
  apply ret_inv in H. destruct H as [<- _]. cbn.
  apply Z.eqb_neq in Hn0. apply Z.eqb_eq in Hneq, Hceq.
  repeat match goal with |- _ /\ _ => split end; eauto.
  unfold output_info_before. cbn [tx].
  destruct (req_change req) as [change|].
  - destruct (validate_change_paths _ _ _ _) as [[|errmsg] oi]; cbn [snd];
      [|apply reject_not_ret in E; contradiction].
    apply ret_inv in E. destruct E as [<- _]. reflexivity.
  - apply ret_inv in E. destruct E as [<- _]. reflexivity.
Qed.

Lemma fee_sum_cons (txoutput : wally_tx_output) (outs : list wally_tx_output)
    (info : output_info_t) (before : list output_info_t) :
  fee_sum (txoutput :: outs) (info :: before)
  = (if is_fee_output txoutput then satoshi_value txoutput info else 0)
    + fee_sum outs before.
Proof.
  unfold fee_sum. cbn [combine filter fst snd].
  destruct (is_fee_output txoutput); reflexivity.
Qed.

(** The fee total the output-info loop arrives at. *)
Lemma populate_output_info_fees (n i : nat) (tx : wally_tx) (cs : list commitment_t)
    (oi : list output_info_t) (fees : Z) (s : pstate)
    (tx' : wally_tx) (oi' : list output_info_t) (fees' : Z) (s' : pstate) :
  populate_output_info n i tx cs oi fees s = (Ret (tx', oi', fees'), s') ->
  fees mod 2 ^ 64 = fees ->
  fees' = (fees + fee_sum (firstn n (skipn i (outputs tx))) (skipn i oi)) mod 2 ^ 64.
Proof.
  revert i tx oi fees. induction n as [|n IH]; intros i tx oi fees H Hfees.
  - apply ret_inv in H. destruct H as [H _]. injection H as _ _ <-.
    cbn. rewrite Z.add_0_r. symmetry. exact Hfees.
  - cbn [populate_output_info] in H.
    bind_inv H. apply load_ret_inv in E. destruct E as [Hout ->].
    bind_inv H. apply load_ret_inv in E. destruct E as [Hinfo ->].
    rewrite (nth_error_skipn _ _ _ Hout), (nth_error_skipn _ _ _ Hinfo).
    cbn [firstn]. rewrite fee_sum_cons.
    unfold is_fee_output, is_plaintext, has_script, satoshi_value.
    destruct (value_prefix a) as [v0|] eqn:Hv0; [|apply abort_not_ret in H; contradiction].
    destruct (v0 =? 1) eqn:Hplain.
    + apply IH in H.
      * rewrite H. rewrite skipn_store. cbn [oi_value andb].
        destruct (script a); cbn [negb]; unfold uint64_add.
        -- rewrite Z.add_0_l. reflexivity.
        -- rewrite Zplus_mod_idemp_l, Z.add_assoc. reflexivity.
      * cbn [oi_value]. destruct (script a); [exact Hfees|].
        unfold uint64_add. apply Z.mod_mod. lia.
    + bind_inv H. apply load_ret_inv in E. destruct E as [_ ->].
      destruct (add_confidential_output_info _ _ _) as [[[[|errmsg] txoutput] outinfo]|];
        [| apply reject_not_ret in H; contradiction
         | apply abort_not_ret in H; contradiction].
      apply IH in H; [|exact Hfees].
      rewrite H. cbn [outputs set_outputs andb]. rewrite !skipn_store, Z.add_0_l.
      reflexivity.
Qed.

(** The loop falls through without a trace. *)
Lemma populate_output_info_state (n i : nat) (tx : wally_tx) (cs : list commitment_t)
    (oi : list output_info_t) (fees : Z) (s s' : pstate)
    (r : wally_tx * list output_info_t * Z) :
  populate_output_info n i tx cs oi fees s = (Ret r, s') -> s' = s.
Proof. apply silent_ret_inv, silent_populate_output_info. Qed.

(** *** The input loop *)

Lemma load_in_message_ret (m : in_message) (s s1 : pstate) :
  jade_process_load_in_message s = (Ret m, s1) ->
  inbox s = m :: inbox s1 /\ current s1 = in_id m
  /\ trace s1 = trace s ++ [LoadInMessage m].
Proof.
  unfold jade_process_load_in_message.
  destruct (inbox s) as [|m0 rest]; intros H; inversion H; subst. cbn. auto.
Qed.

Lemma update_hash_prevouts_ret (ctx ctx' : bytes) (input : wally_tx_input) (s s' : pstate) :
  update_hash_prevouts ctx input s = (Ret ctx', s') ->
  ctx' = ctx ++ prevout_bytes input /\ s' = s.
Proof.
  intros H. split; [|exact (silent_ret_inv _ _ _ _ (silent_update_hash_prevouts _ _) H)].
  unfold update_hash_prevouts in H.
  destruct (mbedtls_sha256_update_ret ctx _ =? 0); cbn [negb] in H;
    [|apply reject_not_ret in H; contradiction].
  destruct (mbedtls_sha256_update_ret (ctx ++ _) _ =? 0); cbn [negb] in H;
    [|apply reject_not_ret in H; contradiction].
  apply ret_inv in H. destruct H as [<- _]. unfold prevout_bytes.
  rewrite app_assoc. reflexivity.
Qed.

(** What an iteration that falls through has done after loading its
    message: it absorbed the prevout of the input it is at and, with
    anti-exfil signatures, sent one reply on the current message. *)
Lemma handle_tx_input_ret (tx : wally_tx) (ae : bool) (index : nat) (st st' : input_state)
    (m : in_message) (s s' : pstate) :
  handle_tx_input tx ae index st m s = (Ret st', s') ->
  exists input data,
    nth_error (inputs tx) index = Some input
    /\ hash_prevout_sha_ctx st' = hash_prevout_sha_ctx st ++ prevout_bytes input
    /\ List.length (all_signing_data st') = List.length (all_signing_data st)
    /\ s' = add_trace s (if ae then [ReplyBytes (current s) data] else []).
Proof.
  intros H. unfold handle_tx_input in H.
  bind_inv_as H d0 E. apply load_ret_inv in E. destruct E as [_ ->].
  bind_inv_as H u E. apply assert_ret_inv in E. destruct E as [_ ->].
  destruct (in_is_witness m) as [is_witness|];
    [|apply reject_not_ret in H; contradiction].
  bind_inv_as H f E. apply (silent_ret_inv _ _ _ _ (silent_read_path_fields _ _ _ _)) in E.
  subst. bind_inv_as H input E. apply load_ret_inv in E. destruct E as [Hinput ->].
  bind_inv_as H ctx E. apply update_hash_prevouts_ret in E. destruct E as [-> ->].
  bind_inv_as H vc E.
  apply (silent_ret_inv _ _ _ _ (silent_read_value_commitment _ _ _)) in E.
  subst. bind_inv_as H signed E.
  apply (silent_ret_inv _ _ _ _ (silent_make_signature_hash _ _ _ _ _ _)) in E. subst.
  destruct signed as [sig_data ae_signer_commitment].
  bind_inv_as H u' E. apply ret_inv in H. destruct H as [<- <-]. cbn.
  rewrite length_store.
  destruct ae.
  - eexists input, _. repeat split; try assumption.
    cbv in E. inversion E. reflexivity.
  - exists input, []. repeat split; try assumption.
    apply ret_inv in E. destruct E as [_ <-]. symmetry. apply add_trace_nil.
Qed.

Lemma stream_input_ret (tx : wally_tx) (ae : bool) (index : nat) (st st' : input_state)
    (s s' : pstate) :
  stream_input tx ae index st s = (Ret st', s') ->
  exists m input data,
    inbox s = m :: inbox s' /\ in_method m = "tx_input"%string
    /\ nth_error (inputs tx) index = Some input
    /\ hash_prevout_sha_ctx st' = hash_prevout_sha_ctx st ++ prevout_bytes input
    /\ List.length (all_signing_data st') = List.length (all_signing_data st)
    /\ current s' = in_id m
    /\ trace s'
       = trace s ++ LoadInMessage m :: (if ae then [ReplyBytes (in_id m) data] else []).
Proof.
  intros H. unfold stream_input in H. bind_inv H.
  apply load_in_message_ret in E. destruct E as (Hinbox & Hcur & Htrace).
  destruct (in_method a =? "tx_input")%string eqn:Hkind; cbn [negb] in H;
    [|apply reject_not_ret in H; contradiction].
  apply String.eqb_eq in Hkind.
  apply handle_tx_input_ret in H. destruct H as (input & data & Hin & Hctx & Hlen & ->).
  exists a, input, data. cbn. rewrite Htrace, Hcur, <- app_assoc.
  repeat split; assumption.
Qed.

(** What the whole loop has done when it falls through: it loaded exactly
    [n] messages, all of them ["tx_input"], and absorbed the prevouts of
    the inputs [index], ..., [index + n - 1] in that order. *)
Lemma stream_inputs_ret (n index : nat) (tx : wally_tx) (ae : bool) (st st' : input_state)
    (s s' : pstate) :
  stream_inputs n index tx ae st s = (Ret st', s') ->
  exists consumed t,
    inbox s = consumed ++ inbox s'
    /\ List.length consumed = n
    /\ Forall (fun m => in_method m = "tx_input"%string) consumed
    /\ trace s' = trace s ++ t
    /\ loaded t = consumed
    /\ forallb quiet t = true
    /\ hash_prevout_sha_ctx st'
       = hash_prevout_sha_ctx st
         ++ List.concat (map prevout_bytes (firstn n (skipn index (inputs tx)))).
Proof.
  revert index st s. induction n as [|n IH]; intros index st s H; cbn [stream_inputs] in H.
  - apply ret_inv in H. destruct H as [<- <-]. exists [], [].
    cbn. rewrite !app_nil_r. repeat split; auto.
  - bind_inv H. apply stream_input_ret in E.
    destruct E as (m & input & data & Hinbox & Hkind & Hin & Hctx & _ & _ & Htrace).
    apply IH in H.
    destruct H as (consumed & t & Hinbox' & Hlen & Hall & Htrace' & Hloaded & Hquiet
                   & Hctx').
    exists (m :: consumed),
      (LoadInMessage m :: (if ae then [ReplyBytes (in_id m) data] else []) ++ t).
    rewrite Hinbox, Hinbox', Htrace', Htrace, Hctx', Hctx.
    rewrite (nth_error_skipn _ _ _ Hin). cbn [firstn map List.concat List.length].
    rewrite <- !app_assoc. cbn [app].
    repeat split; auto.
    + destruct ae; cbn; f_equal; exact Hloaded.
    + destruct ae; cbn; exact Hquiet.
Qed.

Lemma stream_input_blocked (tx : wally_tx) (ae : bool) (index : nat) (st : input_state)
    (s : pstate) :
  inbox s = [] -> stream_input tx ae index st s = (Blocked, s).
Proof.
  intros H. unfold stream_input, bind, jade_process_load_in_message. rewrite H. reflexivity.
Qed.

Lemma stream_input_tx_input (tx : wally_tx) (ae : bool) (index : nat) (st : input_state)
    (s : pstate) (m : in_message) (rest : list in_message) :
  inbox s = m :: rest -> in_method m = "tx_input"%string ->
  stream_input tx ae index st s = handle_tx_input tx ae index st m (after_load s m rest).
Proof.
  intros H Hm. unfold stream_input, bind, jade_process_load_in_message.
  rewrite H, Hm. reflexivity.
Qed.

Lemma stream_input_wrong_kind (tx : wally_tx) (ae : bool) (index : nat) (st : input_state)
    (s : pstate) (m : in_message) (rest : list in_message) :
  inbox s = m :: rest -> in_method m <> "tx_input"%string ->
  stream_input tx ae index st s
  = (Cleanup,
     add_trace (after_load s m rest)
       [Reject (in_id m) CBOR_RPC_PROTOCOL_ERROR
          "Unexpected message, expecting 'tx_input'"%string]).
Proof.
  intros H Hm. unfold stream_input, bind at 1, jade_process_load_in_message.
  rewrite H. apply String.eqb_neq in Hm. rewrite Hm. reflexivity.
Qed.

(** *** What the stages may send *)

Section Emits.
Variable P : action -> bool.
Hypothesis P_bad : forall on message, P (Reject on CBOR_RPC_BAD_PARAMETERS message) = true.
Hypothesis P_internal :
  forall on message, P (Reject on CBOR_RPC_INTERNAL_ERROR message) = true.
Hypothesis P_reply_bytes : forall on data, P (ReplyBytes on data) = true.

Ltac emits_step :=
  first
    [ apply emits_only_ret | apply emits_only_abort | apply emits_only_assert
    | apply emits_only_list_load
    | apply emits_only_reject; intros; first [apply P_bad | apply P_internal]
    | apply emits_only_reply_bytes; intros; apply P_reply_bytes
    | apply emits_only_bind; [|intros]
    | match goal with
      | |- emits_only _ (match ?x with _ => _ end) => destruct x
      | |- emits_only _ (if ?b then _ else _) => destruct b
      end ].

Lemma handle_tx_input_emits (tx : wally_tx) (ae : bool) (index : nat) (st : input_state)
    (m : in_message) :
  emits_only P (handle_tx_input tx ae index st m).
Proof.
  unfold handle_tx_input, read_path_fields, update_hash_prevouts, read_value_commitment,
    make_signature_hash, BAD, INTERNAL.
  repeat emits_step.
Qed.

(** As long as the host sends ["tx_input"] messages, the input loop sends
    nothing outside [P]. *)
Lemma stream_inputs_emits (n index : nat) (tx : wally_tx) (ae : bool) (st : input_state)
    (s : pstate) :
  (forall m, P (LoadInMessage m) = true) ->
  Forall (fun m => in_method m = "tx_input"%string) (inbox s) ->
  exists t, trace (snd (stream_inputs n index tx ae st s)) = trace s ++ t
            /\ forallb P t = true.
Proof.
  intros P_load. revert index st s. induction n as [|n IH]; intros index st s Hall.
  - exists []. cbn. rewrite app_nil_r. auto.
  - cbn [stream_inputs]. unfold bind.
    destruct (inbox s) as [|m rest] eqn:Hinbox.
    + rewrite (stream_input_blocked _ _ _ _ _ Hinbox).
      exists []. cbn. rewrite app_nil_r. auto.
    + inversion Hall as [|? ? Hm Hrest]; subst.
      rewrite (stream_input_tx_input _ _ _ _ _ _ _ Hinbox Hm).
      destruct (handle_tx_input_emits tx ae index st m (after_load s m rest))
        as (t1 & c1 & Ht1 & HP1 & Hc1).
      destruct (handle_tx_input tx ae index st m (after_load s m rest))
        as [[st1| | |] s2]; cbn in Ht1, Hc1 |- *.
      * assert (Hall2 : Forall (fun m => in_method m = "tx_input"%string) (inbox s2)).
        { rewrite Hc1 in Hrest. apply Forall_app in Hrest. tauto. }
        destruct (IH (S index) st1 s2 Hall2) as (t2 & Ht2 & HP2).
        exists (LoadInMessage m :: t1 ++ t2).
        rewrite Ht2, Ht1. cbn. rewrite <- !app_assoc, P_load, forallb_app, HP1, HP2. auto.
      * exists (LoadInMessage m :: t1). rewrite Ht1. cbn.
        rewrite <- app_assoc, P_load, HP1. auto.
      * exists (LoadInMessage m :: t1). rewrite Ht1. cbn.
        rewrite <- app_assoc, P_load, HP1. auto.
      * exists (LoadInMessage m :: t1). rewrite Ht1. cbn.
        rewrite <- app_assoc, P_load, HP1. auto.
Qed.

End Emits.

Lemma stream_input_quiet (tx : wally_tx) (ae : bool) (index : nat) (st : input_state) :
  emits_only quiet (stream_input tx ae index st).
Proof.
  unfold stream_input. apply emits_only_bind; [apply emits_only_load; reflexivity|].
  intros m. destruct (negb _).
  - apply emits_only_reject. reflexivity.
  - apply handle_tx_input_emits; reflexivity.
Qed.

Lemma stream_inputs_quiet (n index : nat) (tx : wally_tx) (ae : bool) (st : input_state) :
  emits_only quiet (stream_inputs n index tx ae st).
Proof.
  revert index st. induction n as [|n IH]; intros; cbn [stream_inputs].
  - apply emits_only_ret.
  - apply emits_only_bind; [apply stream_input_quiet | intros; apply IH].
Qed.

(** *** The verification loop *)

Lemma well_called_in_loop (i : nat) (txoutput : wally_tx_output) (v0 : Z) :
  value_prefix txoutput = Some v0 -> (v0 =? 1) = false ->
  well_called SHA256_LEN (Z.of_nat i) txoutput.
Proof.
  intros Hv H1. apply Z.eqb_neq in H1. unfold well_called.
  repeat split; [lia|]. eauto.
Qed.

(** A pass of the loop that falls through met at most one mismatch, the
    flag counted in, and leaves the flag set exactly when it met one. *)
Lemma check_commitments_ret (n i : nat) (tx : wally_tx) (cs : list commitment_t)
    (h : bytes) (flag flag' : bool) (s s' : pstate) :
  check_commitments n i tx cs h flag s = (Ret flag', s') ->
  let count := count_mismatches h i (firstn n (skipn i (outputs tx))) cs in
  (count + (if flag then 1 else 0) <= 1)%nat
  /\ flag' = flag || (0 <? count)%nat
  /\ s' = s.
Proof.
  intros H. pose proof (silent_ret_inv _ _ _ _ (silent_check_commitments _ _ _ _ _ _) H).
  subst s'. revert i flag H. induction n as [|n IH]; intros i flag H; cbn zeta.
  - apply ret_inv in H. destruct H as [<- _]. cbn.
    destruct flag; cbn; repeat split; lia.
  - cbn [check_commitments] in H.
    bind_inv_as H txoutput E. apply load_ret_inv in E. destruct E as [Hout ->].
    rewrite (nth_error_skipn _ _ _ Hout). cbn [firstn count_mismatches].
    unfold is_blinded.
    destruct (value_prefix txoutput) as [v0|] eqn:Hv0;
      [|apply abort_not_ret in H; contradiction].
    destruct (v0 =? 1) eqn:Hplain.
    + apply IH in H. cbn zeta in H. cbn [negb andb].
      destruct (nth_error cs i); cbn [Nat.add]; exact H.
    + bind_inv_as H c E. apply load_ret_inv in E. destruct E as [Hc ->]. rewrite Hc.
      destruct (check_trusted_commitment_valid h SHA256_LEN (Z.of_nat i) txoutput c flag)
        as [[[|errmsg] flag1]|] eqn:Hcheck;
        [| apply reject_not_ret in H; contradiction
         | apply abort_not_ret in H; contradiction].
      apply (check_passed_inv _ _ _ _ _ _ _ (well_called_in_loop _ _ _ Hv0 Hplain))
        in Hcheck.
      destruct Hcheck as (_ & Hone & ->).
      apply IH in H. cbn zeta in H. destruct H as (Hle & -> & _). cbn [negb andb].
      destruct (value_commitment_mismatch h (Z.of_nat i) txoutput c), flag;
        cbn in Hone, Hle |- *; try discriminate; repeat split; try lia;
        destruct (count_mismatches h (S i) _ cs); cbn; try reflexivity; lia.
Qed.

(** When every other check passes and at most one mismatch is met, the flag
    counted in, the loop falls through. *)
Lemma check_commitments_passes (n i : nat) (tx : wally_tx) (cs : list commitment_t)
    (h : bytes) (flag : bool) (s : pstate) :
  let outs := firstn n (skipn i (outputs tx)) in
  List.length outs = n ->
  others_pass h i outs cs = true ->
  (count_mismatches h i outs cs + (if flag then 1 else 0) <= 1)%nat ->
  check_commitments n i tx cs h flag s
  = (Ret (flag || (0 <? count_mismatches h i outs cs)%nat), s).
Proof.
  cbn zeta. revert i flag. induction n as [|n IH]; intros i flag Hlen Hpass Hcount.
  - cbn. rewrite orb_false_r. reflexivity.
  - destruct (skipn i (outputs tx)) as [|txoutput rest] eqn:Hskip; [discriminate|].
    assert (Hout : nth_error (outputs tx) i = Some txoutput).
    { rewrite <- (firstn_skipn i (outputs tx)), Hskip.
      assert (Hi : (i <= List.length (outputs tx))%nat).
      { destruct (Nat.le_gt_cases i (List.length (outputs tx))) as [Hle|Hgt]; [exact Hle|].
        rewrite skipn_all2 in Hskip by lia. discriminate. }
      rewrite nth_error_app2; rewrite firstn_length_le by exact Hi; [|lia].
      rewrite Nat.sub_diag. reflexivity. }
    assert (Hrest : rest = skipn (S i) (outputs tx)).
    { pose proof (nth_error_skipn _ _ _ Hout) as E. rewrite Hskip in E. congruence. }
    subst rest. cbn [firstn others_pass count_mismatches List.length] in *.
    cbn [check_commitments]. unfold bind at 1, load at 1. rewrite Hout. cbn [ret].
    unfold is_blinded in Hcount |- *.
    destruct (value_prefix txoutput) as [v0|] eqn:Hv0; [|discriminate].
    apply andb_true_iff in Hpass. destruct Hpass as [Hthis Hpass].
    injection Hlen as Hlen.
    destruct (v0 =? 1) eqn:Hplain.
    + cbn [negb andb] in Hcount |- *.
      assert (Hcount' :
        (count_mismatches h (S i) (firstn n (skipn (S i) (outputs tx))) cs
         + (if flag then 1 else 0) <= 1)%nat)
        by (destruct (nth_error cs i); cbn in Hcount; exact Hcount).
      rewrite (IH (S i) flag Hlen Hpass Hcount').
      destruct (nth_error cs i); reflexivity.
    + cbn [orb negb andb] in Hthis, Hcount |- *.
      destruct (nth_error cs i) as [c|] eqn:Hc; [|discriminate].
      unfold bind at 1, load at 1. rewrite Hc. cbn [ret].
      assert (Hone : value_commitment_mismatch h (Z.of_nat i) txoutput c && flag = false).
      { destruct (value_commitment_mismatch h (Z.of_nat i) txoutput c), flag;
          cbn in Hcount |- *; try reflexivity; lia. }
      rewrite (check_passes _ _ _ _ _ _ (well_called_in_loop _ _ _ Hv0 Hplain) Hthis Hone).
      rewrite IH; [| exact Hlen | exact Hpass |].
      * f_equal. f_equal.
        destruct (value_commitment_mismatch h (Z.of_nat i) txoutput c), flag;
          cbn; try reflexivity;
          destruct (count_mismatches h (S i) _ cs); reflexivity.
      * destruct (value_commitment_mismatch h (Z.of_nat i) txoutput c), flag;
          cbn in Hcount |- *; lia.
Qed.

(** When every other check passes and two mismatches are met, the flag
    counted in, the loop rejects at the second one. *)
Lemma check_commitments_rejects (n i : nat) (tx : wally_tx) (cs : list commitment_t)
    (h : bytes) (flag : bool) (s : pstate) :
  let outs := firstn n (skipn i (outputs tx)) in
  List.length outs = n ->
  others_pass h i outs cs = true ->
  (2 <= count_mismatches h i outs cs + (if flag then 1 else 0))%nat ->
  check_commitments n i tx cs h flag s
  = (Cleanup,
     add_trace s
       [Reject (current s) CBOR_RPC_BAD_PARAMETERS
          "Failed to verify value_commitment from commitments data"%string]).
Proof.
  cbn zeta. revert i flag. induction n as [|n IH]; intros i flag Hlen Hpass Hcount.
  - cbn in Hcount. destruct flag; lia.
  - destruct (skipn i (outputs tx)) as [|txoutput rest] eqn:Hskip; [discriminate|].
    assert (Hout : nth_error (outputs tx) i = Some txoutput).
    { rewrite <- (firstn_skipn i (outputs tx)), Hskip.
      assert (Hi : (i <= List.length (outputs tx))%nat).
      { destruct (Nat.le_gt_cases i (List.length (outputs tx))) as [Hle|Hgt]; [exact Hle|].
        rewrite skipn_all2 in Hskip by lia. discriminate. }
      rewrite nth_error_app2; rewrite firstn_length_le by exact Hi; [|lia].
      rewrite Nat.sub_diag. reflexivity. }
    assert (Hrest : rest = skipn (S i) (outputs tx)).
    { pose proof (nth_error_skipn _ _ _ Hout) as E. rewrite Hskip in E. congruence. }
    subst rest. cbn [firstn others_pass count_mismatches List.length] in *.
    cbn [check_commitments]. unfold bind at 1, load at 1. rewrite Hout. cbn [ret].
    unfold is_blinded in Hcount.
    destruct (value_prefix txoutput) as [v0|] eqn:Hv0; [|discriminate].
    apply andb_true_iff in Hpass. destruct Hpass as [Hthis Hpass].
    injection Hlen as Hlen.
    destruct (v0 =? 1) eqn:Hplain.
    + cbn [negb andb] in Hcount.
      apply IH; [exact Hlen | exact Hpass |].
      destruct (nth_error cs i); cbn in Hcount; exact Hcount.
    + cbn [orb negb andb] in Hthis, Hcount.
      destruct (nth_error cs i) as [c|] eqn:Hc; [|discriminate].
      unfold bind at 1, load at 1. rewrite Hc. cbn [ret].
      pose proof (well_called_in_loop i _ _ Hv0 Hplain) as Hcall.
      destruct (value_commitment_mismatch h (Z.of_nat i) txoutput c) eqn:Hmis, flag.
      * rewrite (check_fails_on_second _ _ _ _ _ Hcall Hthis Hmis). reflexivity.
      * rewrite (check_passes _ _ _ _ _ _ Hcall Hthis) by (rewrite Hmis; reflexivity).
        rewrite Hmis. cbn [orb]. apply IH; [exact Hlen | exact Hpass |].
        cbn in Hcount |- *. lia.
      * rewrite (check_passes _ _ _ _ _ _ Hcall Hthis) by (rewrite Hmis; reflexivity).
        rewrite Hmis. cbn [orb]. apply IH; [exact Hlen | exact Hpass |].
        cbn in Hcount |- *. lia.
      * rewrite (check_passes _ _ _ _ _ _ Hcall Hthis) by (rewrite Hmis; reflexivity).
        rewrite Hmis. cbn [orb]. apply IH; [exact Hlen | exact Hpass |].
        cbn in Hcount |- *. lia.
Qed.

End Facts.

End StageFacts.

(* ------------------------------------------------------------------ *)
(** ** Sessions *)
(* ------------------------------------------------------------------ *)

Module SessionFacts.
Import Network Commitments SignLiquidTx MonadFacts CommitmentsFacts StageFacts.

Lemma bind_emit {B : Type} (a : action) (k : unit -> M B) (s : pstate) :
  bind (emit a) k s = k tt (add_trace s [a]).
Proof. reflexivity. Qed.

Lemma bind_stuck {A B : Type} (m : M A) (k : A -> M B) (s s1 : pstate) (r : result A) :
  m s = (r, s1) ->
  match r with Ret _ => False | _ => True end ->
  snd (bind m k s) = s1.
Proof.
  intros E H. unfold bind. rewrite E. destruct r; [contradiction| | |]; reflexivity.
Qed.

Lemma add_trace_add_trace (s : pstate) (t u : list action) :
  add_trace (add_trace s t) u = add_trace s (t ++ u).
Proof. unfold add_trace. cbn. rewrite app_assoc. reflexivity. Qed.

Lemma quiet_after {A : Type} (m : M A) (s s1 : pstate) (r : result A) :
  emits_only quiet m -> m s = (r, s1) ->
  forallb quiet (trace s) = true -> forallb quiet (trace s1) = true.
Proof.
  intros Hm E Hs. destruct (Hm s) as (t & c & Ht & HP & _).
  rewrite E in Ht. cbn in Ht. rewrite Ht, forallb_app, Hs, HP. reflexivity.
Qed.

Lemma quiet_silent {A : Type} (m : M A) : silent m -> emits_only quiet m.
Proof. apply emits_only_silent. reflexivity. Qed.

Section Facts.
Context {tags : Tags} {crypto : Crypto} {ext : Externals}.

Lemma confirm_outputs_accept (ui : ui_events) (s : pstate) :
  outputs_ret ui = ESP_OK -> outputs_ev_id ui = SIGN_TX_ACCEPT_OUTPUTS ->
  confirm_outputs ui s
  = (Ret tt, add_trace s [DisplayMessage "Processing..."%string; ReplyOk (current s)]).
Proof.
  intros H1 H2. unfold confirm_outputs. rewrite H1, H2, !Z.eqb_refl. cbn [negb orb].
  unfold add_trace. cbv [bind emit jade_process_reply_to_message_ok get_current].
  cbn. rewrite <- app_assoc. reflexivity.
Qed.

Lemma confirm_outputs_decline (ui : ui_events) (s : pstate) :
  negb (outputs_ret ui =? ESP_OK) || negb (outputs_ev_id ui =? SIGN_TX_ACCEPT_OUTPUTS) = true ->
  confirm_outputs ui s
  = (Cleanup,
     add_trace s [Reject (current s) CBOR_RPC_USER_CANCELLED
                    "User declined to sign transaction"%string]).
Proof.
  intros H. unfold confirm_outputs. rewrite H. reflexivity.
Qed.

(** Either a session never gets as far as the final confirmation screen,
    and then all it did is [quiet]; or every stage before that screen fell
    through, and the session ends as the second checkpoint and the
    signature replies make it end. *)
Lemma session_stages (req : sign_request) (ui : ui_events) (host : list in_message) :
  forallb quiet (trace (snd (session req ui host))) = true
  \/ exists p tx' oi fees st hash flag s2,
       let s0 := initial_pstate req host in
       let s1 := add_trace s0 [DisplayOutputs (network p) tx' oi;
                               DisplayMessage "Processing..."%string;
                               ReplyOk (req_id req)] in
       parse_request req s0 = (Ret p, s0)
       /\ populate_output_info (List.length (outputs (tx p))) 0 (tx p) (commitments p)
            (output_info p) 0 s0 = (Ret (tx', oi, fees), s0)
       /\ outputs_ret ui = ESP_OK /\ outputs_ev_id ui = SIGN_TX_ACCEPT_OUTPUTS
       /\ stream_inputs (Z.to_nat (num_inputs p)) 0 tx' (use_ae_signatures p)
            (initial_input_state (num_inputs p)) s1 = (Ret st, s2)
       /\ finalize_hash_prevouts (hash_prevout_sha_ctx st) s2 = (Ret hash, s2)
       /\ check_commitments (List.length (outputs tx')) 0 tx' (commitments p) hash false s2
          = (Ret flag, s2)
       /\ forallb quiet (trace s2) = true
       /\ session req ui host
          = (confirm_fee ui (use_ae_signatures p) ;;; send_signature_replies req p st)
              (add_trace s2
                 [DisplayFinalConfirmation fees
                    (warning_for (aggregate_inputs_scripts_flavour st))]).
Proof.
  unfold session, sign_liquid_tx_process.
  set (s0 := initial_pstate req host).
  assert (Hq0 : forallb quiet (trace s0) = true) by reflexivity.
  (* parsing *)
  destruct (parse_request req s0) as [rp sp] eqn:Ep.
  pose proof (quiet_after _ _ _ _ (quiet_silent _ (silent_parse_request req)) Ep Hq0) as Hqp.
  destruct rp as [p| | |];
    try (left; rewrite (bind_stuck _ _ _ _ _ Ep I); exact Hqp).
  pose proof (silent_ret_inv _ _ _ _ (silent_parse_request req) Ep). subst sp.
  rewrite (bind_ret _ _ _ _ _ Ep).
  (* output info *)
  destruct (populate_output_info (List.length (outputs (tx p))) 0 (tx p) (commitments p)
              (output_info p) 0 s0) as [rpop spop] eqn:Epop.
  pose proof (quiet_after _ _ _ _
                (quiet_silent _ (silent_populate_output_info _ _ _ _ _ _)) Epop Hq0) as Hqpop.
  destruct rpop as [[[tx' oi] fees]| | |];
    try (left; rewrite (bind_stuck _ _ _ _ _ Epop I); exact Hqpop).
  pose proof (silent_ret_inv _ _ _ _ (silent_populate_output_info _ _ _ _ _ _) Epop).
  subst spop. rewrite (bind_ret _ _ _ _ _ Epop). cbn iota beta.
  rewrite bind_emit.
  (* first checkpoint *)
  destruct (negb (outputs_ret ui =? ESP_OK)
            || negb (outputs_ev_id ui =? SIGN_TX_ACCEPT_OUTPUTS)) eqn:Hout.
  { left. pose proof (confirm_outputs_decline ui (add_trace s0 [DisplayOutputs (network p) tx' oi])
                        Hout) as Ec.
    rewrite (bind_stuck _ _ _ _ _ Ec I). reflexivity. }
  apply orb_false_iff in Hout. destruct Hout as [Hret Hev].
  apply negb_false_iff, Z.eqb_eq in Hret, Hev.
  rewrite (bind_ret _ _ _ _ _ (confirm_outputs_accept ui _ Hret Hev)).
  rewrite add_trace_add_trace. cbn [app current add_trace s0 initial_pstate].
  change {| inbox := host; current := req_id req;
            trace := [] ++ [DisplayOutputs (network p) tx' oi;
                            DisplayMessage "Processing..."; ReplyOk (req_id req)] |}
    with (add_trace s0 [DisplayOutputs (network p) tx' oi;
                        DisplayMessage "Processing..."%string; ReplyOk (req_id req)]).
  set (s1 := add_trace s0 _).
  assert (Hq1 : forallb quiet (trace s1) = true) by reflexivity.
  (* the input loop *)
  destruct (stream_inputs (Z.to_nat (num_inputs p)) 0 tx' (use_ae_signatures p)
              (initial_input_state (num_inputs p)) s1) as [rst s2] eqn:Est.
  pose proof (quiet_after _ _ _ _ (stream_inputs_quiet _ _ _ _ _) Est Hq1) as Hq2.
  destruct rst as [st| | |];
    try (left; rewrite (bind_stuck _ _ _ _ _ Est I); exact Hq2).
  rewrite (bind_ret _ _ _ _ _ Est).
  (* the prevout hash *)
  destruct (finalize_hash_prevouts (hash_prevout_sha_ctx st) s2) as [rh sh] eqn:Eh.
  pose proof (quiet_after _ _ _ _
                (quiet_silent _ (silent_finalize_hash_prevouts _)) Eh Hq2) as Hqh.
  destruct rh as [hash| | |];
    try (left; rewrite (bind_stuck _ _ _ _ _ Eh I); exact Hqh).
  pose proof (silent_ret_inv _ _ _ _ (silent_finalize_hash_prevouts _) Eh). subst sh.
  rewrite (bind_ret _ _ _ _ _ Eh).
  (* the commitments *)
  destruct (check_commitments (List.length (outputs tx')) 0 tx' (commitments p) hash false s2)
    as [rc sc] eqn:Ec.
  pose proof (quiet_after _ _ _ _
                (quiet_silent _ (silent_check_commitments _ _ _ _ _ _)) Ec Hq2) as Hqc.
  destruct rc as [flag| | |];
    try (left; rewrite (bind_stuck _ _ _ _ _ Ec I); exact Hqc).
  pose proof (silent_ret_inv _ _ _ _ (silent_check_commitments _ _ _ _ _ _) Ec). subst sc.
  rewrite (bind_ret _ _ _ _ _ Ec). rewrite bind_emit.
  right. exists p, tx', oi, fees, st, hash, flag, s2. cbn zeta. fold s0. fold s1.
  repeat split; assumption || reflexivity.
Qed.

(** *** The second checkpoint and the signature replies *)

Lemma fee_accepted_dec (ui : ui_events) :
  negb (fee_ret ui) || negb (fee_ev_id ui =? BTN_ACCEPT_SIGNATURE) = false
  <-> fee_accepted ui.
Proof.
  unfold fee_accepted.
  rewrite orb_false_iff, !negb_false_iff, Z.eqb_eq. reflexivity.
Qed.

Lemma confirm_fee_decline (ui : ui_events) (ae : bool) (s : pstate) :
  negb (fee_ret ui) || negb (fee_ev_id ui =? BTN_ACCEPT_SIGNATURE) = true ->
  confirm_fee ui ae s = declined_fee ae s.
Proof.
  intros H. unfold confirm_fee, declined_fee. rewrite H.
  destruct ae; [|reflexivity].
  unfold bind at 1. unfold bind at 1, jade_process_load_in_message.
  destruct (inbox s) as [|m rest]; reflexivity.
Qed.

Lemma declined_fee_not_ret (ae : bool) (s : pstate) :
  match fst (declined_fee ae s) with Ret _ => False | _ => True end.
Proof.
  unfold declined_fee. destruct ae; [destruct (inbox s)|]; exact I.
Qed.

(** The end of a session whose user declines the fee. *)
Lemma final_stage_decline (req : sign_request) (ui : ui_events) (p : parsed)
    (st : input_state) (s : pstate) :
  negb (fee_ret ui) || negb (fee_ev_id ui =? BTN_ACCEPT_SIGNATURE) = true ->
  (confirm_fee ui (use_ae_signatures p) ;;; send_signature_replies req p st) s
  = declined_fee (use_ae_signatures p) s.
Proof.
  intros H. unfold bind. rewrite (confirm_fee_decline _ _ _ H).
  pose proof (declined_fee_not_ret (use_ae_signatures p) s) as Hn.
  destruct (declined_fee (use_ae_signatures p) s) as [[u| | |] s']; cbn in Hn;
    [contradiction | reflexivity | reflexivity | reflexivity].
Qed.

(** The end of a session whose user accepts the fee. *)
Lemma final_stage_accept (req : sign_request) (ui : ui_events) (p : parsed)
    (st : input_state) (s : pstate) :
  fee_accepted ui ->
  (confirm_fee ui (use_ae_signatures p) ;;; send_signature_replies req p st) s
  = (Ret tt,
     add_trace s
       [DisplayMessage "Processing..."%string;
        if use_ae_signatures p
        then SendAeSignatureReplies (all_signing_data st) (num_inputs p)
        else SendEcSignatureReplies (req_source req) (all_signing_data st) (num_inputs p)]).
Proof.
  intros H. apply fee_accepted_dec in H.
  unfold bind, confirm_fee, send_signature_replies. rewrite H.
  unfold add_trace. destruct (use_ae_signatures p); cbn; unfold emit; cbn;
    rewrite <- app_assoc; reflexivity.
Qed.

Lemma declined_fee_trace (ae : bool) (s : pstate) :
  exists tail,
    trace (snd (declined_fee ae s)) = trace s ++ tail
    /\ forallb quiet tail = true.
Proof.
  unfold declined_fee. destruct ae; [destruct (inbox s) as [|m rest]|]; cbn.
  - exists []. rewrite app_nil_r. auto.
  - eexists. rewrite <- app_assoc. split; reflexivity.
  - eexists. split; reflexivity.
Qed.

End Facts.

End SessionFacts.

(* ------------------------------------------------------------------ *)
(** ** Little-endian encodings *)
(* ------------------------------------------------------------------ *)

Module EncodingFacts.
Import Commitments.

Lemma le_decode_le_bytes (n : nat) (v : Z) :
  le_decode (le_bytes n v) = v mod 256 ^ Z.of_nat n.
Proof.
  revert v. induction n as [|n IH]; intros v.
  - cbn. rewrite Z.mod_1_r. reflexivity.
  - cbn [le_bytes le_decode]. rewrite IH, Nat2Z.inj_succ, Z.pow_succ_r by lia.
    rewrite Z.rem_mul_r by lia. reflexivity.
Qed.

Lemma length_le_bytes (n : nat) (v : Z) : List.length (le_bytes n v) = n.
Proof.
  revert v. induction n as [|n IH]; intros v; cbn; [reflexivity | now rewrite IH].
Qed.

Lemma land_255 (v : Z) : Z.land v 255 = v mod 256.
Proof. change 255 with (Z.ones 8). rewrite Z.land_ones by lia. reflexivity. Qed.

Lemma shiftr_8 (v k : Z) : 0 <= k -> Z.shiftr v (k + 8) = Z.shiftr v k / 256.
Proof.
  intros Hk. rewrite <- Z.shiftr_shiftr by lia.
  rewrite (Z.shiftr_div_pow2 _ 8) by lia. reflexivity.
Qed.

Lemma value_to_le_le_bytes (v : Z) : value_to_le v = le_bytes 4 v.
Proof.
  unfold value_to_le. cbn [le_bytes]. rewrite !land_255.
  change 24 with (16 + 8). rewrite shiftr_8 by lia.
  change 16 with (8 + 8). rewrite shiftr_8 by lia.
  change 8 with (0 + 8). rewrite shiftr_8 by lia.
  rewrite Z.shiftr_0_r. reflexivity.
Qed.


End EncodingFacts.

(* ------------------------------------------------------------------ *)
(** ** Claims about the commitment verifier *)
(* ------------------------------------------------------------------ *)

Module VerifierClaims.
Import Network Commitments SignLiquidTx Sample.
Import MonadFacts CommitmentsFacts StageFacts EncodingFacts.

(** C1. Per output: when the asset generator agrees and the recomputed value
    commitment does not, [check_trusted_commitment_valid] passes the
    value-commitment check and sets [found_odd_vbf] if the flag was clear
    (the verdict is then the HMAC's), and fails if the flag was set.  Per
    session: the verification loop never falls through when two or more
    blinded outputs have a value-commitment mismatch; and when every other
    check passes, it falls through with zero or one mismatch (leaving the
    flag set exactly when there was one) and rejects with bad-parameters
    with two or more.  The outputs are those the loop is handed, that is,
    as the output-info loop left them: an output counts as blinded by the
    first byte of the value it carries then, which for a confidential
    output is the first byte of its trusted record's value commitment.  A
    session whose records begin with 0x01 is therefore not covered; module
    [Divergences] has such a run. *)
Theorem at_most_one_value_commitment_mismatch
    {tags : Tags} {crypto : Crypto} {ext : Externals}
    (tx : wally_tx) (cs : list commitment_t) (h : bytes) (s : pstate) :
  let mismatches := count_mismatches h 0 (outputs tx) cs in
  let loop := check_commitments (List.length (outputs tx)) 0 tx cs h false s in
  (forall len idx txoutput c g,
      well_called len idx txoutput ->
      recompute_generator h idx c = Some g ->
      generator_agrees g txoutput c ->
      value_commitment_mismatch h idx txoutput c = true ->
      check_trusted_commitment_valid h len idx txoutput c false
      = Some (check_hmac c, true)
      /\ check_trusted_commitment_valid h len idx txoutput c true
         = Some (Failed "Failed to verify value_commitment from commitments data", true))
  /\ ((2 <= mismatches)%nat -> forall flag s', loop <> (Ret flag, s'))
  /\ (others_pass h 0 (outputs tx) cs = true ->
      ((mismatches <= 1)%nat -> loop = (Ret (0 <? mismatches)%nat, s))
      /\ ((2 <= mismatches)%nat ->
          loop = (Cleanup,
                  add_trace s
                    [Reject (current s) CBOR_RPC_BAD_PARAMETERS
                       "Failed to verify value_commitment from commitments data"%string]))).
Proof.
  cbn zeta. split; [|split].
  - intros len idx txoutput c g Hcall Hg Hagree Hmis.
    rewrite !(check_trusted_commitment_valid_unfold _ _ _ _ _ _ Hcall).
    unfold value_commitment_mismatch in Hmis. rewrite Hg in Hmis |- *.
    apply generator_agrees_eqb in Hagree. rewrite Hagree.
    destruct (recompute_commitment h idx c g) as [t|]; [|discriminate].
    rewrite Hmis. split; reflexivity.
  - intros Htwo flag s' Hloop.
    apply check_commitments_ret in Hloop. cbn zeta in Hloop.
    rewrite skipn_O, firstn_all in Hloop. cbn in Hloop. lia.
  - intros Hpass. split; intros Hcount.
    + rewrite check_commitments_passes; rewrite ?skipn_O, ?firstn_all; cbn [orb];
        auto; lia.
    + apply check_commitments_rejects; rewrite ?skipn_O, ?firstn_all; auto; lia.
Qed.

(** C1 on the two-input sample transaction: with one balancing record the
    loop falls through and leaves the flag set; with two it rejects. *)
Lemma at_most_one_value_commitment_mismatch_witness :
  let s := initial_pstate (request [2] 2 commitments_one_odd false) [] in
  @check_commitments model_crypto 3 0 (with_trusted tx_two commitments_one_odd)
    commitments_one_odd (hash_of tx_two) false s = (Ret true, s)
  /\ @check_commitments model_crypto 3 0 (with_trusted tx_two commitments_two_odd)
       commitments_two_odd (hash_of tx_two) false s
     = (Cleanup,
        add_trace s
          [Reject "1" CBOR_RPC_BAD_PARAMETERS
             "Failed to verify value_commitment from commitments data"%string]).
Proof.
  cbn zeta. split.
  - pose proof (@at_most_one_value_commitment_mismatch upstream_tags model_crypto
                  model_externals (with_trusted tx_two commitments_one_odd)
                  commitments_one_odd (hash_of tx_two)
                  (initial_pstate (request [2] 2 commitments_one_odd false) []))
      as (_ & _ & H).
    destruct (H eq_refl) as [Hone _]. apply Hone. vm_compute. lia.
  - pose proof (@at_most_one_value_commitment_mismatch upstream_tags model_crypto
                  model_externals (with_trusted tx_two commitments_two_odd)
                  commitments_two_odd (hash_of tx_two)
                  (initial_pstate (request [2] 2 commitments_one_odd false) []))
      as (_ & _ & H).
    destruct (H eq_refl) as [_ Htwo]. apply Htwo. vm_compute. lia.
Defined.

(** C2. When the generator recomputed from the asset blinding factor
    differs, on its [ASSET_GENERATOR_LEN] bytes, from the trusted record's
    generator or from the transaction output's asset,
    [check_trusted_commitment_valid] returns false with the asset-generator
    message whatever [found_odd_vbf] is, and the verification loop that is
    at this output rejects the session with bad-parameters.  This supposes
    that the function is called with its assertions holding, in particular
    that the value the output carries after the output-info loop does not
    begin with 0x01; the loop does not call it otherwise, and module
    [Divergences] has such a run. *)
Theorem asset_generator_mismatch_always_rejects
    {tags : Tags} {crypto : Crypto} {ext : Externals}
    (h : bytes) (len : nat) (idx : Z) (txoutput : wally_tx_output) (c : commitment_t)
    (g : bytes) (found_odd_vbf : bool) :
  well_called len idx txoutput ->
  recompute_generator h idx c = Some g ->
  firstn ASSET_GENERATOR_LEN (asset_generator c) <> firstn ASSET_GENERATOR_LEN g
  \/ firstn ASSET_GENERATOR_LEN (tx_asset txoutput) <> firstn ASSET_GENERATOR_LEN g ->
  check_trusted_commitment_valid h len idx txoutput c found_odd_vbf
  = Some (Failed "Failed to verify asset_generator from commitments data", found_odd_vbf)
  /\ forall n i tx cs s,
       idx = Z.of_nat i -> len = SHA256_LEN ->
       nth_error (outputs tx) i = Some txoutput -> nth_error cs i = Some c ->
       check_commitments (S n) i tx cs h found_odd_vbf s
       = (Cleanup,
          add_trace s
            [Reject (current s) CBOR_RPC_BAD_PARAMETERS
               "Failed to verify asset_generator from commitments data"%string]).
Proof.
  intros Hcall Hg Hdiff.
  assert (Hcheck :
    check_trusted_commitment_valid h len idx txoutput c found_odd_vbf
    = Some (Failed "Failed to verify asset_generator from commitments data",
            found_odd_vbf)).
  { rewrite (check_trusted_commitment_valid_unfold _ _ _ _ _ _ Hcall), Hg.
    destruct (bytes_eqb _ _ && bytes_eqb _ _) eqn:E; [|reflexivity].
    apply generator_agrees_eqb in E. destruct E as [E1 E2].
    destruct Hdiff; contradiction. }
  split; [exact Hcheck|].
  intros n i tx cs s -> -> Hout Hc.
  cbn [check_commitments]. unfold bind at 1, load at 1. rewrite Hout. cbn [ret].
  destruct Hcall as (_ & _ & v0 & Hv0 & Hne). rewrite Hv0.
  destruct (v0 =? 1) eqn:E; [apply Z.eqb_eq in E; contradiction|].
  unfold bind at 1, load at 1. rewrite Hc. cbn [ret]. rewrite Hcheck. reflexivity.
Qed.

(** C2 on a blinded output whose trusted record names another generator:
    rejected with the flag clear and with the flag set. *)
Lemma asset_generator_mismatch_always_rejects_witness :
  @check_trusted_commitment_valid model_crypto (hash_of tx_one) 32 0
    blinded_output (honest_commitment (hash_of tx_one) 0 lbtc 5000) false
  = Some (Failed "Failed to verify asset_generator from commitments data", false)
  /\ @check_trusted_commitment_valid model_crypto (hash_of tx_one) 32 0
       blinded_output (honest_commitment (hash_of tx_one) 0 lbtc 5000) true
     = Some (Failed "Failed to verify asset_generator from commitments data", true).
Proof.
  split.
  - refine (proj1 (@asset_generator_mismatch_always_rejects upstream_tags model_crypto
                     model_externals (hash_of tx_one) 32 0 blinded_output
                     (honest_commitment (hash_of tx_one) 0 lbtc 5000)
                     (asset_generator (honest_commitment (hash_of tx_one) 0 lbtc 5000))
                     false _ _ _)).
    + unfold well_called. repeat split; [lia|]. exists 9. split; [reflexivity | lia].
    + reflexivity.
    + right. vm_compute. discriminate.
  - refine (proj1 (@asset_generator_mismatch_always_rejects upstream_tags model_crypto
                     model_externals (hash_of tx_one) 32 0 blinded_output
                     (honest_commitment (hash_of tx_one) 0 lbtc 5000)
                     (asset_generator (honest_commitment (hash_of tx_one) 0 lbtc 5000))
                     true _ _ _)).
    + unfold well_called. repeat split; [lia|]. exists 9. split; [reflexivity | lia].
    + reflexivity.
    + right. vm_compute. discriminate.
Defined.



End VerifierClaims.

(* ------------------------------------------------------------------ *)
(** ** Claims about whole sessions *)
(* ------------------------------------------------------------------ *)

Module SessionClaims.
Import Network Commitments SignLiquidTx Sample.
Import MonadFacts CommitmentsFacts StageFacts SessionFacts EncodingFacts.

Lemma quiet_member (a : action) (t : list action) :
  forallb quiet t = true -> In a t ->
  is_signature_reply a = false /\ is_final_confirmation a = false.
Proof.
  intros Hq Hin. rewrite forallb_forall in Hq. specialize (Hq a Hin).
  unfold quiet in Hq. apply andb_true_iff in Hq.
  destruct Hq as [H1 H2]. apply negb_true_iff in H1, H2. auto.
Qed.

Section Facts.
Context {tags : Tags} {crypto : Crypto} {ext : Externals}.

(** How a session that puts up the final confirmation screen ends. *)
Lemma session_end (req : sign_request) (ui : ui_events) (host : list in_message) :
  forallb quiet (trace (snd (session req ui host))) = true
  \/ exists p fees st s2,
       parse_request req (initial_pstate req host) = (Ret p, initial_pstate req host)
       /\ fees = fee_sum (outputs (tx p)) (output_info p) mod 2 ^ 64
       /\ outputs_accepted ui
       /\ forallb quiet (trace s2) = true
       /\ let s5 := add_trace s2
                      [DisplayFinalConfirmation fees
                         (warning_for (aggregate_inputs_scripts_flavour st))] in
          (fee_accepted ui
           /\ session req ui host
              = (Ret tt,
                 add_trace s5
                   [DisplayMessage "Processing..."%string;
                    if use_ae_signatures p
                    then SendAeSignatureReplies (all_signing_data st) (num_inputs p)
                    else SendEcSignatureReplies (req_source req) (all_signing_data st)
                           (num_inputs p)]))
          \/ (negb (fee_ret ui) || negb (fee_ev_id ui =? BTN_ACCEPT_SIGNATURE) = true
              /\ session req ui host = declined_fee (use_ae_signatures p) s5).
Proof.
  destruct (session_stages req ui host)
    as [Hquiet|(p & tx' & oi & fees & st & hash & flag & s2 & H)]; [left; exact Hquiet|].
  cbn zeta in H.
  destruct H as (Hparse & Hpop & Hret & Hev & _ & _ & _ & Hq2 & Hsession).
  right. exists p, fees, st, s2.
  split; [exact Hparse|]. split.
  { apply populate_output_info_fees in Hpop; [|reflexivity].
    rewrite skipn_O, firstn_all, Z.add_0_l in Hpop. exact Hpop. }
  split; [split; assumption|]. split; [exact Hq2|].
  cbn zeta. rewrite Hsession.
  destruct (negb (fee_ret ui) || negb (fee_ev_id ui =? BTN_ACCEPT_SIGNATURE)) eqn:Hfee.
  - right. split; [reflexivity|]. apply final_stage_decline. exact Hfee.
  - left. apply fee_accepted_dec in Hfee. split; [exact Hfee|].
    apply final_stage_accept. exact Hfee.
Qed.

End Facts.

(** C4. A session whose trace holds a signature reply passed both count
    checks (the declared [num_inputs] is there, nonzero and the parsed
    transaction's input count; there are as many trusted commitments as
    parsed outputs) and both checkpoints returned accept.  A session that
    gets as far as the count checks and fails one of them does nothing but
    reject the opening message with bad-parameters.  And whatever the
    earlier checks say, a session whose counts are wrong does not complete,
    loads no input message and leaves the host's stream untouched. *)
Theorem signature_requires_counts_and_confirmations
    {tags : Tags} {crypto : Crypto} {ext : Externals}
    (req : sign_request) (ui : ui_events) (host : list in_message) :
  ((exists a, In a (trace (snd (session req ui host))) /\ is_signature_reply a = true) ->
   exists txbytes tx0 n,
     req_txn req = Some txbytes /\ wally_tx_from_bytes txbytes = Some tx0
     /\ req_num_inputs req = Some n /\ n <> 0 /\ n = num_inputs_of tx0
     /\ Z.of_nat (List.length (req_trusted_commitments req)) = num_outputs_of tx0
     /\ outputs_accepted ui /\ fee_accepted ui)
  /\ (forall txbytes tx0,
        req_method req = "sign_liquid_tx"%string ->
        CHECK_NETWORK_CONSISTENT (req_network req) = None ->
        isLiquidNetwork (req_network req) = Some true ->
        req_txn req = Some txbytes -> txbytes <> [] ->
        wally_tx_from_bytes txbytes = Some tx0 ->
        counts_violated req tx0 ->
        exists message,
          session req ui host
          = (Cleanup,
             add_trace (initial_pstate req host)
               [Reject (req_id req) CBOR_RPC_BAD_PARAMETERS message]))
  /\ ((forall txbytes tx0,
         req_txn req = Some txbytes -> wally_tx_from_bytes txbytes = Some tx0 ->
         counts_violated req tx0) ->
      fst (session req ui host) <> Ret tt
      /\ inbox (snd (session req ui host)) = host
      /\ loaded (trace (snd (session req ui host))) = []).
Proof.
  split; [|split].
  - intros (a & Hin & Hsig).
    destruct (session_end req ui host)
      as [Hquiet|(p & fees & st & s2 & Hparse & _ & Hout & Hq2 & Hend)].
    { destruct (quiet_member _ _ Hquiet Hin) as [Hno _]. congruence. }
    cbn zeta in Hend. destruct Hend as [[Hfee _]|[_ Hdecl]].
    + apply parse_request_ret in Hparse.
      destruct Hparse as (_ & _ & _ & (txbytes & Htxn & Htx) & Hn & Hn0 & Hneq & Hcs & Hclen
                          & _).
      exists txbytes, (tx p), (num_inputs p). rewrite <- Hcs.
      repeat split; try assumption; try apply Hout; apply Hfee.
    + exfalso. rewrite Hdecl in Hin.
      destruct (declined_fee_trace (use_ae_signatures p)
                  (add_trace s2
                     [DisplayFinalConfirmation fees
                        (warning_for (aggregate_inputs_scripts_flavour st))]))
        as (tail & Htail & Hqtail).
      rewrite Htail in Hin. cbn [trace add_trace] in Hin.
      apply in_app_or in Hin. destruct Hin as [Hin|Hin].
      * apply in_app_or in Hin. destruct Hin as [Hin|[<-|[]]].
        -- destruct (quiet_member _ _ Hq2 Hin). congruence.
        -- discriminate.
      * destruct (quiet_member _ _ Hqtail Hin). congruence.
  - intros txbytes tx0 Hmethod Hnet Hliquid Htxn Hne Htx Hviol.
    assert (Hparse : exists message,
      parse_request req (initial_pstate req host)
      = (Cleanup,
         add_trace (initial_pstate req host)
           [Reject (req_id req) CBOR_RPC_BAD_PARAMETERS message])).
    { unfold parse_request. rewrite Hmethod.
      change ("sign_liquid_tx" =? "sign_liquid_tx")%string with true.
      unfold bind at 1. cbn [JADE_ASSERT ret].
      rewrite Hnet, Hliquid, Htxn.
      destruct txbytes as [|b txbytes]; [contradiction|].
      rewrite Htx. unfold counts_violated in Hviol.
      destruct (req_num_inputs req) as [n|]; [|eexists; reflexivity].
      destruct (n =? 0) eqn:Hn0; [eexists; reflexivity|].
      destruct (n =? num_inputs_of tx0) eqn:Hneq; [|eexists; reflexivity].
      cbn [negb].
      destruct (Z.of_nat (List.length (req_trusted_commitments req)) =? 0) eqn:Hc0;
        [eexists; reflexivity|].
      destruct (Z.of_nat (List.length (req_trusted_commitments req)) =? num_outputs_of tx0)
        eqn:Hceq; [|eexists; reflexivity].
      exfalso. apply Z.eqb_neq in Hn0. apply Z.eqb_eq in Hneq, Hceq.
      destruct Hviol as [[Hv|Hv]|Hv]; contradiction. }
    destruct Hparse as (message & Hparse). exists message.
    unfold session, sign_liquid_tx_process, bind at 1. rewrite Hparse. reflexivity.
  - intros Hviol.
    pose proof (silent_parse_request req (initial_pstate req host)) as Hsilent.
    destruct (parse_request req (initial_pstate req host)) as [[p| | |] s'] eqn:Hparse.
    + exfalso. apply parse_request_ret in Hparse.
      destruct Hparse as (_ & _ & _ & (txbytes & Htxn & Htx) & Hn & Hn0 & Hneq & Hcs
                          & Hclen & _).
      specialize (Hviol txbytes (tx p) Htxn Htx). unfold counts_violated in Hviol.
      rewrite Hn, <- Hcs in Hviol. destruct Hviol as [[Hv|Hv]|Hv]; contradiction.
    + assert (E : session req ui host = (Cleanup, s'))
        by (unfold session, sign_liquid_tx_process, bind at 1; rewrite Hparse; reflexivity).
      rewrite E. destruct Hsilent as (code & message & ->). cbn.
      split; [discriminate|]. split; reflexivity.
    + contradiction.
    + assert (E : session req ui host = (Abort, s'))
        by (unfold session, sign_liquid_tx_process, bind at 1; rewrite Hparse; reflexivity).
      rewrite E. subst s'. cbn. split; [discriminate|]. split; reflexivity.
Qed.

(** C4 on the one-input sample: the session signs, and its counts and
    checkpoints are as stated; with a declared count of two it only
    rejects. *)
Lemma signature_requires_counts_and_confirmations_witness :
  (exists n, req_num_inputs (request [1] 1 commitments_one false) = Some n /\ n <> 0
             /\ @fee_accepted model_externals accept_both)
  /\ exists message,
       run (request [1] 2 commitments_one false) accept_both [signed_input "2"]
       = (Cleanup,
          add_trace (initial_pstate (request [1] 2 commitments_one false) [signed_input "2"])
            [Reject "1" CBOR_RPC_BAD_PARAMETERS message]).
Proof.
  split.
  - destruct (proj1 (@signature_requires_counts_and_confirmations upstream_tags
                       model_crypto model_externals (request [1] 1 commitments_one false)
                       accept_both [signed_input "2"]))
      as (txbytes & tx0 & n & _ & _ & Hn & Hn0 & _ & _ & _ & Hfee).
    + eexists. split; [vm_compute; do 6 right; left; reflexivity | reflexivity].
    + exists n. auto.
  - apply (proj1 (proj2 (@signature_requires_counts_and_confirmations upstream_tags
                    model_crypto model_externals (request [1] 2 commitments_one false)
                    accept_both [signed_input "2"])) [1] tx_one);
      try reflexivity; [discriminate|].
    left. right. discriminate.
Defined.

(** C6. The fee shown on the final confirmation screen is the sum, in
    64-bit arithmetic, of the satoshi values of exactly those outputs of the
    parsed transaction that are plaintext (value prefix 0x01) and have no
    script; it is that sum itself whenever the sum fits 64 bits. *)
Theorem fee_total_counts_scriptless_plaintext_outputs
    {tags : Tags} {crypto : Crypto} {ext : Externals}
    (req : sign_request) (ui : ui_events) (host : list in_message)
    (fees : Z) (warning_msg : option string) :
  In (DisplayFinalConfirmation fees warning_msg) (trace (snd (session req ui host))) ->
  exists txbytes tx0,
    req_txn req = Some txbytes /\ wally_tx_from_bytes txbytes = Some tx0
    /\ let total := fee_sum (outputs tx0) (output_info_before req tx0) in
       fees = total mod 2 ^ 64
       /\ (0 <= total < 2 ^ 64 -> fees = total).
Proof.
  intros Hin.
  destruct (session_end req ui host)
    as [Hquiet|(p & fees0 & st & s2 & Hparse & Hfees & _ & Hq2 & Hend)].
  { destruct (quiet_member _ _ Hquiet Hin) as [_ Hno]. discriminate. }
  assert (Hsame : fees = fees0).
  { cbn zeta in Hend.
    assert (Hcases : In (DisplayFinalConfirmation fees warning_msg) (trace s2)
                     \/ DisplayFinalConfirmation fees0
                          (warning_for (aggregate_inputs_scripts_flavour st))
                        = DisplayFinalConfirmation fees warning_msg
                     \/ exists tail, forallb quiet
                                       (filter (fun a => negb (is_signature_reply a)) tail)
                                     = true
                                     /\ In (DisplayFinalConfirmation fees warning_msg) tail).
    { destruct Hend as [[_ Hacc]|[_ Hdecl]].
      - rewrite Hacc in Hin. cbn [snd trace add_trace] in Hin.
        apply in_app_or in Hin. destruct Hin as [Hin|Hin].
        + apply in_app_or in Hin. destruct Hin as [Hin|[Hin|[]]]; auto.
        + right. right. eexists. split; [|exact Hin].
          destruct (use_ae_signatures p); reflexivity.
      - rewrite Hdecl in Hin.
        destruct (declined_fee_trace (use_ae_signatures p)
                    (add_trace s2
                       [DisplayFinalConfirmation fees0
                          (warning_for (aggregate_inputs_scripts_flavour st))]))
          as (tail & Htail & Hqtail).
        rewrite Htail in Hin. cbn [trace add_trace] in Hin.
        apply in_app_or in Hin. destruct Hin as [Hin|Hin].
        + apply in_app_or in Hin. destruct Hin as [Hin|[Hin|[]]]; auto.
        + right. right. exists tail. split; [|exact Hin].
          clear - Hqtail. induction tail as [|a tail IH]; [reflexivity|].
          cbn in Hqtail |- *. apply andb_true_iff in Hqtail. destruct Hqtail as [Ha Ht].
          destruct (negb (is_signature_reply a)); cbn; rewrite ?Ha; auto. }
    destruct Hcases as [Hin2|[Heq|(tail & Hq & Hin2)]].
    - destruct (quiet_member _ _ Hq2 Hin2). discriminate.
    - congruence.
    - assert (Hin3 : In (DisplayFinalConfirmation fees warning_msg)
                        (filter (fun a => negb (is_signature_reply a)) tail))
        by (apply filter_In; split; [exact Hin2 | reflexivity]).
      destruct (quiet_member _ _ Hq Hin3). discriminate. }
  rewrite Hsame. clear Hsame Hin.
  apply parse_request_ret in Hparse.
  destruct Hparse as (_ & _ & _ & (txbytes & Htxn & Htx) & _ & _ & _ & _ & _ & _ & _ & Hoi).
  exists txbytes, (tx p). rewrite <- Hoi. cbn zeta.
  repeat split; try assumption.
  intros Hrange. rewrite Hfees. apply Z.mod_small. exact Hrange.
Qed.

(** C6 on the one-input sample: of a blinded output, a scriptless plaintext
    output of 250 and a plaintext payment of 99, only the 250 is the fee. *)
Lemma fee_total_counts_scriptless_plaintext_outputs_witness :
  In (DisplayFinalConfirmation 250 None)
     (trace (snd (run (request [1] 1 commitments_one false) accept_both
                    [signed_input "2"])))
  /\ @fee_sum model_externals (outputs tx_one)
       (@output_info_before model_externals (request [1] 1 commitments_one false) tx_one)
     = 250.
Proof.
  assert (Hin : In (DisplayFinalConfirmation 250 None)
                  (trace (snd (run (request [1] 1 commitments_one false) accept_both
                                 [signed_input "2"]))))
    by (vm_compute; do 4 right; left; reflexivity).
  split; [exact Hin|].
  destruct (@fee_total_counts_scriptless_plaintext_outputs upstream_tags model_crypto
              model_externals _ _ _ _ _ Hin) as (txbytes & tx0 & Htxn & Htx & _ & Hfit).
  injection Htxn as <-. injection Htx as <-.
  symmetry. apply Hfit. vm_compute. split; [discriminate | reflexivity].
Defined.

(** The loop that has consumed [k] good messages rejects the next one with
    protocol-error when it is of another kind. *)
Lemma stream_inputs_protocol_error {tags : Tags} {crypto : Crypto} {ext : Externals}
    (k j index : nat) (tx : wally_tx) (ae : bool) (st st1 : input_state)
    (s s1 : pstate) (m : in_message) (rest : list in_message) :
  stream_inputs k index tx ae st s = (Ret st1, s1) ->
  inbox s1 = m :: rest -> in_method m <> "tx_input"%string ->
  stream_inputs (k + S j) index tx ae st s
  = (Cleanup,
     add_trace (after_load s1 m rest)
       [Reject (in_id m) CBOR_RPC_PROTOCOL_ERROR
          "Unexpected message, expecting 'tx_input'"%string]).
Proof.
  revert index st s. induction k as [|k IH]; intros index st s Hrun Hinbox Hkind.
  - apply ret_inv in Hrun. destruct Hrun as [_ <-].
    cbn [Nat.add stream_inputs]. unfold bind at 1.
    rewrite (stream_input_wrong_kind _ _ _ _ _ _ _ Hinbox Hkind). reflexivity.
  - cbn [stream_inputs] in Hrun. bind_inv_as Hrun st0 E.
    cbn [Nat.add stream_inputs]. rewrite (bind_ret _ _ _ _ _ E).
    apply IH; assumption.
Qed.

(** C5. An input loop over all the inputs that falls through has fed the
    SHA-256 context, for every input in order and whatever its message
    carried, the 32 bytes of the previous txid followed by the four
    little-endian bytes of the previous-output index, and nothing else; the
    finalized prevout hash is SHA256(SHA256(...)) of that concatenation: a
    function of the inputs alone. *)
Theorem prevout_hash_covers_every_input
    {tags : Tags} {crypto : Crypto} {ext : Externals}
    (tx : wally_tx) (ae : bool) (st0 st : input_state) (s s' s'' : pstate)
    (hash_prevouts_double : bytes) :
  hash_prevout_sha_ctx st0 = [] ->
  stream_inputs (List.length (inputs tx)) 0 tx ae st0 s = (Ret st, s') ->
  finalize_hash_prevouts (hash_prevout_sha_ctx st) s' = (Ret hash_prevouts_double, s'') ->
  hash_prevout_sha_ctx st = List.concat (map prevout_bytes (inputs tx))
  /\ hash_prevouts_double
     = SHA256 (SHA256 (List.concat (map prevout_bytes (inputs tx))))
  /\ (forall input, In input (inputs tx) ->
        prevout_bytes input
        = firstn 32 (txhash input) ++ le_bytes 4 (index input)
        /\ le_decode (le_bytes 4 (index input)) = index input mod 2 ^ 32
        /\ ((32 <= List.length (txhash input))%nat ->
            List.length (prevout_bytes input) = 36%nat)).
Proof.
  intros Hctx0 Hloop Hfin.
  apply stream_inputs_ret in Hloop.
  destruct Hloop as (consumed & t & _ & _ & _ & _ & _ & _ & Hctx).
  rewrite Hctx0, skipn_O, firstn_all, app_nil_l in Hctx.
  split; [exact Hctx|]. split.
  - unfold finalize_hash_prevouts in Hfin.
    destruct (mbedtls_sha256_finish_ret (hash_prevout_sha_ctx st) =? 0); cbn [negb] in Hfin;
      [|apply reject_not_ret in Hfin; contradiction].
    apply ret_inv in Hfin. destruct Hfin as [<- _]. rewrite Hctx. reflexivity.
  - intros input _. unfold prevout_bytes. rewrite value_to_le_le_bytes.
    repeat split.
    + apply (le_decode_le_bytes 4).
    + intros Hlen. rewrite length_app, firstn_length_le, length_le_bytes by exact Hlen.
      reflexivity.
Qed.

(** C5 on the two-input sample, one input signed and one not: both prevouts
    are in the hash, as 32 + 4 bytes each. *)
Lemma prevout_hash_covers_every_input_witness :
  exists st s',
    @stream_inputs model_externals 2 0 tx_two false
      (initial_input_state 2)
      (initial_pstate (request [2] 2 commitments_one_odd false)
         [signed_input "2"; unsigned_input "3"])
    = (Ret st, s')
    /\ hash_prevout_sha_ctx st
       = (repeat 7 32 ++ [1; 0; 0; 0]) ++ (repeat 9 32 ++ [2; 1; 0; 0])
    /\ @SHA256 model_crypto (@SHA256 model_crypto (hash_prevout_sha_ctx st))
       = hash_of tx_two.
Proof.
  destruct (@stream_inputs model_externals 2 0 tx_two false
              (initial_input_state 2)
              (initial_pstate (request [2] 2 commitments_one_odd false)
                 [signed_input "2"; unsigned_input "3"])) as [[st| | |] s'] eqn:Hloop;
    try (vm_compute in Hloop; discriminate Hloop).
  exists st, s'. split; [reflexivity|].
  destruct (@prevout_hash_covers_every_input upstream_tags model_crypto model_externals
              tx_two false (initial_input_state 2) st _ s' s'
              (@SHA256 model_crypto (@SHA256 model_crypto (hash_prevout_sha_ctx st)))
              eq_refl Hloop eq_refl) as (Hctx & Hhash & _).
  split; [rewrite Hctx; reflexivity | exact Hhash].
Defined.

(** C7, as the code has it.  An input loop that falls through has loaded
    exactly [n] messages, one per iteration, all of kind ["tx_input"], and
    has left the rest of the host's stream unread; a message of another
    kind that comes up after [k < n] good ones is rejected with
    protocol-error; and while the host has sent fewer than [n] messages,
    all of kind ["tx_input"], the loop neither falls through nor sends a
    protocol-error. *)
Theorem input_stream_consumes_declared_count
    {tags : Tags} {crypto : Crypto} {ext : Externals}
    (n index : nat) (tx : wally_tx) (ae : bool) (st : input_state) (s : pstate) :
  (forall st' s',
      stream_inputs n index tx ae st s = (Ret st', s') ->
      exists consumed t,
        inbox s = consumed ++ inbox s' /\ List.length consumed = n
        /\ Forall (fun m => in_method m = "tx_input"%string) consumed
        /\ trace s' = trace s ++ t /\ loaded t = consumed)
  /\ (forall k j st1 s1 m rest,
        n = (k + S j)%nat ->
        stream_inputs k index tx ae st s = (Ret st1, s1) ->
        inbox s1 = m :: rest -> in_method m <> "tx_input"%string ->
        stream_inputs n index tx ae st s
        = (Cleanup,
           add_trace (after_load s1 m rest)
             [Reject (in_id m) CBOR_RPC_PROTOCOL_ERROR
                "Unexpected message, expecting 'tx_input'"%string]))
  /\ (Forall (fun m => in_method m = "tx_input"%string) (inbox s) ->
      (List.length (inbox s) < n)%nat ->
      (forall st' s', stream_inputs n index tx ae st s <> (Ret st', s'))
      /\ exists t, trace (snd (stream_inputs n index tx ae st s)) = trace s ++ t
                   /\ forallb not_protocol_error t = true).
Proof.
  split; [|split].
  - intros st' s' Hrun. apply stream_inputs_ret in Hrun.
    destruct Hrun as (consumed & t & H1 & H2 & H3 & H4 & H5 & _).
    exists consumed, t. auto.
  - intros k j st1 s1 m rest -> Hrun Hinbox Hkind.
    eapply stream_inputs_protocol_error; eassumption.
  - intros Hall Hshort. split.
    + intros st' s' Hrun. apply stream_inputs_ret in Hrun.
      destruct Hrun as (consumed & t & H1 & H2 & _).
      rewrite H1, length_app in Hshort. lia.
    + apply stream_inputs_emits; auto.
Qed.

(** C7 on the two-input sample: two good messages are consumed and a third
    is left; a ["get_signature"] in second place draws a protocol-error. *)
Lemma input_stream_consumes_declared_count_witness :
  let s := initial_pstate (request [2] 2 commitments_one_odd false)
             [signed_input "2"; get_signature "3"] in
  exists st1 s1,
    @stream_inputs model_externals 1 0 tx_two false
      (initial_input_state 2) s = (Ret st1, s1)
    /\ @stream_inputs model_externals 2 0 tx_two false
         (initial_input_state 2) s
       = (Cleanup,
          add_trace (after_load s1 (get_signature "3") [])
            [Reject "3" CBOR_RPC_PROTOCOL_ERROR
               "Unexpected message, expecting 'tx_input'"%string]).
Proof.
  cbn zeta.
  destruct (@stream_inputs model_externals 1 0 tx_two false
              (initial_input_state 2)
              (initial_pstate (request [2] 2 commitments_one_odd false)
                 [signed_input "2"; get_signature "3"])) as [[st1| | |] s1] eqn:Hrun;
    try (vm_compute in Hrun; discriminate Hrun).
  exists st1, s1. split; [reflexivity|].
  destruct (@input_stream_consumes_declared_count upstream_tags model_crypto
              model_externals 2 0 tx_two false (initial_input_state 2)
              (initial_pstate (request [2] 2 commitments_one_odd false)
                 [signed_input "2"; get_signature "3"])) as (_ & Hkind & _).
  apply (Hkind 1%nat 0%nat st1 s1 (get_signature "3") []);
    [reflexivity | exact Hrun | | discriminate].
  vm_compute in Hrun. injection Hrun as _ <-. reflexivity.
Defined.

(** C7 as stated fails.  With one declared input and a legacy session, a
    host stream of two ["tx_input"] messages is not rejected: the session
    signs and leaves the second message unread.  And with two declared
    inputs, a stream of one message leaves the session waiting, with no
    rejection sent. *)
Lemma longer_or_shorter_stream_is_not_rejected :
  (let r := run (request [1] 1 commitments_one false) accept_both
              [signed_input "2"; signed_input "3"] in
   fst r = Ret tt
   /\ existsb is_protocol_error (trace (snd r)) = false
   /\ existsb is_signature_reply (trace (snd r)) = true
   /\ inbox (snd r) = [signed_input "3"])
  /\ (let r := run (request [2] 2 commitments_one_odd false) accept_both
                 [signed_input "2"] in
      fst r = Blocked
      /\ existsb is_protocol_error (trace (snd r)) = false
      /\ loaded (trace (snd r)) = [signed_input "2"]).
Proof.
  vm_compute. repeat split.
Qed.

(** C9, as the code has it.  At the second checkpoint a decline makes
    [confirm_fee] load one further message when anti-exfil signatures are
    in use, and then reject the then-current message with user-cancelled;
    nothing is sent in between.  So a session whose user declines the fee
    ends, after the final confirmation screen, with that load and the
    single rejection on the loaded message (or waiting for the message) in
    anti-exfil mode, and with the single rejection alone, no message being
    loaded, in legacy mode. *)
Theorem fee_decline_rejects_once
    {tags : Tags} {crypto : Crypto} {ext : Externals}
    (req : sign_request) (ui : ui_events) (host : list in_message)
    (fees : Z) (warning_msg : option string) :
  negb (fee_ret ui) || negb (fee_ev_id ui =? BTN_ACCEPT_SIGNATURE) = true ->
  In (DisplayFinalConfirmation fees warning_msg) (trace (snd (session req ui host))) ->
  (forall ae s, confirm_fee ui ae s = declined_fee ae s)
  /\ exists s5 before final_confirmation,
       trace s5 = before ++ [final_confirmation]
       /\ forallb quiet before = true
       /\ is_final_confirmation final_confirmation = true
       /\ let use_ae := match req_use_ae_signatures req with Some b => b | None => false end in
          session req ui host = declined_fee use_ae s5
          /\ (use_ae = false ->
              session req ui host
              = (Cleanup,
                 add_trace s5 [Reject (current s5) CBOR_RPC_USER_CANCELLED
                                 "User declined to sign transaction"%string]))
          /\ (use_ae = true ->
              match inbox s5 with
              | [] => session req ui host = (Blocked, s5)
              | m :: rest =>
                  session req ui host
                  = (Cleanup,
                     {| inbox := rest; current := in_id m;
                        trace := trace s5
                                 ++ [LoadInMessage m;
                                     Reject (in_id m) CBOR_RPC_USER_CANCELLED
                                       "User declined to sign transaction"%string] |})
              end).
Proof.
  intros Hdecline Hin.
  split; [intros ae s; apply confirm_fee_decline; exact Hdecline|].
  destruct (session_end req ui host)
    as [Hquiet|(p & fees0 & st & s2 & Hparse & _ & _ & Hq2 & Hend)].
  { destruct (quiet_member _ _ Hquiet Hin) as [_ Hno]. discriminate. }
  cbn zeta in Hend. destruct Hend as [[Hfee _]|[_ Hdecl]].
  { apply fee_accepted_dec in Hfee. congruence. }
  apply parse_request_ret in Hparse.
  destruct Hparse as (_ & _ & _ & _ & _ & _ & _ & _ & _ & _ & Hae & _).
  rewrite Hae in Hdecl.
  exists (add_trace s2
            [DisplayFinalConfirmation fees0
               (warning_for (aggregate_inputs_scripts_flavour st))]),
    (trace s2),
    (DisplayFinalConfirmation fees0 (warning_for (aggregate_inputs_scripts_flavour st))).
  split; [reflexivity|].
  split; [exact Hq2|]. split; [reflexivity|]. cbn zeta.
  split; [exact Hdecl|]. rewrite Hdecl. unfold declined_fee. split.
  - intros ->. reflexivity.
  - intros ->. cbn [inbox add_trace].
    destruct (inbox s2) as [|m rest]; [reflexivity|].
    unfold add_trace, after_load. cbn. rewrite <- !app_assoc. reflexivity.
Qed.

(** C9 on the one-input sample, in legacy mode: the decline rejects the
    last input message and loads nothing. *)
Lemma fee_decline_rejects_once_witness :
  after_final_confirmation
    (trace (snd (run (request [1] 1 commitments_one false) decline_fee
                   [signed_input "2"; get_signature "3"])))
  = [Reject "2" CBOR_RPC_USER_CANCELLED "User declined to sign transaction"%string]
  /\ forall s, @confirm_fee model_externals decline_fee false s = declined_fee false s.
Proof.
  split; [vm_compute; reflexivity|].
  assert (Hin : In (DisplayFinalConfirmation 250 None)
                  (trace (snd (run (request [1] 1 commitments_one false) decline_fee
                                 [signed_input "2"; get_signature "3"]))))
    by (vm_compute; do 4 right; left; reflexivity).
  destruct (@fee_decline_rejects_once upstream_tags model_crypto model_externals
              _ decline_fee _ _ _ eq_refl Hin) as [Hconfirm _].
  intros s. apply Hconfirm.
Defined.

(** C9 as stated fails.  In anti-exfil mode the only per-input reply was
    sent inside the input loop; after the final confirmation screen the
    declined session loads the host's next message and rejects it, and no
    reply is sent between the screen and the rejection. *)
Lemma fee_decline_flushes_no_reply :
  let t := trace (snd (run (request [1] 1 commitments_one true) decline_fee
                         [signed_input "2"; get_signature "3"])) in
  after_final_confirmation t
  = [LoadInMessage (get_signature "3");
     Reject "3" CBOR_RPC_USER_CANCELLED "User declined to sign transaction"%string]
  /\ filter is_reply (removelast (after_final_confirmation t)) = []
  /\ filter is_reply t
     = [ReplyOk "1"; ReplyBytes "2" (2 :: repeat 6 32);
        Reject "3" CBOR_RPC_USER_CANCELLED "User declined to sign transaction"%string].
Proof.
  vm_compute. repeat split.
Qed.

End SessionClaims.

(* ------------------------------------------------------------------ *)
(** ** More on the network table *)
(* ------------------------------------------------------------------ *)

Module NetworkExtras.
Import Network NetworkVocabulary NetworkFacts.

(** X1. For a valid network the minimum allowed number of CSV blocks is one
    of the numbers [csvBlocksExpectedForNetwork] expects for it, and no
    expected number is below it. *)
Theorem minimum_csv_blocks_is_least_expected {tags : Tags} (network : option string) :
  isValidNetwork network = true ->
  exists least,
    networkToMinAllowedCsvBlocks network = Some (Mapped least)
    /\ csvBlocksExpectedForNetwork network least = Some (Mapped true)
    /\ forall csvBlocks,
         csvBlocksExpectedForNetwork network csvBlocks = Some (Mapped true) ->
         least <= csvBlocks.
Proof.
  intros Hvalid. destruct (valid_is_some network Hvalid) as [n ->].
  pose proof Hvalid as Hv. cbn [isValidNetwork] in Hv.
  unfold networkToMinAllowedCsvBlocks, csvBlocksExpectedForNetwork, assert_valid.
  rewrite Hvalid. cbn beta.
  split_tags n; cbn in Hv; try discriminate; cbn [orb];
    eexists; (split; [reflexivity|]); (split; [reflexivity|]);
    intros csvBlocks H; injection H as H;
    repeat (apply orb_true_iff in H; destruct H as [H|H]);
    apply Z.eqb_eq in H; lia.
Qed.

(** X1 on ["testnet"]: the minimum is 144, and 4320 is expected too. *)
Lemma minimum_csv_blocks_is_least_expected_witness :
  @networkToMinAllowedCsvBlocks upstream_tags (Some "testnet"%string) = Some (Mapped 144)
  /\ 144 <= 4320.
Proof.
  destruct (@minimum_csv_blocks_is_least_expected upstream_tags (Some "testnet"%string)
              eq_refl) as (least & Hmin & _ & Hleast).
  split; [reflexivity|].
  injection Hmin as <-. apply Hleast. reflexivity.
Defined.



Lemma tag_is_eq {tags : Tags} (tag n : string) : tag_is tag n = true <-> tag = n.
Proof. apply String.eqb_eq. Qed.

(** X3. When the six tags are different strings, the key version follows
    the test classification: a valid network gets [BIP32_VER_TEST_PRIVATE]
    exactly when [isTestNetwork] holds for it and [BIP32_VER_MAIN_PRIVATE]
    otherwise, and only a test network uses the testnet asset set. *)
Theorem version_follows_test_classification {tags : Tags} {wally : WallyConstants}
    (network : option string) (is_test : bool) :
  distinct_tags ->
  isTestNetwork network = Some is_test ->
  networkToVersion network
  = Some (Mapped (if is_test then BIP32_VER_TEST_PRIVATE else BIP32_VER_MAIN_PRIVATE))
  /\ (networkUsesTestnetAssets network = Some true -> is_test = true).
Proof.
  intros Hdistinct Htest.
  assert (Hvalid : isValidNetwork network = true).
  { unfold isTestNetwork, assert_valid in Htest. destruct network as [n|]; [|discriminate].
    destruct (isValidNetwork (Some n)); [reflexivity | discriminate]. }
  destruct (valid_is_some network Hvalid) as [n ->].
  unfold networkToVersion, networkUsesTestnetAssets, assert_liquid, isLiquidNetwork.
  rewrite !assert_valid_runs by exact Hvalid. rewrite Htest.
  unfold isTestNetwork in Htest. rewrite assert_valid_runs in Htest by exact Hvalid.
  injection Htest as Htest. cbn [isValidNetwork] in Hvalid.
  unfold distinct_tags in Hdistinct.
  split.
  - destruct (tag_is TAG_MAINNET n) eqn:E1.
    + apply tag_is_eq in E1. subst n. cbn [orb].
      replace is_test with false; [reflexivity|]. rewrite <- Htest. symmetry.
      repeat (apply orb_false_iff; split); apply String.eqb_neq; intros E;
        rewrite E in Hdistinct; inversion Hdistinct as [|? ? Hnot _]; apply Hnot;
        cbn; tauto.
    + destruct (tag_is TAG_LIQUID n) eqn:E2.
      * apply tag_is_eq in E2. subst n. cbn [orb].
        replace is_test with false; [reflexivity|]. rewrite <- Htest. symmetry.
        inversion Hdistinct as [|? ? _ Hd1]. 
        repeat (apply orb_false_iff; split); apply String.eqb_neq; intros E;
          rewrite E in Hd1; inversion Hd1 as [|? ? Hnot _]; apply Hnot; cbn; tauto.
      * cbn [orb]. destruct is_test; [reflexivity|].
        exfalso. cbn [orb] in Hvalid. congruence.
  - destruct (tag_is TAG_LIQUID n || tag_is TAG_TESTNETLIQUID n
              || tag_is TAG_LOCALTESTLIQUID n); [|discriminate].
    intros H. injection H as H. rewrite <- Htest, H.
    destruct (tag_is TAG_TESTNET n); reflexivity.
Qed.

(** X3 on ["localtest-liquid"], a test network. *)
Lemma version_follows_test_classification_witness :
  @networkToVersion upstream_tags libwally_constants (Some "localtest-liquid"%string)
  = Some (Mapped 70615956).
Proof.
  refine (proj1 (@version_follows_test_classification upstream_tags libwally_constants
                   (Some "localtest-liquid"%string) true _ eq_refl)).
  unfold distinct_tags.
  repeat (apply NoDup_cons;
          [cbn; intros H; repeat (destruct H as [H|H]; [discriminate H|]); exact H|]).
  apply NoDup_nil.
Defined.

End NetworkExtras.

(* ------------------------------------------------------------------ *)
(** ** keychain.c: what holds from power-up *)
(* ------------------------------------------------------------------ *)

Module KeychainInvariants.
Import Network Keychain Commitments KeychainState KeychainCalls KeychainFacts.

Section Calls.
Context {tags : Tags} {kx : KeychainExternals}.


Lemma set_restriction_keeps_keys (network : option string) (g g' : globals) :
  keychain_set_network_type_restriction network g = Some g' ->
  keychain_data g' = keychain_data g /\ keychain_temporary g' = keychain_temporary g
  /\ has_encrypted_blob g' = has_encrypted_blob g.
Proof.
  unfold keychain_set_network_type_restriction.
  destruct (keychain_is_network_type_consistent network g) as [[|]|]; try discriminate.
  destruct (network_type_eqb _ _); [|intros [= <-]; auto].
  destruct (isTestNetwork network) as [is_test|]; try discriminate.
  destruct (keychain_has_pin g).
  - destruct (keychain_has_temporary g) as [temporary|]; try discriminate.
    destruct (negb temporary); cbn;
      match goal with |- context [if ?c then _ else _] => destruct c end;
      intros [= <-]; cbn; auto.
  - match goal with |- context [if ?c then _ else _] => destruct c end;
      intros [= <-]; cbn; auto.
Qed.

Lemma clear_restriction_keeps_keys (g g' : globals) :
  keychain_clear_network_type_restriction g = Some g' ->
  keychain_data g' = keychain_data g /\ keychain_temporary g' = keychain_temporary g
  /\ has_encrypted_blob g' = has_encrypted_blob g
  /\ network_type_restriction g' = NETWORK_TYPE_NONE.
Proof.
  unfold keychain_clear_network_type_restriction.
  destruct (keychain_has_temporary g) as [temporary|]; try discriminate.
  destruct (negb temporary); intros [= <-]; cbn; auto.
Qed.

Lemma try_new_privatekey_spec (attempts : nat) (random : nat -> bytes) (drawn : nat)
    (privatekey : bytes) :
  let '(ok, key, drawn') := try_new_privatekey attempts random drawn privatekey in
  exists used : nat,
    drawn' = (drawn + used)%nat /\ (used <= attempts)%nat
    /\ (forall k, (k < used - (if ok then 1 else 0))%nat ->
                  wally_ec_private_key_verify (random (drawn + k)%nat) = false)
    /\ (if ok
        then (0 < used)%nat /\ key = random (drawn + used - 1)%nat
             /\ wally_ec_private_key_verify key = true
        else used = attempts
             /\ key = match attempts with O => privatekey
                                     | S n => random (drawn + n)%nat end).
Proof.
  revert drawn privatekey.
  induction attempts as [|attempts IH]; intros drawn privatekey; cbn.
  - exists 0%nat. split; [lia|]. split; [lia|]. split; [intros k Hk; lia|].
    split; reflexivity.
  - destruct (wally_ec_private_key_verify (random drawn)) eqn:Hverify.
    + exists 1%nat. split; [lia|]. split; [lia|]. split; [intros k Hk; lia|].
      split; [lia|]. split; [f_equal; lia|exact Hverify].
    + specialize (IH (S drawn) (random drawn)).
      destruct (try_new_privatekey attempts random (S drawn) (random drawn))
        as [[ok key] drawn'].
      destruct IH as (used & Hdrawn & Hused & Hfail & Hend).
      exists (S used). split; [lia|]. split; [lia|]. split.
      * intros k Hk. destruct k as [|k].
        -- rewrite Nat.add_0_r. exact Hverify.
        -- replace (drawn + S k)%nat with (S drawn + k)%nat by lia.
           apply Hfail. destruct ok; lia.
      * destruct ok.
        -- destruct Hend as (Hpos & Hkey & Hvalid).
           split; [lia|]. split; [|exact Hvalid].
           rewrite Hkey. f_equal. lia.
        -- destruct Hend as (Hall & Hkey). split; [lia|].
           rewrite Hkey. destruct attempts as [|n]; f_equal; lia.
Qed.

Lemma init_statics (random : nat -> bytes) (drawn : nat) (st : state) :
  let st' := snd (fst (keychain_init random drawn st)) in
  keychain_data (base st') = keychain_data (base st)
  /\ keychain_temporary (base st') = keychain_temporary (base st)
  /\ mnemonic_entropy st' = mnemonic_entropy st
  /\ mnemonic_entropy_len st' = mnemonic_entropy_len st.
Proof.
  unfold keychain_init.
  destruct (storage_pin_privatekey st); [cbn; auto|].
  destruct (keychain_get_new_privatekey _ _ _ _) as [[[|] key] drawn']; [|cbn; auto].
  destruct (storage_set_pin_privatekey _); cbn; auto.
Qed.

Lemma run_call_keeps_statics_ok (c : call) (st st' : state) :
  statics_ok st -> run_call c st = Some st' -> statics_ok st'.
Proof.
  intros (Htemp & Hlen & Hbuf) Hrun. unfold statics_ok.
  destruct c as [src userdata temporary| |mnemonic|b|b|network| | |random drawn];
    cbn in Hrun.
  - unfold keychain_set in Hrun. destruct src as [| |k]; try discriminate.
    + destruct (keychain_data (base st)) eqn:Hdata; try discriminate.
      injection Hrun as <-. cbn. unfold is_loaded. cbn. rewrite Hdata.
      repeat split; auto; apply repeat_length.
    + injection Hrun as <-. cbn. repeat split; auto; apply repeat_length.
  - injection Hrun as <-. cbn. repeat split; auto; try discriminate; apply repeat_length.
  - unfold keychain_cache_mnemonic_entropy in Hrun.
    destruct mnemonic as [mnemonic|]; try discriminate.
    destruct (keychain_temporary (base st)) eqn:Htmp; try discriminate.
    destruct (negb (mnemonic_entropy_len st =? 0)%nat); try discriminate.
    destruct (bip39_mnemonic_to_bytes mnemonic) as [entropy|]; try discriminate.
    destruct (BIP39_ENTROPY_LEN_256 <? List.length entropy)%nat eqn:Hfit; try discriminate.
    apply Nat.ltb_ge in Hfit.
    destruct ((List.length entropy =? BIP39_ENTROPY_LEN_128)%nat
              || (List.length entropy =? BIP39_ENTROPY_LEN_256)%nat) eqn:Hwords;
      try discriminate.
    injection Hrun as <-. cbn. rewrite Htmp.
    apply orb_true_iff in Hwords. rewrite !Nat.eqb_eq in Hwords.
    repeat split; [discriminate|tauto|].
    rewrite length_app, length_skipn. lia.
  - injection Hrun as <-. cbn. auto.
  - injection Hrun as <-. cbn. auto.
  - destruct (keychain_set_network_type_restriction network (base st)) as [g|] eqn:Hset;
      try discriminate.
    injection Hrun as <-. cbn.
    destruct (set_restriction_keeps_keys _ _ _ Hset) as (Hdata & Htmp & _).
    unfold is_loaded in *. rewrite Hdata, Htmp. auto.
  - destruct (keychain_clear_network_type_restriction (base st)) as [g|] eqn:Hclear;
      try discriminate.
    injection Hrun as <-. cbn.
    destruct (clear_restriction_keeps_keys _ _ Hclear) as (Hdata & Htmp & _).
    unfold is_loaded in *. rewrite Hdata, Htmp. auto.
  - unfold keychain_erase_encrypted in Hrun. cbn in Hrun.
    destruct (keychain_clear_network_type_restriction (base st)) as [g|] eqn:Hclear;
      try discriminate.
    injection Hrun as <-. cbn.
    destruct (clear_restriction_keeps_keys _ _ Hclear) as (Hdata & Htmp & _).
    unfold is_loaded in *. cbn. rewrite Hdata, Htmp. auto.
  - injection Hrun as <-.
    destruct (init_statics random drawn st) as (Hdata & Htmp & Hentropy & Hlen').
    unfold is_loaded in *. rewrite Hdata, Htmp, Hentropy, Hlen'. auto.
Qed.

Lemma powered_up_statics_ok (st : state) : powered_up st -> statics_ok st.
Proof.
  intros (Hdata & _ & _ & Htmp & _ & Hentropy & Hlen & _). unfold statics_ok.
  rewrite Htmp, Hentropy, Hlen. split; [discriminate|]. split; [auto|apply repeat_length].
Qed.

(** X4.  From power-up, through any run of the calls above that trips no
    assertion, the assertion inside [keychain_has_temporary] holds (a
    temporary keychain is a loaded one), so clearing the restriction and
    erasing the stored wallet cannot abort; and the cached entropy is
    absent, 16 or 32 bytes long. *)
Theorem temporary_flag_implies_loaded_keys (calls : list call) (st st' : state) :
  powered_up st ->
  run_calls calls st = Some st' ->
  keychain_has_temporary (base st') = Some (keychain_temporary (base st'))
  /\ keychain_clear_network_type_restriction (base st') <> None
  /\ keychain_erase_encrypted st' <> None
  /\ (keychain_requires_passphrase st' = true ->
      keychain_temporary (base st') = false
      /\ (mnemonic_entropy_len st' = BIP39_ENTROPY_LEN_128
          \/ mnemonic_entropy_len st' = BIP39_ENTROPY_LEN_256)).
Proof.
  intros Hup Hrun. apply powered_up_statics_ok in Hup.
  assert (Hok : statics_ok st').
  { revert st Hup Hrun. induction calls as [|c calls IH]; intros st Hup Hrun; cbn in Hrun.
    - injection Hrun as <-. exact Hup.
    - destruct (run_call c st) as [st1|] eqn:Hcall; try discriminate.
      eapply IH; [|exact Hrun]. eapply run_call_keeps_statics_ok; eauto. }
  destruct Hok as (Htemp & Hlen & _).
  assert (Hhas : keychain_has_temporary (base st') = Some (keychain_temporary (base st'))).
  { unfold keychain_has_temporary.
    destruct (keychain_temporary (base st')); cbn; [rewrite Htemp; auto|reflexivity]. }
  repeat match goal with |- _ /\ _ => split end.
  - exact Hhas.
  - unfold keychain_clear_network_type_restriction. rewrite Hhas. discriminate.
  - unfold keychain_erase_encrypted, keychain_clear_network_type_restriction. cbn.
    rewrite Hhas. discriminate.
  - unfold keychain_requires_passphrase. intros Hreq.
    apply andb_true_iff in Hreq. destruct Hreq as [Hnone Hsome].
    apply negb_true_iff in Hnone. apply negb_true_iff, Nat.eqb_neq in Hsome.
    split; [|tauto].
    destruct (keychain_temporary (base st')); [|reflexivity].
    rewrite Htemp in Hnone; [discriminate|reflexivity].
Qed.

End Calls.

Lemma temporary_flag_implies_loaded_keys_witness :
  exists st',
    @run_calls upstream_tags sample_externals
      sample_calls
      sample_boot = Some st'
    /\ keychain_has_temporary (base st') = Some true.
Proof.
  eexists. split; [vm_compute; reflexivity|].
  refine (proj1 (@temporary_flag_implies_loaded_keys upstream_tags sample_externals
                   sample_calls sample_boot _ _ _)).
  - vm_compute. repeat split; reflexivity.
  - vm_compute. reflexivity.
Defined.

End KeychainInvariants.

(* ------------------------------------------------------------------ *)
(** ** keychain.c: loading, forgetting and the passphrase flags *)
(* ------------------------------------------------------------------ *)

Module KeychainSessionExtras.
Import Network Keychain Commitments KeychainState KeychainFacts.



Section Flags.
Context {kx : KeychainExternals}.

Lemma uint8_testbit (v i : Z) :
  0 <= i -> Z.testbit (uint8 v) i = (i <? 8) && Z.testbit v i.
Proof.
  intros Hi. unfold uint8. change 256 with (2 ^ 8).
  destruct (i <? 8) eqn:Hlow.
  - apply Z.ltb_lt in Hlow. rewrite Z.mod_pow2_bits_low by lia. reflexivity.
  - apply Z.ltb_ge in Hlow. rewrite Z.mod_pow2_bits_high by lia. reflexivity.
Qed.

Lemma byte_high_bits (v i : Z) : 0 <= v < 256 -> 8 <= i -> Z.testbit v i = false.
Proof.
  intros Hv Hi. rewrite <- (Z.mod_small v (2 ^ 8)) by (change (2 ^ 8) with 256; lia).
  apply Z.mod_pow2_bits_high. lia.
Qed.

(** [key_flags &= ~clear; key_flags |= set;] bit by bit. *)
Lemma flag_update_testbit (flags clear set i : Z) :
  0 <= flags < 256 -> 0 <= set < 256 -> 0 <= i ->
  Z.testbit (uint8 (Z.lor (uint8 (Z.land flags (Z.lnot clear))) set)) i
  = (Z.testbit flags i && negb (Z.testbit clear i)) || Z.testbit set i.
Proof.
  intros Hflags Hset Hi.
  rewrite uint8_testbit, Z.lor_spec, uint8_testbit, Z.land_spec, Z.lnot_spec by lia.
  destruct (i <? 8) eqn:Hlow; [reflexivity|].
  apply Z.ltb_ge in Hlow.
  rewrite (byte_high_bits flags i), (byte_high_bits set i) by lia. reflexivity.
Qed.

Lemma uint8_range (v : Z) : 0 <= uint8 v < 256.
Proof. unfold uint8. apply Z.mod_pos_bound. lia. Qed.

(** X6.  With the two flag bits distinct bytes, choosing a default writes
    exactly one of them to the stored key flags, clears the other and leaves
    every other bit of the byte alone; afterwards
    [keychain_get_user_to_enter_passphrase] is true exactly when the default
    or the per-login choice asks for a passphrase.  The file's statics are
    not touched. *)
Theorem passphrase_default_sets_one_flag (use_passphrase : bool) (st : state) :
  0 <= storage_key_flags st < 256 ->
  0 < KEY_FLAGS_USER_TO_ENTER_PASSPHRASE < 256 ->
  0 < KEY_FLAGS_AUTO_DEFAULT_PASSPHRASE < 256 ->
  Z.land KEY_FLAGS_USER_TO_ENTER_PASSPHRASE KEY_FLAGS_AUTO_DEFAULT_PASSPHRASE = 0 ->
  let st' := keychain_set_user_to_enter_passphrase_by_default use_passphrase st in
  Z.land (storage_key_flags st') KEY_FLAGS_USER_TO_ENTER_PASSPHRASE
  = (if use_passphrase then KEY_FLAGS_USER_TO_ENTER_PASSPHRASE else 0)
  /\ Z.land (storage_key_flags st') KEY_FLAGS_AUTO_DEFAULT_PASSPHRASE
     = (if use_passphrase then 0 else KEY_FLAGS_AUTO_DEFAULT_PASSPHRASE)
  /\ (forall i, 0 <= i ->
        Z.testbit KEY_FLAGS_USER_TO_ENTER_PASSPHRASE i = false ->
        Z.testbit KEY_FLAGS_AUTO_DEFAULT_PASSPHRASE i = false ->
        Z.testbit (storage_key_flags st') i = Z.testbit (storage_key_flags st) i)
  /\ 0 <= storage_key_flags st' < 256
  /\ keychain_get_user_to_enter_passphrase st'
     = use_passphrase || keychain_user_to_enter_passphrase st
  /\ (forall once,
        keychain_get_user_to_enter_passphrase
          (keychain_set_user_to_enter_passphrase once st')
        = use_passphrase || once)
  /\ base st' = base st
  /\ mnemonic_entropy_len st' = mnemonic_entropy_len st.
Proof.
  intros Hflags Huser Hauto Hdisjoint st'.
  assert (Hbits : forall i, 0 <= i ->
            Z.testbit KEY_FLAGS_USER_TO_ENTER_PASSPHRASE i
            && Z.testbit KEY_FLAGS_AUTO_DEFAULT_PASSPHRASE i = false).
  { intros i Hi. rewrite <- Z.land_spec, Hdisjoint. apply Z.bits_0. }
  assert (Hland_user : Z.land (storage_key_flags st') KEY_FLAGS_USER_TO_ENTER_PASSPHRASE
                       = if use_passphrase then KEY_FLAGS_USER_TO_ENTER_PASSPHRASE else 0).
  { apply Z.bits_inj'. intros i Hi. subst st'.
    unfold keychain_set_user_to_enter_passphrase_by_default. cbn.
    specialize (Hbits i Hi).
    destruct use_passphrase; rewrite Z.land_spec, flag_update_testbit by lia.
    - destruct (Z.testbit KEY_FLAGS_USER_TO_ENTER_PASSPHRASE i);
        rewrite ?orb_true_r, ?andb_false_r; reflexivity.
    - rewrite Z.bits_0.
      destruct (Z.testbit KEY_FLAGS_USER_TO_ENTER_PASSPHRASE i),
               (Z.testbit KEY_FLAGS_AUTO_DEFAULT_PASSPHRASE i),
               (Z.testbit (storage_key_flags st) i); cbn in *; congruence. }
  assert (Hnonzero : forall once,
            keychain_get_user_to_enter_passphrase
              (set_user_flag once st') = use_passphrase || once).
  { intros once. unfold keychain_get_user_to_enter_passphrase.
    change (storage_key_flags (set_user_flag once st')) with (storage_key_flags st').
    rewrite Hland_user. cbn.
    destruct use_passphrase; cbn.
    - destruct (KEY_FLAGS_USER_TO_ENTER_PASSPHRASE =? 0) eqn:Hzero;
        [apply Z.eqb_eq in Hzero; lia|]. cbn. apply orb_true_r.
    - apply orb_false_r. }
  repeat match goal with |- _ /\ _ => split end.
  - exact Hland_user.
  - apply Z.bits_inj'. intros i Hi. subst st'.
    unfold keychain_set_user_to_enter_passphrase_by_default. cbn.
    specialize (Hbits i Hi).
    destruct use_passphrase; rewrite Z.land_spec, flag_update_testbit by lia.
    + rewrite Z.bits_0.
      destruct (Z.testbit KEY_FLAGS_USER_TO_ENTER_PASSPHRASE i),
               (Z.testbit KEY_FLAGS_AUTO_DEFAULT_PASSPHRASE i),
               (Z.testbit (storage_key_flags st) i); cbn in *; congruence.
    + destruct (Z.testbit KEY_FLAGS_AUTO_DEFAULT_PASSPHRASE i);
        rewrite ?orb_true_r, ?andb_false_r; reflexivity.
  - intros i Hi Hu Ha. subst st'.
    unfold keychain_set_user_to_enter_passphrase_by_default. cbn.
    destruct use_passphrase; rewrite flag_update_testbit by lia;
      rewrite Hu, Ha; cbn; rewrite orb_false_r, andb_true_r; reflexivity.
  - subst st'. unfold keychain_set_user_to_enter_passphrase_by_default. cbn.
    destruct use_passphrase; apply Z.mod_pos_bound; lia.
  - subst st'. unfold keychain_set_user_to_enter_passphrase_by_default. cbn.
    destruct use_passphrase; apply Z.mod_pos_bound; lia.
  - rewrite <- (Hnonzero (keychain_user_to_enter_passphrase st)). reflexivity.
  - exact Hnonzero.
  - reflexivity.
  - reflexivity.
Qed.

End Flags.

Lemma passphrase_default_sets_one_flag_witness :
  @keychain_get_user_to_enter_passphrase sample_externals
    (@keychain_set_user_to_enter_passphrase_by_default sample_externals true sample_state)
  = true
  /\ storage_key_flags
       (@keychain_set_user_to_enter_passphrase_by_default sample_externals true sample_state)
     = 129.
Proof.
  split; [|vm_compute; reflexivity].
  refine (proj1 (proj2 (proj2 (proj2 (proj2
            (@passphrase_default_sets_one_flag sample_externals true sample_state
               _ _ _ _)))))).
  - vm_compute. split; [discriminate|reflexivity].
  - vm_compute. split; reflexivity.
  - vm_compute. split; reflexivity.
  - vm_compute. reflexivity.
Defined.

End KeychainSessionExtras.

(* ------------------------------------------------------------------ *)
(** ** keychain.c: the unit key, start-up and the stored restriction *)
(* ------------------------------------------------------------------ *)

Module KeychainStorageExtras.
Import Network Keychain Commitments KeychainState NetworkFacts KeychainFacts
  KeychainCalls KeychainInvariants.

Section Facts.
Context {tags : Tags} {kx : KeychainExternals}.

Lemma new_privatekey_first (random : nat -> bytes) (drawn : nat) :
  let '(ok, key, drawn') :=
    keychain_get_new_privatekey (Some (repeat 0 EC_PRIVATE_KEY_LEN)) EC_PRIVATE_KEY_LEN
      random drawn in
  ok = true ->
  exists k, key = Some (random (drawn + k)%nat)
            /\ wally_ec_private_key_verify (random (drawn + k)%nat) = true.
Proof.
  unfold keychain_get_new_privatekey. cbn [Nat.eqb EC_PRIVATE_KEY_LEN negb].
  pose proof (try_new_privatekey_spec 4 random drawn (repeat 0 EC_PRIVATE_KEY_LEN))
    as Hspec.
  destruct (try_new_privatekey 4 random drawn (repeat 0 EC_PRIVATE_KEY_LEN))
    as [[ok key] drawn'].
  destruct Hspec as (used & _ & _ & _ & Hend).
  intros ->. destruct Hend as (Hpos & Hkey & Hvalid).
  exists (used - 1)%nat.
  replace (drawn + (used - 1))%nat with (drawn + used - 1)%nat by lia.
  rewrite <- Hkey. auto.
Qed.

(** X7.  [keychain_get_new_privatekey] succeeds exactly when it is given a
    buffer of [EC_PRIVATE_KEY_LEN] bytes and one of the next four random
    deliveries verifies as a private key; the key returned is the first
    such delivery and no randomness is drawn after it.  With bad arguments
    nothing is drawn and the buffer is untouched; after four rejected
    deliveries the buffer holds the last of them. *)
Theorem new_privatekey_is_first_valid_draw (privatekey : option bytes) (size : nat)
    (random : nat -> bytes) (drawn : nat) :
  let '(ok, key, drawn') := keychain_get_new_privatekey privatekey size random drawn in
  (ok = true <->
   privatekey <> None /\ size = EC_PRIVATE_KEY_LEN
   /\ exists k, (k < 4)%nat /\ wally_ec_private_key_verify (random (drawn + k)%nat) = true)
  /\ (ok = true ->
      exists k, (k < 4)%nat /\ key = Some (random (drawn + k)%nat)
                /\ wally_ec_private_key_verify (random (drawn + k)%nat) = true
                /\ (forall j, (j < k)%nat ->
                              wally_ec_private_key_verify (random (drawn + j)%nat) = false)
                /\ drawn' = (drawn + k + 1)%nat)
  /\ (ok = false ->
      (privatekey = None \/ size <> EC_PRIVATE_KEY_LEN) /\ key = privatekey /\ drawn' = drawn
      \/ privatekey <> None /\ size = EC_PRIVATE_KEY_LEN
         /\ key = Some (random (drawn + 3)%nat) /\ drawn' = (drawn + 4)%nat).
Proof.
  unfold keychain_get_new_privatekey.
  destruct privatekey as [buffer|].
  2:{ split; [|split].
      - split; [discriminate|]. intros (Hnone & _). congruence.
      - discriminate.
      - intros _. left. auto. }
  destruct (size =? EC_PRIVATE_KEY_LEN)%nat eqn:Hsize; cbn [negb].
  2:{ apply Nat.eqb_neq in Hsize. split; [|split].
      - split; [discriminate|]. intros (_ & Hlen & _). congruence.
      - discriminate.
      - intros _. left. auto. }
  apply Nat.eqb_eq in Hsize.
  pose proof (try_new_privatekey_spec 4 random drawn buffer) as Hspec.
  destruct (try_new_privatekey 4 random drawn buffer) as [[ok key] drawn'].
  destruct Hspec as (used & Hdrawn & Hused & Hfail & Hend).
  destruct ok.
  - destruct Hend as (Hpos & Hkey & Hvalid).
    assert (Hat : wally_ec_private_key_verify (random (drawn + (used - 1))%nat) = true).
    { replace (drawn + (used - 1))%nat with (drawn + used - 1)%nat by lia.
      rewrite <- Hkey. exact Hvalid. }
    split; [|split].
    + split; [|reflexivity]. intros _. split; [discriminate|]. split; [exact Hsize|].
      exists (used - 1)%nat. split; [lia|exact Hat].
    + intros _. exists (used - 1)%nat.
      split; [lia|]. split; [rewrite Hkey; do 2 f_equal; lia|].
      split; [exact Hat|]. split; [|lia].
      intros j Hj. apply Hfail. lia.
    + discriminate.
  - destruct Hend as (Hall & Hkey). subst used.
    split; [|split].
    + split; [discriminate|]. intros (_ & _ & k & Hk & Hvalid).
      rewrite Hfail in Hvalid by lia. discriminate.
    + discriminate.
    + intros _. right. split; [discriminate|]. split; [exact Hsize|].
      split; [rewrite Hkey; reflexivity|exact Hdrawn].
Qed.

(** X8.  [keychain_init] never replaces a unit key found in flash and draws
    no randomness then; it reports success exactly when flash holds a unit
    key afterwards, and a key it creates verifies as a private key.  Unless
    creating a key failed (then no static changes), the network
    restriction in memory becomes the stored one and [keychain_has_pin]
    becomes "PIN attempts remain"; the keychain in memory is never
    touched. *)
Theorem init_restores_stored_restriction (random : nat -> bytes) (drawn : nat)
    (st : state) :
  let '(res, st', drawn') := keychain_init random drawn st in
  (storage_pin_privatekey st <> None ->
   res = true /\ drawn' = drawn
   /\ storage_pin_privatekey st' = storage_pin_privatekey st)
  /\ (res = true -> storage_pin_privatekey st' <> None)
  /\ (storage_pin_privatekey st = None ->
      forall key, storage_pin_privatekey st' = Some key ->
                  wally_ec_private_key_verify key = true /\ res = true)
  /\ (st' = st /\ res = false /\ storage_pin_privatekey st = None
      \/ keychain_get_network_type_restriction (base st')
         = storage_network_type_restriction (base st)
         /\ keychain_has_pin (base st') = (0 <? storage_counter st))
  /\ keychain_get st' = keychain_get st.
Proof.
  unfold keychain_init.
  destruct (storage_pin_privatekey st) as [stored|] eqn:Hstored.
  - cbn. rewrite Hstored.
    repeat match goal with |- _ /\ _ => split end; auto; try discriminate.
  - pose proof (new_privatekey_first random drawn) as Hnew.
    destruct (keychain_get_new_privatekey (Some (repeat 0 EC_PRIVATE_KEY_LEN))
                EC_PRIVATE_KEY_LEN random drawn) as [[ok key] drawn'].
    destruct ok.
    + destruct (Hnew eq_refl) as (k & Hkey & Hvalid). subst key.
      destruct (storage_set_pin_privatekey (random (drawn + k)%nat)) eqn:Hwrite; cbn.
      * repeat match goal with |- _ /\ _ => split end; auto; try discriminate.
        -- congruence.
        -- intros _ created [= <-]. auto.
      * rewrite Hstored.
        repeat match goal with |- _ /\ _ => split end; auto; try discriminate.
        congruence.
    + repeat match goal with |- _ /\ _ => split end; auto; try discriminate.
      * congruence.
      * intros _ created Hcreated. congruence.
Qed.

(** X9.  A restriction set while a PIN-protected, non-temporary wallet is in
    use outlives a restart: [keychain_set_network_type_restriction] writes
    it to flash, and [keychain_init] on a unit with that flash and a unit
    key brings it back, so every network of the other type is refused from
    then on as well. *)
Theorem restriction_survives_restart (network : option string) (is_test : bool)
    (g g' : globals) (random : nat -> bytes) (drawn : nat) (st : state) :
  keychain_has_pin g = true ->
  keychain_temporary g = false ->
  keychain_get_network_type_restriction g = NETWORK_TYPE_NONE ->
  isTestNetwork network = Some is_test ->
  keychain_set_network_type_restriction network g = Some g' ->
  storage_network_type_restriction (base st) = storage_network_type_restriction g' ->
  storage_pin_privatekey st <> None ->
  let st' := snd (fst (keychain_init random drawn st)) in
  keychain_get_network_type_restriction (base st') = network_type_of is_test
  /\ (forall other,
        isTestNetwork other = Some (negb is_test) ->
        keychain_is_network_type_consistent other (base st') = Some false
        /\ keychain_set_network_type_restriction other (base st') = None)
  /\ (forall same,
        isTestNetwork same = Some is_test ->
        keychain_set_network_type_restriction same (base st') = Some (base st')).
Proof.
  intros Hpin Htemp Hnone Htest Hset Hflash Hkey st'.
  assert (Hstored : storage_network_type_restriction g' = network_type_of is_test).
  { unfold keychain_set_network_type_restriction in Hset.
    destruct (keychain_is_network_type_consistent network g) as [[|]|];
      try discriminate.
    unfold keychain_get_network_type_restriction in Hnone. rewrite Hnone in Hset.
    cbn [network_type_eqb] in Hset. rewrite Htest, Hpin in Hset.
    unfold keychain_has_temporary in Hset. rewrite Htemp in Hset. cbn in Hset.
    destruct (is_loaded _) in Hset; injection Hset as <-; reflexivity. }
  assert (Hmem : network_type_restriction (base st') = network_type_of is_test).
  { subst st'. unfold keychain_init.
    destruct (storage_pin_privatekey st); [|congruence].
    cbn. congruence. }
  assert (Hvalid : forall n b, isTestNetwork n = Some b -> isValidNetwork n = true).
  { intros n b Hn. exact (test_network_is_valid n b Hn). }
  split; [exact Hmem|]. split.
  - intros other Hother.
    assert (Hcons : keychain_is_network_type_consistent other (base st') = Some false).
    { unfold keychain_is_network_type_consistent.
      rewrite (Hvalid _ _ Hother), Hother, Hmem. destruct is_test; reflexivity. }
    split; [exact Hcons|].
    unfold keychain_set_network_type_restriction. rewrite Hcons. reflexivity.
  - intros same Hsame.
    unfold keychain_set_network_type_restriction, keychain_is_network_type_consistent.
    rewrite (Hvalid _ _ Hsame), Hsame, Hmem. destruct is_test; reflexivity.
Qed.

(** X10.  While a temporary keychain is loaded, setting or clearing the
    network restriction and erasing the stored wallet change the
    restriction in memory only: the restriction stored in flash stays as it
    was.  Without a PIN-protected wallet, setting it writes nothing to flash
    either. *)
Theorem temporary_keychain_never_writes_restriction (g : globals) :
  keychain_temporary g = true \/ keychain_has_pin g = false ->
  (forall network g',
     keychain_set_network_type_restriction network g = Some g' ->
     storage_network_type_restriction g' = storage_network_type_restriction g)
  /\ (keychain_temporary g = true ->
      (forall g',
         keychain_clear_network_type_restriction g = Some g' ->
         storage_network_type_restriction g' = storage_network_type_restriction g
         /\ keychain_get_network_type_restriction g' = NETWORK_TYPE_NONE)
      /\ (forall st st',
            base st = g -> keychain_erase_encrypted st = Some st' ->
            storage_network_type_restriction (base st')
            = storage_network_type_restriction g
            /\ storage_encrypted_blob st' = None
            /\ keychain_has_pin (base st') = false)).
Proof.
  intros Hcase. split.
  - intros network g'. unfold keychain_set_network_type_restriction.
    destruct (keychain_is_network_type_consistent network g) as [[|]|];
      try discriminate.
    destruct (network_type_eqb _ _); [|intros [= <-]; reflexivity].
    destruct (isTestNetwork network) as [is_test|]; try discriminate.
    unfold keychain_has_pin, keychain_has_temporary in *.
    destruct (has_encrypted_blob g) eqn:Hblob.
    + destruct Hcase as [Htemp | Hpin]; [|discriminate]. rewrite Htemp. cbn.
      destruct (is_loaded g) eqn:Hloaded; cbn; [|discriminate].
      intros [= <-]. destruct (is_loaded g); reflexivity.
    + destruct (is_loaded g); intros [= <-]; reflexivity.
  - intros Htemp.
    assert (Hclear : forall g',
              keychain_clear_network_type_restriction g = Some g' ->
              storage_network_type_restriction g' = storage_network_type_restriction g
              /\ network_type_restriction g' = NETWORK_TYPE_NONE
              /\ g' = set_network_type_restriction NETWORK_TYPE_NONE g).
    { intros g'. unfold keychain_clear_network_type_restriction, keychain_has_temporary.
      rewrite Htemp. cbn. destruct (is_loaded g); [|discriminate].
      intros [= <-]. auto. }
    split.
    + intros g' Hg'. destruct (Hclear g' Hg') as (H1 & H2 & _). auto.
    + intros st st' Hbase. unfold keychain_erase_encrypted. cbn. rewrite Hbase.
      destruct (keychain_clear_network_type_restriction g) as [g'|] eqn:Hg';
        try discriminate.
      destruct (Hclear g' eq_refl) as (H1 & _ & _).
      intros [= <-]. cbn. auto.
Qed.


End Facts.

Lemma new_privatekey_is_first_valid_draw_witness :
  exists k, (k < 4)%nat
            /\ Some (sample_random 2) = Some (sample_random (0 + k)%nat)
            /\ @wally_ec_private_key_verify sample_externals (sample_random (0 + k)%nat)
               = true
            /\ (forall j, (j < k)%nat ->
                  @wally_ec_private_key_verify sample_externals (sample_random (0 + j)%nat)
                  = false)
            /\ 3%nat = (0 + k + 1)%nat.
Proof.
  pose proof (@new_privatekey_is_first_valid_draw sample_externals (Some (repeat 0 32)) 32
                sample_random 0) as H.
  change (@keychain_get_new_privatekey sample_externals (Some (repeat 0 32)) 32
            sample_random 0)
    with (true, Some (sample_random 2), 3%nat) in H.
  exact (proj1 (proj2 H) eq_refl).
Defined.

Lemma init_restores_stored_restriction_witness :
  fst (fst (@keychain_init sample_externals sample_random 0 sample_state)) = true
  /\ storage_pin_privatekey
       (snd (fst (@keychain_init sample_externals sample_random 0 sample_state)))
     <> None.
Proof.
  pose proof (@init_restores_stored_restriction sample_externals sample_random 0
                sample_state) as H.
  destruct (@keychain_init sample_externals sample_random 0 sample_state)
    as [[res st'] drawn'] eqn:Hinit.
  destruct H as (_ & Hkey & _).
  assert (Hres : res = true).
  { vm_compute in Hinit. injection Hinit as <- _ _. reflexivity. }
  split; [exact Hres|exact (Hkey Hres)].
Defined.

Lemma restriction_survives_restart_witness :
  keychain_get_network_type_restriction
    (base (snd (fst (@keychain_init sample_externals sample_random 0
                       (set_flash_keys (Some (repeat 7 32)) None
                          (set_base
                             (storage_set_network_type_restriction NETWORK_TYPE_TEST
                                (base sample_boot))
                             sample_boot))))))
  = NETWORK_TYPE_TEST.
Proof.
  refine (proj1 (@restriction_survives_restart upstream_tags sample_externals
                   (Some "testnet"%string) true fresh_wallet _ sample_random 0
                   (set_flash_keys (Some (repeat 7 32)) None
                      (set_base
                         (storage_set_network_type_restriction NETWORK_TYPE_TEST
                            (base sample_boot))
                         sample_boot))
                   eq_refl eq_refl eq_refl eq_refl eq_refl eq_refl _)).
  vm_compute. discriminate.
Defined.

Lemma temporary_keychain_never_writes_restriction_witness :
  exists g',
    @keychain_set_network_type_restriction upstream_tags (Some "testnet"%string)
      (set_keychain_temporary true fresh_wallet) = Some g'
    /\ network_type_restriction g' = NETWORK_TYPE_TEST
    /\ storage_network_type_restriction g' = NETWORK_TYPE_NONE.
Proof.
  assert (Hset : exists g',
             @keychain_set_network_type_restriction upstream_tags (Some "testnet"%string)
               (set_keychain_temporary true fresh_wallet) = Some g'
             /\ network_type_restriction g' = NETWORK_TYPE_TEST)
    by (eexists; split; reflexivity).
  destruct Hset as (g' & Hset & Hpinned). exists g'.
  split; [exact Hset|]. split; [exact Hpinned|].
  exact (proj1 (@temporary_keychain_never_writes_restriction upstream_tags
                  (set_keychain_temporary true fresh_wallet) (or_introl eq_refl))
           (Some "testnet"%string) g' Hset).
Defined.


End KeychainStorageExtras.

(* ------------------------------------------------------------------ *)
(** ** keychain.c: serialisation and the encrypted blob *)
(* ------------------------------------------------------------------ *)

Module KeychainCodecExtras.
Import Commitments KeychainCodec CommitmentsFacts.

Section Facts.
Context {cx : CodecExternals}.

Lemma firstn_exact {A : Type} (n : nat) (a : list A) :
  List.length a = n -> firstn n a = a.
Proof. intros <-. apply firstn_all. Qed.

Lemma firstn_app_exact {A : Type} (n : nat) (a b : list A) :
  List.length a = n -> firstn n (a ++ b) = a.
Proof.
  intros <-. rewrite firstn_app, firstn_all, Nat.sub_diag, firstn_O. apply app_nil_r.
Qed.

Lemma skipn_app_exact {A : Type} (n : nat) (a b : list A) :
  List.length a = n -> skipn n (a ++ b) = b.
Proof.
  intros <-. rewrite skipn_app, skipn_all, Nat.sub_diag, skipn_O. reflexivity.
Qed.

Lemma serialize_round_trip (keydata into : keychain_t) (key : bytes) :
  bip32_key_serialize (xpriv keydata) = Some key ->
  List.length key = BIP32_SERIALIZED_LEN ->
  bip32_key_unserialize key = Some (xpriv keydata) ->
  List.length (service_path keydata) = HMAC_SHA512_LEN ->
  List.length (master_unblinding_key keydata) = HMAC_SHA512_LEN ->
  exists serialized,
    serialize SERIALIZED_KEY_LEN (Some keydata) = Some serialized
    /\ List.length serialized = SERIALIZED_KEY_LEN
    /\ unserialize serialized (List.length serialized) into
       = Some {| xpriv := xpriv keydata;
                 service_path := service_path keydata;
                 master_unblinding_key := master_unblinding_key keydata;
                 seed := seed into;
                 seed_len := seed_len into |}.
Proof.
  intros Hser Hlen Hunser Hpath Hblind.
  unfold serialize. rewrite Nat.eqb_refl. cbn [negb].
  rewrite Hser, (firstn_exact _ _ Hlen), (firstn_exact _ _ Hpath), (firstn_exact _ _ Hblind).
  eexists. split; [reflexivity|].
  assert (Htotal : List.length (key ++ service_path keydata ++ master_unblinding_key keydata)
                   = SERIALIZED_KEY_LEN).
  { rewrite !length_app, Hlen, Hpath, Hblind. reflexivity. }
  split; [exact Htotal|].
  unfold unserialize. rewrite Htotal, Nat.eqb_refl. cbn [negb].
  rewrite (firstn_app_exact _ _ _ Hlen), Hunser.
  rewrite (skipn_app_exact _ _ _ Hlen), (firstn_app_exact _ _ _ Hpath).
  rewrite app_assoc, skipn_app_exact
    by (rewrite length_app, Hlen, Hpath; reflexivity).
  rewrite (firstn_exact _ _ Hblind). reflexivity.
Qed.

(** X12.  [unserialize] undoes [serialize] on the extended key, the service
    path and the master unblinding key, provided libwally's key
    serialisation is 78 bytes that unserialise to the key; the serialised
    form is [SERIALIZED_KEY_LEN] bytes.  The seed is not part of it: the
    result keeps the seed fields of the structure unserialised into. *)
Theorem unserialize_undoes_serialize (keydata into : keychain_t) (key : bytes) :
  bip32_key_serialize (xpriv keydata) = Some key ->
  List.length key = BIP32_SERIALIZED_LEN ->
  bip32_key_unserialize key = Some (xpriv keydata) ->
  List.length (service_path keydata) = HMAC_SHA512_LEN ->
  List.length (master_unblinding_key keydata) = HMAC_SHA512_LEN ->
  exists serialized,
    serialize SERIALIZED_KEY_LEN (Some keydata) = Some serialized
    /\ List.length serialized = SERIALIZED_KEY_LEN
    /\ unserialize serialized (List.length serialized) into
       = Some {| xpriv := xpriv keydata;
                 service_path := service_path keydata;
                 master_unblinding_key := master_unblinding_key keydata;
                 seed := seed into;
                 seed_len := seed_len into |}.
Proof. exact (serialize_round_trip keydata into key). Qed.

Lemma bytes_eqb_refl (b : bytes) : bytes_eqb b b = true.
Proof. apply bytes_eqb_eq. reflexivity. Qed.

Lemma blob_round_trip (aeskey iv payload encrypted hmac : bytes)
    (output_len : nat) :
  aeskey <> [] -> payload <> [] -> (0 < output_len)%nat ->
  aes_encrypt_bytes aeskey iv payload = Some encrypted ->
  List.length encrypted = AES_ENCRYPTED_LEN (List.length payload) ->
  aes_decrypt_bytes aeskey encrypted = Some payload ->
  wally_hmac_sha256 aeskey encrypted = Some hmac ->
  List.length hmac = HMAC_SHA256_LEN ->
  get_encrypted_blob aeskey iv payload (ENCRYPTED_DATA_LEN (List.length payload))
  = Some (Some (encrypted ++ hmac))
  /\ List.length (encrypted ++ hmac) = ENCRYPTED_DATA_LEN (List.length payload)
  /\ ((0 < List.length encrypted)%nat ->
      get_decrypted_payload aeskey (encrypted ++ hmac) output_len = Some (Some payload)
      /\ forall tail,
           List.length tail = HMAC_SHA256_LEN -> tail <> hmac ->
           get_decrypted_payload aeskey (encrypted ++ tail) output_len = Some None).
Proof.
  intros Hkey Hpayload Hout Henc Hlen Hdec Hmac Hmaclen.
  assert (Hkeylen : (List.length aeskey =? 0)%nat = false).
  { destruct aeskey; [congruence|reflexivity]. }
  assert (Hpaylen : (List.length payload =? 0)%nat = false).
  { destruct payload; [congruence|reflexivity]. }
  assert (Houtlen : (output_len =? 0)%nat = false).
  { apply Nat.eqb_neq. lia. }
  assert (Hopen : forall tail,
            List.length tail = HMAC_SHA256_LEN -> (0 < List.length encrypted)%nat ->
            get_decrypted_payload aeskey (encrypted ++ tail) output_len
            = if bytes_eqb hmac tail then Some (Some payload) else Some None).
  { intros tail Htail Hsome. unfold get_decrypted_payload.
    rewrite Hkeylen, Houtlen, length_app, Htail.
    replace (HMAC_SHA256_LEN <? List.length encrypted + HMAC_SHA256_LEN)%nat with true
      by (symmetry; apply Nat.ltb_lt; lia).
    cbn [negb].
    replace (List.length encrypted + HMAC_SHA256_LEN - HMAC_SHA256_LEN)%nat
      with (List.length encrypted) by lia.
    rewrite (firstn_app_exact _ _ _ eq_refl), (skipn_app_exact _ _ _ eq_refl).
    rewrite Hmac, Hdec. unfold crypto_verify_32.
    change 32%nat with HMAC_SHA256_LEN.
    rewrite (firstn_exact _ _ Hmaclen), (firstn_exact _ _ Htail).
    destruct (bytes_eqb hmac tail); reflexivity. }
  split; [|split].
  - unfold get_encrypted_blob, ENCRYPTED_DATA_LEN.
    rewrite Hkeylen, Hpaylen, Nat.eqb_refl. cbn [negb]. rewrite Henc.
    replace (AES_ENCRYPTED_LEN (List.length payload) + HMAC_SHA256_LEN - HMAC_SHA256_LEN)%nat
      with (List.length encrypted) by lia.
    rewrite firstn_all, Hmac, (firstn_exact _ _ Hmaclen). reflexivity.
  - unfold ENCRYPTED_DATA_LEN. rewrite length_app, Hlen, Hmaclen. reflexivity.
  - intros Hsome. split.
    + rewrite Hopen by assumption. rewrite bytes_eqb_refl. reflexivity.
    + intros tail Htail Hdiff. rewrite Hopen by assumption.
      destruct (bytes_eqb hmac tail) eqn:Heq; [|reflexivity].
      apply bytes_eqb_eq in Heq. congruence.
Qed.

(** X13.  What [get_encrypted_blob] produces, [get_decrypted_payload] opens
    again with the same key, provided the cipher decrypts what it encrypts
    to the announced length and the MAC is 32 bytes; with the last 32 bytes
    replaced by anything else the blob is refused. *)
Theorem decrypted_payload_undoes_encrypted_blob (aeskey iv payload encrypted hmac : bytes)
    (output_len : nat) :
  aeskey <> [] -> payload <> [] -> (0 < output_len)%nat ->
  aes_encrypt_bytes aeskey iv payload = Some encrypted ->
  List.length encrypted = AES_ENCRYPTED_LEN (List.length payload) ->
  aes_decrypt_bytes aeskey encrypted = Some payload ->
  wally_hmac_sha256 aeskey encrypted = Some hmac ->
  List.length hmac = HMAC_SHA256_LEN ->
  get_encrypted_blob aeskey iv payload (ENCRYPTED_DATA_LEN (List.length payload))
  = Some (Some (encrypted ++ hmac))
  /\ List.length (encrypted ++ hmac) = ENCRYPTED_DATA_LEN (List.length payload)
  /\ ((0 < List.length encrypted)%nat ->
      get_decrypted_payload aeskey (encrypted ++ hmac) output_len = Some (Some payload)
      /\ forall tail,
           List.length tail = HMAC_SHA256_LEN -> tail <> hmac ->
           get_decrypted_payload aeskey (encrypted ++ tail) output_len = Some None).
Proof. exact (blob_round_trip aeskey iv payload encrypted hmac output_len). Qed.


End Facts.

Lemma unserialize_undoes_serialize_witness :
  exists serialized,
    @serialize sample_codec SERIALIZED_KEY_LEN (Some sample_keydata) = Some serialized
    /\ List.length serialized = SERIALIZED_KEY_LEN
    /\ @unserialize sample_codec serialized (List.length serialized) zero_keydata
       = Some {| xpriv := xpriv sample_keydata;
                 service_path := service_path sample_keydata;
                 master_unblinding_key := master_unblinding_key sample_keydata;
                 seed := seed zero_keydata;
                 seed_len := seed_len zero_keydata |}.
Proof.
  exact (@unserialize_undoes_serialize sample_codec sample_keydata zero_keydata
           (repeat 4 78) eq_refl eq_refl eq_refl eq_refl eq_refl).
Defined.

Lemma decrypted_payload_undoes_encrypted_blob_witness :
  @get_encrypted_blob sample_codec [3] [9] [10; 20]
    (@ENCRYPTED_DATA_LEN sample_codec 2)
  = Some (Some ([9; 13; 23] ++ repeat 48 32)).
Proof.
  refine (proj1 (@decrypted_payload_undoes_encrypted_blob sample_codec
                   [3] [9] [10; 20] [9; 13; 23] (repeat 48 32) 8
                   _ _ _ eq_refl eq_refl eq_refl eq_refl eq_refl)).
  - discriminate.
  - discriminate.
  - lia.
Defined.


End KeychainCodecExtras.

(* ------------------------------------------------------------------ *)
(** ** sign_liquid_tx.c: the prevout bytes and the output-info loop *)
(* ------------------------------------------------------------------ *)

Module OutputExtras.
Import Network Commitments SignLiquidTx SignVocabulary.
Import MonadFacts StageFacts EncodingFacts KeychainCodecExtras.

Lemma value_to_le_decode (v : Z) : 0 <= v < 2 ^ 32 -> le_decode (value_to_le v) = v.
Proof.
  intros Hv. rewrite value_to_le_le_bytes, le_decode_le_bytes.
  apply Z.mod_small. change (256 ^ Z.of_nat 4) with (2 ^ 32). exact Hv.
Qed.

Lemma length_prevout_bytes (input : wally_tx_input) :
  well_formed_input input -> List.length (prevout_bytes input) = 36%nat.
Proof.
  intros [Hhash _]. unfold prevout_bytes.
  rewrite length_app, (firstn_exact _ _ Hhash), Hhash. reflexivity.
Qed.

Lemma prevout_bytes_inj (a b : wally_tx_input) :
  well_formed_input a -> well_formed_input b ->
  prevout_bytes a = prevout_bytes b -> a = b.
Proof.
  intros [Ha Hia] [Hb Hib] Heq. unfold prevout_bytes in Heq.
  rewrite (firstn_exact _ _ Ha), (firstn_exact _ _ Hb) in Heq.
  assert (Hhash : txhash a = txhash b).
  { apply (f_equal (firstn WALLY_TXHASH_LEN)) in Heq.
    rewrite (firstn_app_exact _ _ _ Ha), (firstn_app_exact _ _ _ Hb) in Heq. exact Heq. }
  assert (Hindex : index a = index b).
  { apply (f_equal (skipn WALLY_TXHASH_LEN)) in Heq.
    rewrite (skipn_app_exact _ _ _ Ha), (skipn_app_exact _ _ _ Hb) in Heq.
    apply (f_equal le_decode) in Heq.
    rewrite !value_to_le_decode in Heq by assumption. exact Heq. }
  destruct a, b. cbn in *. congruence.
Qed.

(** X15.  The bytes fed to the prevout hash determine the inputs: two lists
    of inputs (32-byte txids, 32-bit indexes) with the same byte stream are
    the same list, and [value_to_le] is read back by little-endian
    decoding. *)
Theorem prevout_stream_determines_inputs (l1 l2 : list wally_tx_input) :
  Forall well_formed_input l1 -> Forall well_formed_input l2 ->
  List.concat (map prevout_bytes l1) = List.concat (map prevout_bytes l2) ->
  l1 = l2
  /\ Forall (fun input => le_decode (value_to_le (index input)) = index input) l1.
Proof.
  intros H1 H2 Heq. split.
  - revert l2 H2 Heq. induction H1 as [|a l1 Ha H1 IH]; intros l2 H2 Heq.
    + destruct H2 as [|b l2 Hb H2]; [reflexivity|].
      cbn [map List.concat] in Heq. apply (f_equal (@List.length Z)) in Heq.
      rewrite length_app, (length_prevout_bytes _ Hb) in Heq. cbn in Heq. lia.
    + destruct H2 as [|b l2 Hb H2].
      * cbn [map List.concat] in Heq. apply (f_equal (@List.length Z)) in Heq.
        rewrite length_app, (length_prevout_bytes _ Ha) in Heq. cbn in Heq. lia.
      * cbn [map List.concat] in Heq.
        assert (Hhead : prevout_bytes a = prevout_bytes b).
        { apply (f_equal (firstn 36)) in Heq.
          rewrite (firstn_app_exact _ _ _ (length_prevout_bytes _ Ha)),
                  (firstn_app_exact _ _ _ (length_prevout_bytes _ Hb)) in Heq.
          exact Heq. }
        assert (Htail : List.concat (map prevout_bytes l1)
                        = List.concat (map prevout_bytes l2)).
        { apply (f_equal (skipn 36)) in Heq.
          rewrite (skipn_app_exact _ _ _ (length_prevout_bytes _ Ha)),
                  (skipn_app_exact _ _ _ (length_prevout_bytes _ Hb)) in Heq.
          exact Heq. }
        f_equal; [apply prevout_bytes_inj; assumption|apply IH; assumption].
  - eapply Forall_impl; [|exact H1].
    intros input [_ Hindex]. apply value_to_le_decode. exact Hindex.
Qed.

Lemma prevout_stream_determines_inputs_witness :
  [Sample.input_a; Sample.input_b] = [Sample.input_a; Sample.input_b]
  /\ Forall (fun input => le_decode (value_to_le (index input)) = index input)
       [Sample.input_a; Sample.input_b].
Proof.
  apply prevout_stream_determines_inputs.
  - repeat constructor; cbn; lia.
  - repeat constructor; cbn; lia.
  - reflexivity.
Defined.

Lemma nth_error_store_same {A : Type} (l : list A) (i : nat) (x y : A) :
  nth_error l i = Some y -> nth_error (store i x l) i = Some x.
Proof.
  revert i. induction l as [|z l IH]; intros [|i]; cbn; try discriminate; auto.
Qed.

Lemma nth_error_store_other {A : Type} (l : list A) (i j : nat) (x : A) :
  i <> j -> nth_error (store i x l) j = nth_error l j.
Proof.
  revert i j. induction l as [|z l IH]; intros [|i] [|j] Hij; cbn; auto; try lia.
Qed.

Section Facts.
Context {tags : Tags} {crypto : Crypto} {ext : Externals}.

Lemma add_confidential_output_info_passed (c : commitment_t) (o o' : wally_tx_output)
    (info info' : output_info_t) :
  add_confidential_output_info c o info = Some (Passed, o', info') ->
  have_commitments c = true
  /\ List.length (tx_asset o) = ASSET_GENERATOR_LEN
  /\ List.length (tx_value o) = ASSET_COMMITMENT_LEN
  /\ o' = trusted_output o c
  /\ info' = {| is_confidential := is_confidential info;
                oi_asset_id := asset_id c;
                oi_value := value c;
                oi_blinding_key := blinding_key c |}.
Proof.
  unfold add_confidential_output_info.
  destruct (value_prefix o) as [v0|]; [|discriminate].
  destruct (v0 =? 1); [discriminate|].
  destruct (have_commitments c); cbn [negb]; [|discriminate].
  destruct (List.length (tx_asset o) =? ASSET_GENERATOR_LEN)%nat eqn:Hasset;
    cbn [negb]; [|discriminate].
  cbn [tx_value script tx_asset].
  destruct (List.length (tx_value o) =? ASSET_COMMITMENT_LEN)%nat eqn:Hvalue;
    cbn [negb]; [|discriminate].
  intros [= <- <-]. apply Nat.eqb_eq in Hasset, Hvalue. auto.
Qed.

Lemma populate_output_info_outputs (n j : nat) (tx : wally_tx) (cs : list commitment_t)
    (oi : list output_info_t) (fees : Z) (s s' : pstate)
    (tx' : wally_tx) (oi' : list output_info_t) (fees' : Z) :
  populate_output_info n j tx cs oi fees s = (Ret (tx', oi', fees'), s') ->
  inputs tx' = inputs tx
  /\ List.length (outputs tx') = List.length (outputs tx)
  /\ List.length oi' = List.length oi
  /\ forall i o,
       nth_error (outputs tx) i = Some o ->
       ((i < j)%nat \/ (j + n <= i)%nat ->
        nth_error (outputs tx') i = Some o /\ nth_error oi' i = nth_error oi i)
       /\ ((j <= i < j + n)%nat ->
           populated_at cs i o (nth_error oi i) (nth_error (outputs tx') i)
             (nth_error oi' i)).
Proof.
  revert j tx oi fees s. induction n as [|n IH]; intros j tx oi fees s Hrun.
  - cbn in Hrun. apply ret_inv in Hrun. destruct Hrun as [[= <- <- <-] _].
    repeat match goal with |- _ /\ _ => split end; auto; try lia.
    intros i o Ho. split; [auto|lia].
  - cbn [populate_output_info] in Hrun.
    bind_inv_as Hrun txoutput Eout. apply load_ret_inv in Eout.
    destruct Eout as [Hout ->].
    bind_inv_as Hrun outinfo Einfo. apply load_ret_inv in Einfo.
    destruct Einfo as [Hinfo ->].
    assert (Hj : (j < List.length (outputs tx))%nat).
    { apply nth_error_Some. congruence. }
    destruct (value_prefix txoutput) as [v0|] eqn:Hprefix;
      [|exfalso; eapply abort_not_ret; exact Hrun].
    destruct (v0 =? 1) eqn:Hplain.
    + apply IH in Hrun.
      destruct Hrun as (Hinputs & Hlen & Hlen' & Hrest).
      rewrite length_store in Hlen'.
      repeat match goal with |- _ /\ _ => split end; auto; try lia.
      intros i o Ho. specialize (Hrest i o Ho). destruct Hrest as [Hout' Hin'].
      split.
      * intros Hrange.
        destruct Hout' as [Ho' Hoi']; [lia|]. split; [exact Ho'|].
        rewrite Hoi'. apply nth_error_store_other. lia.
      * intros Hrange. destruct (Nat.eq_dec i j) as [->|Hne].
        -- destruct Hout' as [Ho' Hoi']; [lia|].
           rewrite Hout in Ho. injection Ho as <-.
           unfold populated_at. rewrite Hprefix, Hplain.
           split; [exact Ho'|]. exists outinfo. split; [exact Hinfo|].
           rewrite Hoi'. erewrite nth_error_store_same by exact Hinfo. reflexivity.
        -- assert (Hin : populated_at cs i o (nth_error (store j
                           {| is_confidential := false;
                              oi_asset_id := firstn 32 (skipn 1 (tx_asset txoutput));
                              oi_value :=
                                match wally_tx_confidential_value_to_satoshi
                                        (tx_value txoutput) with
                                | Some satoshi => satoshi
                                | None => oi_value outinfo
                                end;
                              oi_blinding_key := oi_blinding_key outinfo |} oi) i)
                           (nth_error (outputs tx') i) (nth_error oi' i))
             by (apply Hin'; lia).
           rewrite nth_error_store_other in Hin by lia. exact Hin.
    + bind_inv_as Hrun commitment Ecommit. apply load_ret_inv in Ecommit.
      destruct Ecommit as [Hcommit ->].
      destruct (add_confidential_output_info commitment txoutput _)
        as [[[[|errmsg] txoutput'] outinfo']|] eqn:Hadd;
        [|exfalso; eapply reject_not_ret; exact Hrun
         |exfalso; eapply abort_not_ret; exact Hrun].
      apply add_confidential_output_info_passed in Hadd.
      destruct Hadd as (Hhave & Hasset & Hvalue & -> & ->).
      apply IH in Hrun.
      destruct Hrun as (Hinputs & Hlen & Hlen' & Hrest).
      cbn [outputs inputs set_outputs] in *.
      rewrite length_store in Hlen. rewrite length_store in Hlen'.
      repeat match goal with |- _ /\ _ => split end; auto; try lia.
      intros i o Ho. destruct (Nat.eq_dec i j) as [->|Hne].
      * rewrite Hout in Ho. injection Ho as <-.
        destruct (Hrest j (trusted_output txoutput commitment)) as [Hout' _].
        { eapply nth_error_store_same. exact Hout. }
        destruct Hout' as [Ho' Hoi']; [lia|].
        split; [intros Hrange; lia|]. intros _.
        unfold populated_at. rewrite Hprefix, Hplain.
        exists commitment.
        repeat match goal with |- _ /\ _ => split end; auto.
        rewrite Hoi'. erewrite nth_error_store_same by exact Hinfo. reflexivity.
      * destruct (Hrest i o) as [Hout' Hin'].
        { rewrite nth_error_store_other by lia. exact Ho. }
        split.
        -- intros Hrange. destruct Hout' as [Ho' Hoi']; [lia|]. split; [exact Ho'|].
           rewrite Hoi'. apply nth_error_store_other. lia.
        -- intros Hrange.
           assert (Hin := Hin' ltac:(lia)).
           rewrite nth_error_store_other in Hin by lia. exact Hin.
Qed.

(** X16.  When the output-info loop completes, the transaction that is
    displayed and signed has the inputs and the number of outputs it was
    parsed with; every plaintext output is as parsed and is summarised from
    its own bytes; every blinded output had 33-byte asset and value fields
    and a trusted record with commitments, now carries that record's asset
    generator and value commitment in place of its own, and is summarised
    by the record's asset id, value and blinding key. *)
Theorem output_info_loop_installs_trusted_commitments (tx : wally_tx)
    (cs : list commitment_t) (oi : list output_info_t) (s s' : pstate)
    (tx' : wally_tx) (oi' : list output_info_t) (fees' : Z) :
  populate_output_info (List.length (outputs tx)) 0 tx cs oi 0 s
  = (Ret (tx', oi', fees'), s') ->
  s' = s
  /\ inputs tx' = inputs tx
  /\ List.length (outputs tx') = List.length (outputs tx)
  /\ List.length oi' = List.length oi
  /\ forall i o,
       nth_error (outputs tx) i = Some o ->
       populated_at cs i o (nth_error oi i) (nth_error (outputs tx') i) (nth_error oi' i).
Proof.
  intros Hrun.
  pose proof (populate_output_info_state _ _ _ _ _ _ _ _ _ Hrun) as Hstate.
  apply populate_output_info_outputs in Hrun.
  destruct Hrun as (Hinputs & Hlen & Hlen' & Hrest).
  repeat match goal with |- _ /\ _ => split end; auto.
  intros i o Ho. apply (Hrest i o Ho).
  assert (i < List.length (outputs tx))%nat by (apply nth_error_Some; congruence).
  lia.
Qed.

Lemma bind_load {A B : Type} (l : list A) (i : nat) (k : A -> M B) (s : pstate) :
  bind (load l i) k s
  = match nth_error l i with Some x => k x s | None => (Abort, s) end.
Proof. unfold bind, load. destruct (nth_error l i); reflexivity. Qed.

Lemma check_commitments_ignores_plain (n j : nat) (tx : wally_tx) (cs : list commitment_t)
    (h : bytes) (flag : bool) (i : nat) (o : wally_tx_output) (c' : commitment_t)
    (s : pstate) :
  nth_error (outputs tx) i = Some o -> value_prefix o = Some 1 ->
  check_commitments n j tx (store i c' cs) h flag s = check_commitments n j tx cs h flag s.
Proof.
  intros Ho Hplain. revert j flag s. induction n as [|n IH]; intros j flag s; [reflexivity|].
  cbn [check_commitments]. rewrite !bind_load.
  destruct (nth_error (outputs tx) j) as [txoutput|] eqn:Hout; [|reflexivity].
  destruct (value_prefix txoutput) as [v0|] eqn:Hprefix; [|reflexivity].
  destruct (v0 =? 1) eqn:Hv0; [apply IH|].
  assert (Hne : i <> j).
  { intros ->. rewrite Ho in Hout. injection Hout as <-.
    rewrite Hplain in Hprefix. injection Hprefix as <-. discriminate. }
  rewrite !bind_load, (nth_error_store_other _ _ _ _ Hne).
  destruct (nth_error cs j) as [commitment|]; [|reflexivity].
  destruct (check_trusted_commitment_valid _ _ _ _ _ _) as [[[|errmsg] flag']|];
    [apply IH|reflexivity|reflexivity].
Qed.

(** X17.  The verification loop looks at the transaction as the output-info
    loop left it.  So for a blinded output whose trusted record has a value
    commitment that begins with the plaintext prefix 0x01, the loop skips
    the output: its outcome is the same whatever record stands at that
    index, although the summary shown for the output is that record's. *)
Theorem plain_prefixed_commitment_is_not_verified (tx : wally_tx)
    (cs : list commitment_t) (oi : list output_info_t) (s s' : pstate)
    (tx' : wally_tx) (oi' : list output_info_t) (fees' : Z)
    (i : nat) (o : wally_tx_output) (c : commitment_t) :
  populate_output_info (List.length (outputs tx)) 0 tx cs oi 0 s
  = (Ret (tx', oi', fees'), s') ->
  nth_error (outputs tx) i = Some o -> is_blinded o = true ->
  nth_error cs i = Some c -> plain_prefixed c ->
  nth_error oi' i = Some (trusted_info c)
  /\ forall c' h flag s2,
       check_commitments (List.length (outputs tx')) 0 tx' (store i c' cs) h flag s2
       = check_commitments (List.length (outputs tx')) 0 tx' cs h flag s2.
Proof.
  intros Hrun Ho Hblind Hc Hplain.
  apply populate_output_info_outputs in Hrun.
  destruct Hrun as (_ & _ & _ & Hrest).
  destruct (Hrest i o Ho) as [_ Hin].
  assert (Hi : (i < List.length (outputs tx))%nat) by (apply nth_error_Some; congruence).
  specialize (Hin ltac:(lia)). unfold populated_at in Hin.
  unfold is_blinded in Hblind.
  destruct (value_prefix o) as [v0|]; [|discriminate].
  apply negb_true_iff in Hblind. rewrite Hblind in Hin.
  destruct Hin as (c0 & Hc0 & _ & _ & _ & Ho' & Hinfo).
  rewrite Hc in Hc0. injection Hc0 as <-.
  split; [exact Hinfo|].
  intros c' h flag s2.
  apply (check_commitments_ignores_plain _ _ _ _ _ _ _ _ _ _ Ho').
  unfold plain_prefixed in Hplain. unfold value_prefix, trusted_output. cbn [tx_value].
  destruct (firstn ASSET_COMMITMENT_LEN (value_commitment c)) as [|b rest];
    [discriminate|]. cbn in Hplain. congruence.
Qed.

End Facts.

Lemma output_info_loop_installs_trusted_commitments_witness :
  exists tx' oi' fees',
    @populate_output_info Sample.model_externals 3 0 Sample.tx_one Sample.commitments_one
      (repeat output_info_zero 3) 0 (initial_pstate (Sample.request [1] 1 [] false) [])
    = (Ret (tx', oi', fees'), initial_pstate (Sample.request [1] 1 [] false) [])
    /\ inputs tx' = inputs Sample.tx_one
    /\ List.length oi' = 3%nat.
Proof.
  do 3 eexists. split; [vm_compute; reflexivity|].
  pose proof (@output_info_loop_installs_trusted_commitments Sample.model_externals
                Sample.tx_one Sample.commitments_one (repeat output_info_zero 3)
                (initial_pstate (Sample.request [1] 1 [] false) []) _ _ _ _ eq_refl)
    as (_ & Hinputs & _ & Hlen & _).
  split; [exact Hinputs|exact Hlen].
Defined.

Lemma plain_prefixed_commitment_is_not_verified_witness :
  exists tx' oi' fees',
    @populate_output_info Sample.model_externals 3 0 Sample.tx_one
      commitments_plain_prefixed (repeat output_info_zero 3) 0
      (initial_pstate (Sample.request [1] 1 [] false) [])
    = (Ret (tx', oi', fees'), initial_pstate (Sample.request [1] 1 [] false) [])
    /\ nth_error oi' 0 = Some (trusted_info plain_prefixed_record)
    /\ forall c' h flag s2,
         @check_commitments Sample.model_crypto (List.length (outputs tx')) 0 tx'
           (store 0 c' commitments_plain_prefixed) h flag s2
         = @check_commitments Sample.model_crypto (List.length (outputs tx')) 0 tx'
             commitments_plain_prefixed h flag s2.
Proof.
  do 3 eexists. split; [vm_compute; reflexivity|].
  exact (@plain_prefixed_commitment_is_not_verified Sample.model_crypto
           Sample.model_externals Sample.tx_one commitments_plain_prefixed
           (repeat output_info_zero 3)
           (initial_pstate (Sample.request [1] 1 [] false) []) _ _ _ _
           0%nat Sample.blinded_output plain_prefixed_record
           eq_refl eq_refl eq_refl eq_refl eq_refl).
Defined.

End OutputExtras.

(* ------------------------------------------------------------------ *)
(** ** sign_liquid_tx.c: rejections and the first checkpoint *)
(* ------------------------------------------------------------------ *)

Module RejectionExtras.
Import Network Commitments SignLiquidTx SignVocabulary ReplyVocabulary.
Import MonadFacts StageFacts SessionFacts.

Lemma no_reject_app (t u : list action) :
  no_reject (t ++ u) = no_reject t && no_reject u.
Proof. apply forallb_app. Qed.

Lemma rejects_last_silent {A : Type} (m : M A) : silent m -> rejects_last m.
Proof.
  intros Hsilent s. specialize (Hsilent s).
  destruct (m s) as [[a| | |] s'] eqn:E; cbn [fst snd].
  - subst s'. exists []. rewrite app_nil_r. auto.
  - destruct Hsilent as (code & message & ->). cbn [add_trace trace current].
    eexists. split; [reflexivity|]. exists [], code, message. auto.
  - contradiction.
  - subst s'. exists []. rewrite app_nil_r. auto.
Qed.

Lemma rejects_last_bind {A B : Type} (m : M A) (k : A -> M B) :
  rejects_last m -> (forall a, rejects_last (k a)) -> rejects_last (bind m k).
Proof.
  intros Hm Hk s. specialize (Hm s). unfold bind.
  destruct (m s) as [[a| | |] s1] eqn:E; cbn [fst snd] in *.
  - destruct Hm as (t1 & Ht1 & Hclean1).
    specialize (Hk a s1). destruct Hk as (t2 & Ht2 & Hend).
    exists (t1 ++ t2). split; [rewrite Ht2, Ht1, app_assoc; reflexivity|].
    destruct (fst (k a s1)).
    + rewrite no_reject_app, Hclean1, Hend. reflexivity.
    + destruct Hend as (t0 & code & message & -> & Hclean2).
      exists (t1 ++ t0), code, message. rewrite app_assoc. split; [reflexivity|].
      rewrite no_reject_app, Hclean1, Hclean2. reflexivity.
    + rewrite no_reject_app, Hclean1, Hend. reflexivity.
    + rewrite no_reject_app, Hclean1, Hend. reflexivity.
  - exact Hm.
  - exact Hm.
  - exact Hm.
Qed.

Lemma rejects_last_ret {A : Type} (a : A) : rejects_last (ret a).
Proof. intros s. exists []. cbn. rewrite app_nil_r. auto. Qed.

Lemma rejects_last_emit (a : action) : is_reject a = false -> rejects_last (emit a).
Proof.
  intros Ha s. exists [a]. cbn. split; [reflexivity|].
  unfold no_reject. cbn. rewrite Ha. reflexivity.
Qed.

Lemma rejects_last_reject {A : Type} (code : rpc_error) (message : string) :
  rejects_last (@reject A code message).
Proof. apply rejects_last_silent, silent_reject. Qed.

Lemma rejects_last_load_in_message : rejects_last jade_process_load_in_message.
Proof.
  intros s. unfold jade_process_load_in_message.
  destruct (inbox s) as [|m rest]; cbn.
  - exists []. rewrite app_nil_r. auto.
  - exists [LoadInMessage m]. auto.
Qed.

Lemma rejects_last_reply_bytes (data : bytes) :
  rejects_last (jade_process_reply_to_message_bytes data).
Proof. intros s. exists [ReplyBytes (current s) data]. cbn. auto. Qed.

Lemma rejects_last_reply_ok : rejects_last jade_process_reply_to_message_ok.
Proof. intros s. exists [ReplyOk (current s)]. cbn. auto. Qed.

Section Facts.
Context {tags : Tags} {crypto : Crypto} {ext : Externals}.

Lemma rejects_last_handle_tx_input (tx : wally_tx) (ae : bool) (index : nat)
    (st : input_state) (m : in_message) :
  rejects_last (handle_tx_input tx ae index st m).
Proof.
  unfold handle_tx_input.
  apply rejects_last_bind; [apply rejects_last_silent, silent_load|intros old].
  apply rejects_last_bind; [apply rejects_last_silent, silent_assert|intros _].
  destruct (in_is_witness m) as [w|]; [|apply rejects_last_reject].
  apply rejects_last_bind; [apply rejects_last_silent, silent_read_path_fields|intros f].
  apply rejects_last_bind; [apply rejects_last_silent, silent_load|intros input].
  apply rejects_last_bind;
    [apply rejects_last_silent, silent_update_hash_prevouts|intros ctx].
  apply rejects_last_bind;
    [apply rejects_last_silent, silent_read_value_commitment|intros vc].
  apply rejects_last_bind;
    [apply rejects_last_silent, silent_make_signature_hash|intros [d sc]].
  apply rejects_last_bind; [|intros _; apply rejects_last_ret].
  destruct ae; [apply rejects_last_reply_bytes|apply rejects_last_ret].
Qed.

Lemma rejects_last_stream_inputs (n index : nat) (tx : wally_tx) (ae : bool)
    (st : input_state) :
  rejects_last (stream_inputs n index tx ae st).
Proof.
  revert index st. induction n as [|n IH]; intros index st; [apply rejects_last_ret|].
  cbn [stream_inputs]. apply rejects_last_bind; [|intros st1; apply IH].
  unfold stream_input. apply rejects_last_bind; [apply rejects_last_load_in_message|].
  intros m. destruct (negb _); [apply rejects_last_reject|].
  apply rejects_last_handle_tx_input.
Qed.

Lemma rejects_last_process (req : sign_request) (ui : ui_events) :
  rejects_last (sign_liquid_tx_process req ui).
Proof.
  unfold sign_liquid_tx_process.
  apply rejects_last_bind; [apply rejects_last_silent, silent_parse_request|intros p].
  apply rejects_last_bind;
    [apply rejects_last_silent, silent_populate_output_info|intros [[tx' oi] fees]].
  apply rejects_last_bind; [apply rejects_last_emit; reflexivity|intros _].
  apply rejects_last_bind.
  { unfold confirm_outputs. destruct (_ || _); [apply rejects_last_reject|].
    apply rejects_last_bind; [apply rejects_last_emit; reflexivity|intros _].
    apply rejects_last_reply_ok. }
  intros _.
  apply rejects_last_bind; [apply rejects_last_stream_inputs|intros st].
  apply rejects_last_bind;
    [apply rejects_last_silent, silent_finalize_hash_prevouts|intros hash].
  apply rejects_last_bind;
    [apply rejects_last_silent, silent_check_commitments|intros flag].
  apply rejects_last_bind; [apply rejects_last_emit; reflexivity|intros _].
  apply rejects_last_bind.
  { unfold confirm_fee. destruct (_ || _); [|apply rejects_last_emit; reflexivity].
    apply rejects_last_bind; [|intros _; apply rejects_last_reject].
    destruct (use_ae_signatures p); [|apply rejects_last_ret].
    apply rejects_last_bind; [apply rejects_last_load_in_message|].
    intros _. apply rejects_last_ret. }
  intros _. unfold send_signature_replies.
  destruct (use_ae_signatures p); apply rejects_last_emit; reflexivity.
Qed.

(** X18.  A session sends at most one rejection.  It ends at [cleanup]
    exactly when it has sent one, the rejection is then the last thing it
    did and answers the message that is current at the end; a session that
    completes, blocks or dies on an assertion has rejected nothing. *)
Theorem session_rejects_at_most_once (req : sign_request) (ui : ui_events)
    (host : list in_message) :
  match fst (session req ui host) with
  | Cleanup =>
      exists before code message,
        trace (snd (session req ui host))
        = before ++ [Reject (current (snd (session req ui host))) code message]
        /\ no_reject before = true
  | _ => no_reject (trace (snd (session req ui host))) = true
  end.
Proof.
  unfold session.
  destruct (rejects_last_process req ui (initial_pstate req host)) as (t & Htrace & Hend).
  cbn [initial_pstate trace app] in Htrace.
  destruct (fst (sign_liquid_tx_process req ui (initial_pstate req host)));
    rewrite Htrace; exact Hend.
Qed.

Lemma not_accepted_outputs (ui : ui_events) :
  ~ outputs_accepted ui ->
  negb (outputs_ret ui =? ESP_OK) || negb (outputs_ev_id ui =? SIGN_TX_ACCEPT_OUTPUTS)
  = true.
Proof.
  intros Hno. unfold outputs_accepted in Hno.
  destruct (outputs_ret ui =? ESP_OK) eqn:Hret; [|reflexivity].
  destruct (outputs_ev_id ui =? SIGN_TX_ACCEPT_OUTPUTS) eqn:Hev; [|reflexivity].
  apply Z.eqb_eq in Hret, Hev. tauto.
Qed.

Lemma session_until_outputs (req : sign_request) (ui : ui_events)
    (host : list in_message) :
  negb (outputs_ret ui =? ESP_OK) || negb (outputs_ev_id ui =? SIGN_TX_ACCEPT_OUTPUTS)
  = true ->
  session req ui host
  = match parse_request req (initial_pstate req host) with
    | (Ret p, s1) =>
        match populate_output_info (List.length (outputs (tx p))) 0 (tx p) (commitments p)
                (output_info p) 0 s1 with
        | (Ret (tx', oi, fees), s2) =>
            (Cleanup,
             add_trace s2
               [DisplayOutputs (network p) tx' oi;
                Reject (current s2) CBOR_RPC_USER_CANCELLED
                  "User declined to sign transaction"%string])
        | (Cleanup, s2) => (Cleanup, s2)
        | (Blocked, s2) => (Blocked, s2)
        | (Abort, s2) => (Abort, s2)
        end
    | (Cleanup, s1) => (Cleanup, s1)
    | (Blocked, s1) => (Blocked, s1)
    | (Abort, s1) => (Abort, s1)
    end.
Proof.
  intros Hno. unfold session, sign_liquid_tx_process. unfold bind at 1.
  destruct (parse_request req (initial_pstate req host)) as [[p| | |] s1];
    try reflexivity.
  unfold bind at 1.
  destruct (populate_output_info _ _ _ _ _ _ s1) as [[[[tx' oi] fees]| | |] s2];
    try reflexivity.
  rewrite bind_emit. unfold bind at 1.
  rewrite (confirm_outputs_decline ui _ Hno), add_trace_add_trace. reflexivity.
Qed.

(** X19.  When the user does not accept at the outputs screen, the session
    does not complete, takes no message from the host and sends no
    acknowledgement or payload; if the request got as far as the screen,
    all that happens is the display of the outputs and one user-cancelled
    rejection of the opening message. *)
Theorem declined_outputs_end_the_session (req : sign_request) (ui : ui_events)
    (host : list in_message) :
  ~ outputs_accepted ui ->
  fst (session req ui host) <> Ret tt
  /\ inbox (snd (session req ui host)) = host
  /\ loaded (trace (snd (session req ui host))) = []
  /\ forallb (fun a => negb (is_positive_reply a)) (trace (snd (session req ui host)))
     = true
  /\ forall p tx' oi fees s0,
       parse_request req (initial_pstate req host) = (Ret p, s0) ->
       populate_output_info (List.length (outputs (tx p))) 0 (tx p) (commitments p)
         (output_info p) 0 s0 = (Ret (tx', oi, fees), s0) ->
       session req ui host
       = (Cleanup,
          add_trace (initial_pstate req host)
            [DisplayOutputs (network p) tx' oi;
             Reject (req_id req) CBOR_RPC_USER_CANCELLED
               "User declined to sign transaction"%string]).
Proof.
  intros Hno. apply not_accepted_outputs in Hno.
  rewrite (session_until_outputs req ui host Hno).
  pose proof (silent_parse_request req (initial_pstate req host)) as Hparse.
  destruct (parse_request req (initial_pstate req host)) as [[p| | |] s1].
  2:{ destruct Hparse as (code & message & ->). cbn.
      repeat match goal with |- _ /\ _ => split end;
        first [reflexivity|discriminate|intros; discriminate]. }
  2:{ contradiction. }
  2:{ subst s1. cbn.
      repeat match goal with |- _ /\ _ => split end;
        first [reflexivity|discriminate|intros; discriminate]. }
  subst s1.
  pose proof (silent_populate_output_info (List.length (outputs (tx p))) 0 (tx p)
                (commitments p) (output_info p) 0 (initial_pstate req host)) as Hpop.
  destruct (populate_output_info _ _ _ _ _ _ (initial_pstate req host))
    as [[[[tx' oi] fees]| | |] s1] eqn:Epop.
  2:{ destruct Hpop as (code & message & ->). cbn.
      repeat match goal with |- _ /\ _ => split end;
        first [reflexivity|discriminate
              |intros p0 tx0 oi0 fees0 s2 [= <- <-] Hpop0; rewrite Epop in Hpop0;
               discriminate]. }
  2:{ contradiction. }
  2:{ subst s1. cbn.
      repeat match goal with |- _ /\ _ => split end;
        first [reflexivity|discriminate
              |intros p0 tx0 oi0 fees0 s2 [= <- <-] Hpop0; rewrite Epop in Hpop0;
               discriminate]. }
  subst s1. cbn [fst snd].
  repeat match goal with |- _ /\ _ => split end; try reflexivity; try discriminate.
  intros p0 tx0 oi0 fees0 s1 [= <- <-] Hpop0.
  rewrite Epop in Hpop0. injection Hpop0 as <- <- <-. reflexivity.
Qed.

End Facts.

Lemma declined_outputs_end_the_session_witness :
  fst (Sample.run (Sample.request [1] 1 Sample.commitments_one true)
         {| outputs_ret := 0; outputs_ev_id := 8; fee_ret := true; fee_ev_id := 3 |}
         [Sample.signed_input "2"]) <> Ret tt
  /\ inbox (snd (Sample.run (Sample.request [1] 1 Sample.commitments_one true)
                   {| outputs_ret := 0; outputs_ev_id := 8; fee_ret := true;
                      fee_ev_id := 3 |}
                   [Sample.signed_input "2"]))
     = [Sample.signed_input "2"].
Proof.
  pose proof (@declined_outputs_end_the_session upstream_tags Sample.model_crypto
                Sample.model_externals
                (Sample.request [1] 1 Sample.commitments_one true)
                {| outputs_ret := 0; outputs_ev_id := 8; fee_ret := true; fee_ev_id := 3 |}
                [Sample.signed_input "2"]) as H.
  destruct H as (Hnot & Hinbox & _).
  - unfold outputs_accepted. cbn. intros [_ Hev]. discriminate Hev.
  - split; [exact Hnot|exact Hinbox].
Defined.

End RejectionExtras.

(* ------------------------------------------------------------------ *)
(** ** sign_liquid_tx.c: what an accepted input and a completed session are *)
(* ------------------------------------------------------------------ *)

Module InputExtras.
Import Network Commitments SignLiquidTx SignVocabulary ReplyVocabulary InputVocabulary.
Import MonadFacts StageFacts SessionFacts OutputExtras.

Section Facts.
Context {tags : Tags} {crypto : Crypto} {ext : Externals}.

Lemma read_path_fields_ret (m : in_message) (ae : bool) (d : signing_data_t)
    (aggregate : script_flavour_t) (f : path_fields) (s s' : pstate) :
  read_path_fields m ae d aggregate s = (Ret f, s') ->
  s' = s
  /\ match in_path m with
     | None =>
         f = {| sig_data := d; script_ptr := None; ae_host_commitment := None;
                flavour := aggregate |}
     | Some requested =>
         exists p script,
           requested = Some p /\ p <> []
           /\ in_script m = Some script /\ script <> []
           /\ sig_data f = {| id := id d; path := p; signature_hash := signature_hash d |}
           /\ script_ptr f = Some script
           /\ flavour f
              = update_aggregate_scripts_flavour (get_script_flavour script) aggregate
           /\ if ae then
                exists c, in_ae_host_commitment m = Some c
                          /\ List.length c = WALLY_HOST_COMMITMENT_LEN
                          /\ ae_host_commitment f = Some c
              else ae_host_commitment f = None
     end.
Proof.
  intros Hrun.
  assert (Hs : s' = s).
  { pose proof (silent_read_path_fields m ae d aggregate s) as H.
    rewrite Hrun in H. exact H. }
  split; [exact Hs|]. subst s'.
  unfold read_path_fields in Hrun.
  destruct (in_path m) as [[[|p0 p]|]|].
  - exfalso. eapply reject_not_ret. exact Hrun.
  - bind_inv_as Hrun c Eae.
    destruct (in_script m) as [[|b script]|];
      [exfalso; eapply reject_not_ret; exact Hrun| |
       exfalso; eapply reject_not_ret; exact Hrun].
    apply ret_inv in Hrun. destruct Hrun as [<- _].
    exists (p0 :: p), (b :: script). cbn [sig_data script_ptr flavour ae_host_commitment].
    repeat match goal with |- _ /\ _ => split end; try reflexivity; try discriminate.
    destruct ae.
    + destruct (in_ae_host_commitment m) as [hc|];
        [|exfalso; eapply reject_not_ret; exact Eae].
      destruct (List.length hc =? WALLY_HOST_COMMITMENT_LEN)%nat eqn:Hlen; cbn [negb] in Eae;
        [|exfalso; eapply reject_not_ret; exact Eae].
      apply ret_inv in Eae. destruct Eae as [<- _].
      apply Nat.eqb_eq in Hlen. exists hc. auto.
    + apply ret_inv in Eae. destruct Eae as [<- _]. reflexivity.
  - exfalso. eapply reject_not_ret. exact Hrun.
  - apply ret_inv in Hrun. destruct Hrun as [<- _]. reflexivity.
Qed.

Lemma read_value_commitment_ret (m : in_message) (has_path w : bool) (vc : option bytes)
    (s s' : pstate) :
  read_value_commitment m has_path w s = (Ret vc, s') ->
  s' = s
  /\ if has_path && w
     then vc = in_value_commitment m
          /\ exists c, in_value_commitment m = Some c
                       /\ List.length c = ASSET_COMMITMENT_LEN
     else vc = None.
Proof.
  unfold read_value_commitment. destruct (has_path && w).
  - destruct (in_value_commitment m) as [c|] eqn:Hvc.
    + destruct (List.length c =? ASSET_COMMITMENT_LEN)%nat eqn:Hlen; cbn [negb].
      * intros H. apply ret_inv in H. destruct H as [<- <-].
        apply Nat.eqb_eq in Hlen. split; [reflexivity|]. split; [reflexivity|].
        exists c. auto.
      * intros H. exfalso. eapply reject_not_ret. exact H.
    + cbn. intros H. exfalso. eapply reject_not_ret. exact H.
  - intros H. apply ret_inv in H. destruct H as [<- <-]. auto.
Qed.

Lemma make_signature_hash_ret (tx : wally_tx) (index : nat) (w ae : bool)
    (f : path_fields) (vc : option bytes) (d : signing_data_t) (sc : bytes)
    (s s' : pstate) :
  make_signature_hash tx index w ae f vc s = (Ret (d, sc), s') ->
  s' = s
  /\ match script_ptr f with
     | Some script =>
         exists hash,
           wallet_get_elements_tx_input_hash tx index w script vc = Some hash
           /\ d = {| id := id (sig_data f); path := path (sig_data f);
                     signature_hash := hash |}
           /\ if ae then
                exists hc, ae_host_commitment f = Some hc
                           /\ wallet_get_signer_commitment hash (path (sig_data f)) hc
                              = Some sc
              else sc = []
     | None => path (sig_data f) = [] /\ d = sig_data f /\ sc = []
     end.
Proof.
  intros Hrun.
  assert (Hs : s' = s).
  { pose proof (silent_make_signature_hash tx index w ae f vc s) as H.
    rewrite Hrun in H. exact H. }
  split; [exact Hs|]. subst s'.
  unfold make_signature_hash in Hrun.
  destruct (script_ptr f) as [script|].
  - bind_inv_as Hrun u1 E1. bind_inv_as Hrun u2 E2.
    apply assert_ret_inv in E1, E2. destruct E1 as [_ ->]. destruct E2 as [_ ->].
    destruct (wallet_get_elements_tx_input_hash tx index w script vc) as [hash|]
      eqn:Hhash; [|exfalso; eapply reject_not_ret; exact Hrun].
    exists hash. split; [reflexivity|].
    destruct ae.
    + destruct (ae_host_commitment f) as [hc|];
        [|exfalso; eapply abort_not_ret; exact Hrun].
      bind_inv_as Hrun u3 E3. apply assert_ret_inv in E3. destruct E3 as [_ ->].
      cbn [path] in Hrun.
      destruct (wallet_get_signer_commitment hash (path (sig_data f)) hc) as [sc0|]
        eqn:Hsigner; [|exfalso; eapply reject_not_ret; exact Hrun].
      apply ret_inv in Hrun. destruct Hrun as [[= <- <-] _].
      split; [reflexivity|]. exists hc. auto.
    + apply ret_inv in Hrun. destruct Hrun as [[= <- <-] _]. auto.
  - bind_inv_as Hrun u1 E1. apply assert_ret_inv in E1. destruct E1 as [Hpath ->].
    apply ret_inv in Hrun. destruct Hrun as [[= <- <-] _].
    apply Nat.eqb_eq in Hpath. apply length_zero_iff_nil in Hpath. auto.
Qed.

Lemma reply_bytes_run (data : bytes) (s : pstate) :
  jade_process_reply_to_message_bytes data s
  = (Ret tt, add_trace s [ReplyBytes (current s) data]).
Proof. reflexivity. Qed.

Lemma handle_tx_input_accepted (tx : wally_tx) (ae : bool) (index : nat)
    (st st' : input_state) (m : in_message) (s s' : pstate) :
  handle_tx_input tx ae index st m s = (Ret st', s') ->
  exists old d reply input,
    nth_error (all_signing_data st) index = Some old
    /\ accepted_input tx ae index m old d (aggregate_inputs_scripts_flavour st)
         (aggregate_inputs_scripts_flavour st') reply
    /\ all_signing_data st' = store index d (all_signing_data st)
    /\ nth_error (inputs tx) index = Some input
    /\ hash_prevout_sha_ctx st' = hash_prevout_sha_ctx st ++ prevout_bytes input
    /\ s' = add_trace s (if ae then [ReplyBytes (current s) reply] else []).
Proof.
  intros Hrun. unfold handle_tx_input in Hrun.
  bind_inv_as Hrun old Eold. apply load_ret_inv in Eold. destruct Eold as [Hold ->].
  bind_inv_as Hrun u Eid. apply assert_ret_inv in Eid. destruct Eid as [Hid ->].
  destruct (in_is_witness m) as [w|] eqn:Hw;
    [|exfalso; eapply reject_not_ret; exact Hrun].
  bind_inv_as Hrun f Ef. apply read_path_fields_ret in Ef. destruct Ef as [-> Hf].
  bind_inv_as Hrun input Einput. apply load_ret_inv in Einput.
  destruct Einput as [Hinput ->].
  bind_inv_as Hrun ctx Ectx. apply update_hash_prevouts_ret in Ectx.
  destruct Ectx as [-> ->].
  bind_inv_as Hrun vc Evc. apply read_value_commitment_ret in Evc.
  destruct Evc as [-> Hvc].
  bind_inv_as Hrun signed Esigned. destruct signed as [d sc].
  apply make_signature_hash_ret in Esigned. destruct Esigned as [-> Hsigned].
  bind_inv_as Hrun u2 Ereply.
  apply ret_inv in Hrun. destruct Hrun as [<- <-].
  cbn [all_signing_data aggregate_inputs_scripts_flavour hash_prevout_sha_ctx].
  assert (Hidne : in_id m <> EmptyString).
  { apply negb_true_iff in Hid. apply String.eqb_neq in Hid. exact Hid. }
  destruct (in_path m) as [requested|] eqn:Hpath.
  - destruct Hf as (p & script & -> & Hp & Hscript & Hscriptne & Hsig & Hptr & Hflavour & Hae).
    rewrite Hptr in Hsigned. destruct Hsigned as (hash & Hhash & -> & Hsc).
    rewrite Hsig in *. cbn [id path signature_hash] in *.
    exists old, {| id := in_id m; path := p; signature_hash := hash |},
      (if ae then firstn WALLY_S2C_OPENING_LEN sc else []), input.
    split; [exact Hold|]. split.
    { split; [exact Hidne|]. exists w. split; [exact Hw|].
      rewrite Hpath. exists p, script, hash.
      split; [reflexivity|]. split; [exact Hp|]. split; [exact Hscript|].
      split; [exact Hscriptne|]. cbn [andb] in Hvc. split.
      { intros ->. destruct Hvc as [_ Hc]. exact Hc. }
      split.
      { destruct w; [destruct Hvc as [-> _]|rewrite Hvc in Hhash]; exact Hhash. }
      split; [reflexivity|]. split; [exact Hflavour|].
      destruct ae.
      - destruct Hae as (c & Hc & Hlen & Hfc). destruct Hsc as (hc & Hhc & Hsc).
        rewrite Hfc in Hhc. injection Hhc as <-. exists c, sc. auto.
      - reflexivity. }
    split; [reflexivity|]. split; [exact Hinput|]. split; [reflexivity|].
    destruct ae.
    + rewrite reply_bytes_run in Ereply. exact (eq_sym (f_equal snd Ereply)).
    + apply ret_inv in Ereply. destruct Ereply as [_ <-].
      unfold add_trace. rewrite app_nil_r. destruct s; reflexivity.
  - subst f. cbn [script_ptr sig_data path] in Hsigned.
    destruct Hsigned as (Hnopath & -> & ->).
    exists old, {| id := in_id m; path := path old; signature_hash := signature_hash old |},
      [], input.
    split; [exact Hold|]. split.
    { split; [exact Hidne|]. exists w. split; [exact Hw|]. rewrite Hpath. auto. }
    split; [reflexivity|]. split; [exact Hinput|]. split; [reflexivity|].
    destruct ae.
    + rewrite reply_bytes_run in Ereply. exact (eq_sym (f_equal snd Ereply)).
    + apply ret_inv in Ereply. destruct Ereply as [_ <-].
      unfold add_trace. rewrite app_nil_r. destruct s; reflexivity.
Qed.

Lemma stream_input_accepted (tx : wally_tx) (ae : bool) (index : nat)
    (st st' : input_state) (s s' : pstate) :
  stream_input tx ae index st s = (Ret st', s') ->
  exists m old d reply input,
    inbox s = m :: inbox s'
    /\ in_method m = "tx_input"%string
    /\ nth_error (all_signing_data st) index = Some old
    /\ accepted_input tx ae index m old d (aggregate_inputs_scripts_flavour st)
         (aggregate_inputs_scripts_flavour st') reply
    /\ all_signing_data st' = store index d (all_signing_data st)
    /\ nth_error (inputs tx) index = Some input
    /\ hash_prevout_sha_ctx st' = hash_prevout_sha_ctx st ++ prevout_bytes input
    /\ current s' = in_id m
    /\ trace s' = trace s ++ input_exchange ae (m, reply).
Proof.
  intros Hrun. unfold stream_input in Hrun.
  bind_inv_as Hrun m Eload. apply load_in_message_ret in Eload.
  destruct Eload as (Hinbox & Hcurrent & Htrace).
  destruct (in_method m =? "tx_input")%string eqn:Hmethod; cbn [negb] in Hrun;
    [|exfalso; eapply reject_not_ret; exact Hrun].
  apply String.eqb_eq in Hmethod.
  apply handle_tx_input_accepted in Hrun.
  destruct Hrun as (old & d & reply & input & Hold & Hacc & Hdata & Hinput & Hctx & ->).
  exists m, old, d, reply, input.
  cbn [add_trace inbox current trace].
  repeat match goal with |- _ /\ _ => split end; auto.
  rewrite Htrace, <- app_assoc, Hcurrent. unfold input_exchange. cbn [fst snd app].
  destruct ae; reflexivity.
Qed.

(** X20.  An input message is accepted only as a ["tx_input"] with an id
    and an [is_witness] flag.  If it names a path, the path and the prevout
    script are non-empty, a witness input brings a 33-byte value commitment,
    with anti-exfil signatures the host commitment has 32 bytes, and the
    record kept for signing holds the message id, the path and the hash
    libwally computed over the transaction as the output-info loop left
    it.  If it names no path, nothing is computed: the record keeps an empty
    path and the hash it had, the script flavour is not updated, and the
    anti-exfil reply is empty.  Either way the input's txid and index go
    into the prevout hash. *)
Theorem accepted_input_is_validated (tx : wally_tx) (ae : bool) (index : nat)
    (st st' : input_state) (s s' : pstate) :
  stream_input tx ae index st s = (Ret st', s') ->
  exists m old d reply input,
    inbox s = m :: inbox s'
    /\ in_method m = "tx_input"%string
    /\ nth_error (all_signing_data st) index = Some old
    /\ accepted_input tx ae index m old d (aggregate_inputs_scripts_flavour st)
         (aggregate_inputs_scripts_flavour st') reply
    /\ nth_error (all_signing_data st') index = Some d
    /\ (forall k, k <> index ->
          nth_error (all_signing_data st') k = nth_error (all_signing_data st) k)
    /\ nth_error (inputs tx) index = Some input
    /\ hash_prevout_sha_ctx st' = hash_prevout_sha_ctx st ++ prevout_bytes input
    /\ trace s' = trace s ++ input_exchange ae (m, reply).
Proof.
  intros Hrun. apply stream_input_accepted in Hrun.
  destruct Hrun as (m & old & d & reply & input & Hinbox & Hmethod & Hold & Hacc & Hdata
                    & Hinput & Hctx & _ & Htrace).
  exists m, old, d, reply, input.
  repeat match goal with |- _ /\ _ => split end; auto.
  - rewrite Hdata. eapply nth_error_store_same. exact Hold.
  - intros k Hk. rewrite Hdata. apply nth_error_store_other. congruence.
Qed.

Lemma firstn_store {A : Type} (l : list A) (i : nat) (x y : A) :
  nth_error l i = Some y -> firstn (S i) (store i x l) = firstn i l ++ [x].
Proof.
  revert i. induction l as [|z l IH]; intros [|i] H; cbn in *; try discriminate.
  - reflexivity.
  - f_equal. apply IH. exact H.
Qed.

Lemma skipn_store_after {A : Type} (l : list A) (i j : nat) (x : A) :
  (i < j)%nat -> skipn j (store i x l) = skipn j l.
Proof.
  revert i j. induction l as [|z l IH]; intros [|i] [|j] H; cbn; try lia; auto.
  apply IH. lia.
Qed.

Lemma recorded_for_accepted (tx : wally_tx) (ae : bool) (index : nat) (m : in_message)
    (old d : signing_data_t) (a a' : script_flavour_t) (reply : bytes) :
  accepted_input tx ae index m old d a a' reply -> recorded_for m d.
Proof.
  intros (_ & w & _ & H). unfold recorded_for.
  destruct (in_path m) as [requested|].
  - destruct H as (p & script & hash & _ & Hp & _ & _ & _ & _ & -> & _).
    cbn. split; [reflexivity|]. split; [congruence|discriminate].
  - destruct H as (Hold & -> & _). cbn. split; [reflexivity|]. split; auto.
Qed.

Lemma stream_inputs_exchange (n index : nat) (tx : wally_tx) (ae : bool)
    (st st' : input_state) (s s' : pstate) :
  stream_inputs n index tx ae st s = (Ret st', s') ->
  exists consumed replies news,
    inbox s = consumed ++ inbox s'
    /\ List.length consumed = n
    /\ List.length replies = n
    /\ trace s' = trace s ++ List.concat (map (input_exchange ae) (combine consumed replies))
    /\ all_signing_data st'
       = firstn index (all_signing_data st) ++ news
         ++ skipn (index + n) (all_signing_data st)
    /\ Forall2 recorded_for consumed news.
Proof.
  revert index st s. induction n as [|n IH]; intros index st s Hrun.
  - cbn in Hrun. apply ret_inv in Hrun. destruct Hrun as [<- <-].
    exists [], [], []. cbn. rewrite app_nil_r, Nat.add_0_r, firstn_skipn.
    repeat match goal with |- _ /\ _ => split end; auto.
  - cbn [stream_inputs] in Hrun. bind_inv_as Hrun st1 Estep.
    apply stream_input_accepted in Estep.
    destruct Estep as (m & old & d & reply & input & Hinbox & _ & Hold & Hacc & Hdata
                       & _ & _ & _ & Htrace).
    apply IH in Hrun.
    destruct Hrun as (consumed & replies & news & Hinbox' & Hlen & Hlen' & Htrace'
                      & Hdata' & Hrec).
    exists (m :: consumed), (reply :: replies), (d :: news).
    repeat match goal with |- _ /\ _ => split end.
    + rewrite Hinbox, Hinbox'. reflexivity.
    + cbn. lia.
    + cbn. lia.
    + rewrite Htrace', Htrace, <- app_assoc. reflexivity.
    + rewrite Hdata', Hdata, (firstn_store _ _ _ _ Hold), skipn_store_after by lia.
      rewrite <- app_assoc. cbn [app]. replace (S index + n)%nat with (index + S n)%nat by lia.
      reflexivity.
    + constructor; [eapply recorded_for_accepted; exact Hacc|exact Hrec].
Qed.

Lemma confirm_outputs_ret (ui : ui_events) (s s' : pstate) (u : unit) :
  confirm_outputs ui s = (Ret u, s') ->
  outputs_accepted ui
  /\ s' = add_trace s [DisplayMessage "Processing..."%string; ReplyOk (current s)].
Proof.
  intros H.
  destruct (negb (outputs_ret ui =? ESP_OK)
            || negb (outputs_ev_id ui =? SIGN_TX_ACCEPT_OUTPUTS)) eqn:Hno.
  - rewrite (confirm_outputs_decline ui s Hno) in H. discriminate.
  - apply orb_false_iff in Hno. destruct Hno as [Hret Hev].
    apply negb_false_iff, Z.eqb_eq in Hret, Hev.
    rewrite (confirm_outputs_accept ui s Hret Hev) in H.
    split; [split; assumption|exact (eq_sym (f_equal snd H))].
Qed.

(** X21.  A session that completes has done exactly this, in this order:
    shown the outputs, acknowledged the opening message, taken one message
    per input of the transaction from the host (answering each at once with
    a payload when anti-exfil signatures are used, and with nothing
    otherwise), shown the final confirmation and handed one signing record
    per input to the signature replies, with a progress message after each
    of the two screens.  The k-th record carries the id of
    the k-th message and has a path exactly when that message named one;
    both checkpoints were accepted. *)
Theorem completed_session_trace (req : sign_request) (ui : ui_events)
    (host : list in_message) (s : pstate) :
  session req ui host = (Ret tt, s) ->
  exists p tx' oi fees st consumed replies,
    parse_request req (initial_pstate req host) = (Ret p, initial_pstate req host)
    /\ outputs_accepted ui /\ fee_accepted ui
    /\ host = consumed ++ inbox s
    /\ List.length consumed = List.length (inputs tx')
    /\ List.length replies = List.length consumed
    /\ Forall2 recorded_for consumed (all_signing_data st)
    /\ trace s
       = [DisplayOutputs (req_network req) tx' oi;
          DisplayMessage "Processing..."%string;
          ReplyOk (req_id req)]
         ++ List.concat (map (input_exchange (use_ae_signatures p))
                           (combine consumed replies))
         ++ [DisplayFinalConfirmation fees
               (warning_for (aggregate_inputs_scripts_flavour st));
             DisplayMessage "Processing..."%string;
             if use_ae_signatures p
             then SendAeSignatureReplies (all_signing_data st) (num_inputs p)
             else SendEcSignatureReplies (req_source req) (all_signing_data st)
                    (num_inputs p)].
Proof.
  unfold session, sign_liquid_tx_process. intros Hrun.
  set (s0 := initial_pstate req host) in *.
  bind_inv_as Hrun p Eparse.
  pose proof (parse_request_ret _ _ _ _ Eparse)
    as (-> & _ & _ & _ & _ & Hnonzero & Hcount & _ & _ & Hnetwork & _).
  bind_inv_as Hrun populated Epop. destruct populated as [[tx' oi] fees].
  pose proof (populate_output_info_state _ _ _ _ _ _ _ _ _ Epop) as ->.
  pose proof (populate_output_info_outputs _ _ _ _ _ _ _ _ _ _ _ Epop)
    as (Hinputs & _).
  rewrite bind_emit in Hrun.
  bind_inv_as Hrun u1 Eout. apply confirm_outputs_ret in Eout.
  destruct Eout as [Hout ->]. rewrite add_trace_add_trace in Hrun. cbn [app] in Hrun.
  bind_inv_as Hrun st Estream. apply stream_inputs_exchange in Estream.
  destruct Estream as (consumed & replies & news & Hinbox & Hlen & Hlen' & Htrace
                       & Hdata & Hrec).
  bind_inv_as Hrun hash Ehash.
  pose proof (silent_finalize_hash_prevouts (hash_prevout_sha_ctx st) s1) as Hsilent.
  rewrite Ehash in Hsilent. subst s2.
  bind_inv_as Hrun flag Echeck. apply check_commitments_ret in Echeck.
  destruct Echeck as (_ & _ & ->).
  rewrite bind_emit in Hrun.
  destruct (negb (fee_ret ui) || negb (fee_ev_id ui =? BTN_ACCEPT_SIGNATURE)) eqn:Hfee.
  { rewrite (final_stage_decline req ui p st _ Hfee) in Hrun.
    pose proof (declined_fee_not_ret (use_ae_signatures p)
                  (add_trace s1 [DisplayFinalConfirmation fees
                                   (warning_for (aggregate_inputs_scripts_flavour st))]))
      as Hnot.
    rewrite Hrun in Hnot. contradiction. }
  apply fee_accepted_dec in Hfee.
  rewrite (final_stage_accept req ui p st _ Hfee) in Hrun. injection Hrun as <-.
  assert (Hall : all_signing_data st = news).
  { rewrite Hdata. cbn [initial_input_state all_signing_data firstn app].
    rewrite skipn_all2; [apply app_nil_r|]. rewrite repeat_length. cbn. lia. }
  exists p, tx', oi, fees, st, consumed, replies.
  split; [exact Eparse|]. split; [exact Hout|]. split; [exact Hfee|].
  cbn [add_trace inbox trace] in *.
  split; [exact Hinbox|]. split.
  { rewrite Hlen, Hinputs, Hcount. unfold num_inputs_of. apply Nat2Z.id. }
  split; [lia|]. split; [rewrite Hall; exact Hrec|].
  rewrite Htrace. subst s0. cbn [initial_pstate trace current app].
  rewrite Hnetwork, <- !app_assoc. reflexivity.
Qed.

End Facts.

Lemma accepted_input_is_validated_witness :
  exists st' s',
    @stream_input Sample.model_externals Sample.tx_one true 0
      (initial_input_state 1)
      {| inbox := [Sample.signed_input "2"]; current := "1"%string; trace := [] |}
    = (Ret st', s')
    /\ exists m, [Sample.signed_input "2"] = m :: inbox s'
                 /\ in_method m = "tx_input"%string.
Proof.
  do 2 eexists. split; [vm_compute; reflexivity|].
  destruct (@accepted_input_is_validated Sample.model_externals Sample.tx_one true 0
              (initial_input_state 1) _
              {| inbox := [Sample.signed_input "2"]; current := "1"%string; trace := [] |}
              _ eq_refl)
    as (m & old & d & reply & input & Hinbox & Hmethod & _).
  exists m. split; [exact Hinbox|exact Hmethod].
Defined.

Lemma completed_session_trace_witness :
  exists s,
    Sample.run (Sample.request [1] 1 Sample.commitments_one true) Sample.accept_both
      [Sample.signed_input "2"] = (Ret tt, s)
    /\ fee_accepted (ext := Sample.model_externals) Sample.accept_both.
Proof.
  assert (Hrun : exists s,
            Sample.run (Sample.request [1] 1 Sample.commitments_one true)
              Sample.accept_both [Sample.signed_input "2"] = (Ret tt, s))
    by (eexists; vm_compute; reflexivity).
  destruct Hrun as (s & Hrun). exists s. split; [exact Hrun|].
  destruct (@completed_session_trace upstream_tags Sample.model_crypto
              Sample.model_externals
              (Sample.request [1] 1 Sample.commitments_one true) Sample.accept_both
              [Sample.signed_input "2"] s Hrun)
    as (p & tx' & oi & fees & st & consumed & replies & _ & _ & Hfee & _).
  exact Hfee.
Defined.

End InputExtras.

(* ------------------------------------------------------------------ *)
(** ** keychain.c: storing and unlocking the wallet *)
(* ------------------------------------------------------------------ *)

Module KeychainPersistExtras.
Import Commitments Keychain KeychainState KeychainCodec KeychainPersist.
Import KeychainPersistVocabulary KeychainCodecExtras KeychainInvariants.

Section Facts.
Context {tags : Network.Tags} {cx : CodecExternals} {px : PersistExternals}.



(** X23.  [keychain_load_cleartext] reports success only after a PIN
    attempt was taken, the stored blob was read and opened with the key
    given; it then restores the PIN counter and either caches a 16- or
    32-byte payload as mnemonic entropy, leaving no keychain loaded and a
    passphrase pending, or loads the keychain unserialised from a payload of
    [SERIALIZED_KEY_LEN] bytes as a non-temporary keychain with userdata 0.
    The network restriction in memory is not changed. *)
Theorem unlock_loads_what_was_stored (key : bytes) (st st' : state) :
  keychain_load_cleartext (Some key) st = Some (true, st') ->
  List.length key = AES_KEY_LEN_256
  /\ keychain_get (statics st) = None
  /\ exists counter encrypted payload,
       storage_decrement_counter (storage_counter (statics st)) = (true, counter)
       /\ storage_get_encrypted_blob (storage_encrypted_blob (statics st))
            (ENCRYPTED_DATA_LEN SERIALIZED_KEY_LEN) = Some encrypted
       /\ get_decrypted_payload key encrypted (AES_PADDED_LEN SERIALIZED_KEY_LEN)
          = Some (Some payload)
       /\ storage_counter (statics st') = storage_restore_counter counter
       /\ keychain_get_network_type_restriction (base (statics st'))
          = keychain_get_network_type_restriction (base (statics st))
       /\ ((List.length payload = BIP39_ENTROPY_LEN_128
            \/ List.length payload = BIP39_ENTROPY_LEN_256)
           /\ loaded_keys st' = loaded_keys st
           /\ keychain_requires_passphrase (statics st') = true
           /\ mnemonic_entropy_len (statics st') = List.length payload
           /\ firstn (List.length payload) (mnemonic_entropy (statics st')) = payload
           \/ List.length payload = SERIALIZED_KEY_LEN
              /\ exists keydata,
                   unserialize payload SERIALIZED_KEY_LEN keydata_zero = Some keydata
                   /\ loaded_keys st' = Some keydata
                   /\ keychain_get (statics st') = Some (forget keydata)
                   /\ keychain_has_temporary (base (statics st')) = Some false
                   /\ keychain_get_userdata (statics st') = 0
                   /\ keychain_requires_passphrase (statics st') = false).
Proof.
  unfold keychain_load_cleartext.
  destruct (List.length key =? AES_KEY_LEN_256)%nat eqn:Hkey; cbn [negb]; [|discriminate].
  apply Nat.eqb_eq in Hkey.
  destruct (is_loaded (base (statics st))) eqn:Hloaded; cbn [orb]; [discriminate|].
  destruct (mnemonic_entropy_len (statics st) =? 0)%nat eqn:Hentropy; cbn [negb];
    [|discriminate].
  destruct (keychain_has_pin _); cbn [negb]; [|discriminate].
  destruct (storage_decrement_counter (storage_counter (statics st)))
    as [decremented counter].
  destruct decremented; cbn [negb]; [|discriminate].
  cbn [set_counter storage_encrypted_blob].
  destruct (storage_get_encrypted_blob _ _) as [encrypted|]; [|discriminate].
  destruct (get_decrypted_payload key encrypted _) as [[payload|]|] eqn:Hopen;
    [| |discriminate].
  2:{ destruct (_ =? 0); [|discriminate].
      destruct (keychain_erase_encrypted _); discriminate. }
  assert (Hnone : keychain_get (statics st) = None).
  { unfold keychain_get. unfold is_loaded in Hloaded.
    destruct (keychain_data (base (statics st))); [discriminate|reflexivity]. }
  intros Hrun. split; [exact Hkey|]. split; [exact Hnone|].
  exists counter, encrypted, payload.
  split; [reflexivity|]. split; [reflexivity|]. split; [exact Hopen|].
  destruct ((List.length payload =? BIP39_ENTROPY_LEN_128)%nat
            || (List.length payload =? BIP39_ENTROPY_LEN_256)%nat) eqn:Hwords.
  - injection Hrun as <-. cbn.
    split; [reflexivity|]. split; [reflexivity|]. left.
    apply orb_true_iff in Hwords. rewrite !Nat.eqb_eq in Hwords.
    split; [exact Hwords|]. split; [reflexivity|].
    unfold keychain_requires_passphrase. cbn. rewrite Hloaded.
    split.
    { destruct Hwords as [-> | ->]; reflexivity. }
    split; [reflexivity|]. apply firstn_app_exact. reflexivity.
  - destruct (List.length payload =? SERIALIZED_KEY_LEN)%nat eqn:Hlen; [|discriminate].
    apply Nat.eqb_eq in Hlen. rewrite Hlen in Hrun.
    destruct (unserialize payload SERIALIZED_KEY_LEN keydata_zero) as [keydata|] eqn:Hun;
      [|discriminate].
    unfold keychain_set_keydata, keychain_set in Hrun. injection Hrun as <-. cbn.
    split; [reflexivity|]. split; [reflexivity|]. right.
    split; [exact Hlen|]. exists keydata. auto 10.
Qed.


End Facts.


Lemma unlock_loads_what_was_stored_witness :
  exists st',
    @keychain_load_cleartext sample_codec sample_persist (Some sample_aeskey) sample_locked
    = Some (true, st')
    /\ List.length sample_aeskey = AES_KEY_LEN_256
    /\ keychain_get (statics sample_locked) = None.
Proof.
  assert (Hrun : exists st',
            @keychain_load_cleartext sample_codec sample_persist (Some sample_aeskey)
              sample_locked = Some (true, st'))
    by (eexists; reflexivity).
  destruct Hrun as (st' & Hrun). exists st'. split; [exact Hrun|].
  destruct (@unlock_loads_what_was_stored sample_codec sample_persist sample_aeskey
              sample_locked st' Hrun) as (Hkey & Hnone & _).
  split; [exact Hkey|exact Hnone].
Defined.


End KeychainPersistExtras.

(* ------------------------------------------------------------------ *)
(** ** Runs on which the code and the specification part ways *)
(* ------------------------------------------------------------------ *)

Module Divergences.
Import Network Keychain Commitments SignLiquidTx Sample SampleDivergence.

(** C1, the failing run.  Both confidential outputs of [tx_two] come with a
    trusted record whose value commitment differs from the recomputed one,
    so there are two mismatches; but the commitments begin with 0x01, the
    output-info loop copies them over the outputs' values, the verification
    loop takes both outputs for plaintext and checks neither, and the
    session signs. *)
Lemma two_skipped_mismatches_are_signed :
  is_blinded blinded_output = true
  /\ @value_commitment_mismatch model_crypto (hash_of tx_two) 0 blinded_output
       (skipped_commitment (hash_of tx_two) 0 lbtc 5000) = true
  /\ @value_commitment_mismatch model_crypto (hash_of tx_two) 1 blinded_output
       (skipped_commitment (hash_of tx_two) 1 lbtc 700) = true
  /\ fst (run (request [2] 2 commitments_two_skipped false) accept_both
            [signed_input "2"; signed_input "3"]) = Ret tt
  /\ exists data,
       In (SendEcSignatureReplies 0 data 2)
          (trace (snd (run (request [2] 2 commitments_two_skipped false) accept_both
                         [signed_input "2"; signed_input "3"]))).
Proof.
  split; [vm_compute; reflexivity|].
  split; [vm_compute; reflexivity|].
  split; [vm_compute; reflexivity|].
  split; [vm_compute; reflexivity|].
  eexists. vm_compute. do 7 right. left. reflexivity.
Qed.

(** C2, the failing run.  The confidential output of [tx_one] comes with a
    trusted record whose asset generator differs from the recomputed one
    and whose value commitment begins with 0x01:
    [check_trusted_commitment_valid] is never called for the output and the
    session signs. *)
Lemma wrong_generator_behind_plain_prefix_is_signed :
  is_blinded blinded_output = true
  /\ (exists generator,
        @recompute_generator model_crypto (hash_of tx_one) 0 wrong_generator_commitment
        = Some generator
        /\ firstn ASSET_GENERATOR_LEN (asset_generator wrong_generator_commitment)
           <> firstn ASSET_GENERATOR_LEN generator)
  /\ fst (run (request [1] 1 commitments_wrong_generator false) accept_both
            [signed_input "2"]) = Ret tt
  /\ exists data,
       In (SendEcSignatureReplies 0 data 1)
          (trace (snd (run (request [1] 1 commitments_wrong_generator false) accept_both
                         [signed_input "2"]))).
Proof.
  split; [vm_compute; reflexivity|].
  split.
  { eexists. split; [vm_compute; reflexivity|]. vm_compute. discriminate. }
  split; [vm_compute; reflexivity|].
  eexists. vm_compute. do 6 right. left. reflexivity.
Qed.

(** C6, the original claim failing: scriptless plaintext outputs of
    2^64 - 1 and of 2 sum to 2^64 + 1, and the fee on the final confirmation
    screen is 1. *)
Lemma fee_total_wraps_at_64_bits :
  @fee_sum overflow_externals (outputs tx_overflow)
    (@output_info_before overflow_externals request_overflow tx_overflow)
  = 2 ^ 64 + 1
  /\ In (DisplayFinalConfirmation 1 None)
        (trace (snd (@session upstream_tags model_crypto overflow_externals
                       request_overflow accept_both [unsigned_input "2"])))
  /\ fst (@session upstream_tags model_crypto overflow_externals
            request_overflow accept_both [unsigned_input "2"]) = Ret tt.
Proof.
  split; [vm_compute; reflexivity|].
  split; [vm_compute; do 4 right; left; reflexivity|].
  vm_compute. reflexivity.
Qed.

(** C10, the original claim failing: a loaded wallet pinned to the test
    networks, for which ["mainnet"] is inconsistent, has its stored copy
    erased or stored anew; the keychain stays loaded, ["mainnet"] is
    consistent again and pins the wallet to the main networks. *)
Lemma clearing_lifts_the_restriction :
  (exists pinned erased repinned,
     @keychain_set_network_type_restriction upstream_tags (Some "testnet"%string)
       fresh_wallet = Some pinned
     /\ keychain_get_network_type_restriction pinned = NETWORK_TYPE_TEST
     /\ @keychain_is_network_type_consistent upstream_tags (Some "mainnet"%string) pinned
        = Some false
     /\ KeychainState.keychain_erase_encrypted
          (KeychainState.set_base pinned KeychainState.sample_state) = Some erased
     /\ KeychainState.keychain_get erased = keychain_data fresh_wallet
     /\ KeychainState.keychain_get erased <> None
     /\ @keychain_is_network_type_consistent upstream_tags (Some "mainnet"%string)
          (KeychainState.base erased) = Some true
     /\ @keychain_set_network_type_restriction upstream_tags (Some "mainnet"%string)
          (KeychainState.base erased) = Some repinned
     /\ keychain_get_network_type_restriction repinned = NETWORK_TYPE_MAIN)
  /\ (exists stored,
        keychain_get_network_type_restriction
          (KeychainState.base (KeychainPersist.statics KeychainPersist.sample_unlocked))
        = NETWORK_TYPE_TEST
        /\ @KeychainPersist.keychain_store_encrypted KeychainCodec.sample_codec
             KeychainPersist.sample_persist
             (Some KeychainPersistVocabulary.sample_aeskey) [9]
             KeychainPersist.sample_unlocked = Some (true, stored)
        /\ KeychainPersist.loaded_keys stored
           = KeychainPersist.loaded_keys KeychainPersist.sample_unlocked
        /\ KeychainPersist.loaded_keys stored <> None
        /\ @keychain_is_network_type_consistent upstream_tags (Some "mainnet"%string)
             (KeychainState.base (KeychainPersist.statics stored)) = Some true).
Proof.
  split.
  - do 3 eexists.
    split; [vm_compute; reflexivity|]. split; [vm_compute; reflexivity|].
    split; [vm_compute; reflexivity|]. split; [vm_compute; reflexivity|].
    split; [vm_compute; reflexivity|]. split; [vm_compute; discriminate|].
    split; [vm_compute; reflexivity|]. split; [vm_compute; reflexivity|].
    vm_compute. reflexivity.
  - eexists.
    split; [reflexivity|]. split; [reflexivity|].
    split; [reflexivity|]. split; [discriminate|].
    reflexivity.
Qed.

End Divergences.
